(** * Qwen-Copilot: the stream aggregator and the OAuth credential handler

    A shallow embedding of [src/qwen-client.ts] (the tool-call aggregator of
    [streamChatCompletion], the client and its token estimate), of
    [src/auth.ts] (token refresh, credential store, device-flow polling),
    of the sign-in and sign-out commands of [src/extension.ts] and of the
    message and option conversion of [src/provider.ts], with the properties
    the specification states about them and further properties of the code.

    Conventions of the embedding
    - a JavaScript string is a [string] whose characters are its code
      units, each below 256;
    - a JavaScript number that the code uses as an integer (an index, a
      time in milliseconds, a status code) is a [Z];
    - [undefined] and [null] are [None];
    - a [throw] is the [Throw] result of the error monad of module [Auth];
    - an async generator is the list of the actions it performs, in order. *)

From Stdlib Require Import ZArith String Ascii List Bool Lia DecimalString.
From stdpp Require Import base list sorting.
Import ListNotations.

Local Open Scope string_scope.
Local Open Scope Z_scope.

(** ** The JavaScript built-ins the source relies on *)

Module Js.

(** Truthiness of a string: every string but the empty one. *)
Definition truthy (s : string) : bool :=
  match s with
  | EmptyString => false
  | String _ _ => true
  end.

(** Truthiness of [string | null | undefined]. *)
Definition truthy_opt (o : option string) : bool :=
  match o with
  | Some s => truthy s
  | None => false
  end.

(** [a ?? b]. *)
Definition nullish {A} (a : option A) (b : A) : A :=
  match a with
  | Some x => x
  | None => b
  end.

(** WhiteSpace and LineTerminator code units below 256: TAB, LF, VT, FF,
    CR, SP and NBSP. *)
Definition isWhiteSpace (c : ascii) : bool :=
  let n := nat_of_ascii c in
  ((9 <=? n) && (n <=? 13) || (n =? 32) || (n =? 160))%nat.

Fixpoint trimStart (s : string) : string :=
  match s with
  | EmptyString => EmptyString
  | String c rest => if isWhiteSpace c then trimStart rest else s
  end.

Fixpoint reverse (s acc : string) : string :=
  match s with
  | EmptyString => acc
  | String c rest => reverse rest (String c acc)
  end.

Definition trimEnd (s : string) : string :=
  reverse (trimStart (reverse s EmptyString)) EmptyString.

(** [String.prototype.trim]. *)
Definition trim (s : string) : string := trimEnd (trimStart s).

(** [s.length]. *)
Definition length (s : string) : Z := Z.of_nat (String.length s).

(** [String(n)] for an integer [n], as a template literal prints it. *)
Definition toString (n : Z) : string := NilZero.string_of_int (Z.to_int n).

(** [s.startsWith(prefix)]. *)
Definition startsWith (s prefix : string) : bool := String.prefix prefix s.

(** [s.endsWith(suffix)]: some tail of [s] is [suffix]. *)
Fixpoint endsWith (s suffix : string) : bool :=
  if String.eqb s suffix then true
  else
    match s with
    | EmptyString => false
    | String _ rest => endsWith rest suffix
    end.

(** A string with a character that is not white space. *)
Fixpoint nonblank (s : string) : bool :=
  match s with
  | EmptyString => false
  | String c rest => negb (isWhiteSpace c) || nonblank rest
  end.

End Js.

(** ** JavaScript values as [JSON.parse] builds them *)

#[local] Set Warnings "-register-all".

Inductive JsValue : Type :=
| JNull
| JBool (b : bool)
| JNumber (mantissa exponent : Z)      (* the decimal mantissa * 10^exponent *)
| JString (s : string)
| JArray (items : list JsValue)
| JObject (members : list (string * JsValue)).

(** [JSON.parse] is a built-in, not code of the repository.  [Json.parse]
    follows the JSON grammar (ECMA-404): [None] stands for the thrown
    [SyntaxError].  A number is kept as the decimal its literal denotes,
    object members are kept as written, and an escape [\uXXXX] above
    code unit 255, which the strings of this embedding cannot hold, is not
    accepted.  The theorems about the aggregator are stated for an
    arbitrary parser; this one serves the concrete examples. *)
Module Json.

Definition isWs (c : ascii) : bool :=
  let n := nat_of_ascii c in
  ((n =? 32) || (n =? 9) || (n =? 10) || (n =? 13))%nat.

Fixpoint skipWs (s : string) : string :=
  match s with
  | String c rest => if isWs c then skipWs rest else s
  | EmptyString => EmptyString
  end.

Definition digit (c : ascii) : option Z :=
  let n := nat_of_ascii c in
  if ((48 <=? n) && (n <=? 57))%nat then Some (Z.of_nat n - 48) else None.

Definition hexDigit (c : ascii) : option Z :=
  let n := nat_of_ascii c in
  if ((48 <=? n) && (n <=? 57))%nat then Some (Z.of_nat n - 48)
  else if ((65 <=? n) && (n <=? 70))%nat then Some (Z.of_nat n - 55)
  else if ((97 <=? n) && (n <=? 102))%nat then Some (Z.of_nat n - 87)
  else None.

(** Reads a possibly empty run of digits: the value of [acc] followed
    by the digits, how many were read, and the rest. *)
Fixpoint digits (s : string) (acc : Z) (count : Z) : Z * Z * string :=
  match s with
  | String c rest =>
      match digit c with
      | Some d => digits rest (10 * acc + d) (count + 1)
      | None => (acc, count, s)
      end
  | EmptyString => (acc, count, s)
  end.

(** [int]: a single [0], or a non-zero digit followed by digits. *)
Definition intPart (s : string) : option (Z * string) :=
  match s with
  | String c rest =>
      match digit c with
      | Some 0 => Some (0, rest)
      | Some d => let '(m, _, rest') := digits rest d 0 in Some (m, rest')
      | None => None
      end
  | EmptyString => None
  end.

(** [frac]: nothing, or a dot followed by at least one digit. *)
Definition fracPart (m : Z) (s : string) : option (Z * Z * string) :=
  match s with
  | String "." rest =>
      let '(m', k, rest') := digits rest m 0 in
      if k =? 0 then None else Some (m', k, rest')
  | _ => Some (m, 0, s)
  end.

(** [exp]: nothing, or [e]/[E], an optional sign and at least one digit. *)
Definition expPart (s : string) : option (Z * string) :=
  match s with
  | String c rest =>
      if (Ascii.eqb c "e" || Ascii.eqb c "E")%char then
        let '(sign, rest1) :=
          match rest with
          | String "+" r => (1, r)
          | String "-" r => (-1, r)
          | _ => (1, rest)
          end in
        let '(e, k, rest2) := digits rest1 0 0 in
        if k =? 0 then None else Some (sign * e, rest2)
      else Some (0, s)
  | EmptyString => Some (0, s)
  end.

Definition number (s : string) : option (JsValue * string) :=
  let '(sign, s1) :=
    match s with
    | String "-" r => (-1, r)
    | _ => (1, s)
    end in
  match intPart s1 with
  | None => None
  | Some (m, s2) =>
      match fracPart m s2 with
      | None => None
      | Some (m', k, s3) =>
          match expPart s3 with
          | None => None
          | Some (e, s4) => Some (JNumber (sign * m') (e - k), s4)
          end
      end
  end.

(** Four hexadecimal digits. *)
Definition hex4 (s : string) : option (Z * string) :=
  match s with
  | String a (String b (String c (String d rest))) =>
      match hexDigit a, hexDigit b, hexDigit c, hexDigit d with
      | Some x, Some y, Some z, Some w => Some (4096 * x + 256 * y + 16 * z + w, rest)
      | _, _, _, _ => None
      end
  | _ => None
  end.

Definition escape (c : ascii) : option ascii :=
  match c with
  | "034"%char => Some "034"%char
  | "\"%char => Some "\"%char
  | "/"%char => Some "/"%char
  | "b"%char => Some (ascii_of_nat 8)
  | "f"%char => Some (ascii_of_nat 12)
  | "n"%char => Some (ascii_of_nat 10)
  | "r"%char => Some (ascii_of_nat 13)
  | "t"%char => Some (ascii_of_nat 9)
  | _ => None
  end.

(** The characters of a string literal after its opening quote, up to
    and including the closing quote. *)
Fixpoint chars (fuel : nat) (s : string) : option (string * string) :=
  match fuel with
  | O => None
  | S fuel' =>
      match s with
      | EmptyString => None
      | String c rest =>
          if Ascii.eqb c "034" then Some (EmptyString, rest)
          else if Ascii.eqb c "\" then
            match rest with
            | String "u" rest1 =>
                match hex4 rest1 with
                | Some (u, rest2) =>
                    if u <? 256 then
                      match chars fuel' rest2 with
                      | Some (body, rest3) =>
                          Some (String (ascii_of_nat (Z.to_nat u)) body, rest3)
                      | None => None
                      end
                    else None
                | None => None
                end
            | String e rest1 =>
                match escape e, chars fuel' rest1 with
                | Some x, Some (body, rest2) => Some (String x body, rest2)
                | _, _ => None
                end
            | EmptyString => None
            end
          else if (nat_of_ascii c <? 32)%nat then None
          else
            match chars fuel' rest with
            | Some (body, rest1) => Some (String c body, rest1)
            | None => None
            end
      end
  end.

Fixpoint literal (word s : string) : option string :=
  match word, s with
  | EmptyString, _ => Some s
  | String a word', String b s' => if Ascii.eqb a b then literal word' s' else None
  | String _ _, EmptyString => None
  end.

(** [value], [elements] (after an element of an array) and [members]
    (after a member of an object); the input of [value] has no leading
    white space. *)
Fixpoint value (fuel : nat) (s : string) : option (JsValue * string) :=
  match fuel with
  | O => None
  | S fuel' =>
      match s with
      | EmptyString => None
      | String c rest =>
          if Ascii.eqb c "{" then
            match skipWs rest with
            | String "}" rest1 => Some (JObject [], rest1)
            | rest1 =>
                match members fuel' rest1 with
                | Some (ms, rest2) => Some (JObject ms, rest2)
                | None => None
                end
            end
          else if Ascii.eqb c "[" then
            match skipWs rest with
            | String "]" rest1 => Some (JArray [], rest1)
            | rest1 =>
                match elements fuel' rest1 with
                | Some (vs, rest2) => Some (JArray vs, rest2)
                | None => None
                end
            end
          else if Ascii.eqb c "034" then
            match chars fuel' rest with
            | Some (body, rest1) => Some (JString body, rest1)
            | None => None
            end
          else if Ascii.eqb c "t" then
            option_map (pair (JBool true)) (literal "rue" rest)
          else if Ascii.eqb c "f" then
            option_map (pair (JBool false)) (literal "alse" rest)
          else if Ascii.eqb c "n" then
            option_map (pair JNull) (literal "ull" rest)
          else number s
      end
  end
with elements (fuel : nat) (s : string) : option (list JsValue * string) :=
  match fuel with
  | O => None
  | S fuel' =>
      match value fuel' s with
      | None => None
      | Some (v, rest) =>
          match skipWs rest with
          | String "]" rest1 => Some ([v], rest1)
          | String "," rest1 =>
              match elements fuel' (skipWs rest1) with
              | Some (vs, rest2) => Some (v :: vs, rest2)
              | None => None
              end
          | _ => None
          end
      end
  end
with members (fuel : nat) (s : string) : option (list (string * JsValue) * string) :=
  match fuel with
  | O => None
  | S fuel' =>
      match s with
      | String "034" rest =>
          match chars fuel' rest with
          | None => None
          | Some (key, rest1) =>
              match skipWs rest1 with
              | String ":" rest2 =>
                  match value fuel' (skipWs rest2) with
                  | None => None
                  | Some (v, rest3) =>
                      match skipWs rest3 with
                      | String "}" rest4 => Some ([(key, v)], rest4)
                      | String "," rest4 =>
                          match members fuel' (skipWs rest4) with
                          | Some (ms, rest5) => Some ((key, v) :: ms, rest5)
                          | None => None
                          end
                      | _ => None
                      end
                  end
              | _ => None
              end
          end
      | _ => None
      end
  end.

(** A JSON text: one value between optional white space. *)
Definition parse (s : string) : option JsValue :=
  match value (S (String.length s)) (skipWs s) with
  | Some (v, rest) =>
      match skipWs rest with
      | EmptyString => Some v
      | String _ _ => None
      end
  | None => None
  end.

End Json.

(** ** [src/qwen-client.ts]: the stream aggregator *)

Module Aggregator.

(** [QwenStreamEvent] of [types.ts]. *)
Inductive QwenStreamEvent : Type :=
| text (content : string)
| tool_call (callId name : string) (input : JsValue).

(** The parts of an OpenAI [ChatCompletionChunk] that the loop reads. *)
Record FunctionDelta : Type := {
  name : option string;
  arguments : option string
}.

Record ToolCallDelta : Type := {
  index : option Z;               (* [None]: not of type number *)
  id : option string;
  function : option FunctionDelta
}.

Record Delta : Type := {
  content : option string;
  tool_calls : option (list ToolCallDelta)
}.

Record Choice : Type := { delta : option Delta }.

Record Chunk : Type := { choices : list Choice }.

(** The values of the map [toolCallsByIndex]. *)
Record Accumulator : Type := {
  acc_id : string;
  acc_name : option string;
  acc_arguments : string
}.

(** A JavaScript [Map] with number keys: its entries in insertion
    order.  [set] on a key that is present replaces the value in place,
    on a new key it appends the entry. *)
Definition ToolCallMap : Type := list (Z * Accumulator).

Fixpoint Map_get (m : ToolCallMap) (k : Z) : option Accumulator :=
  match m with
  | [] => None
  | (k', v) :: m' => if k =? k' then Some v else Map_get m' k
  end.

Fixpoint Map_set (m : ToolCallMap) (k : Z) (v : Accumulator) : ToolCallMap :=
  match m with
  | [] => [(k, v)]
  | (k', v') :: m' => if k =? k' then (k, v) :: m' else (k', v') :: Map_set m' k v
  end.

(** [chunk.choices[0]?.delta]. *)
Definition chunk_delta (chunk : Chunk) : option Delta :=
  match choices chunk with
  | c :: _ => delta c
  | [] => None
  end.

(** [delta?.content]. *)
Definition chunk_content (chunk : Chunk) : option string :=
  match chunk_delta chunk with
  | Some d => content d
  | None => None
  end.

(** [delta?.tool_calls]. *)
Definition chunk_tool_calls (chunk : Chunk) : option (list ToolCallDelta) :=
  match chunk_delta chunk with
  | Some d => tool_calls d
  | None => None
  end.

(** [call.function?.name] and [call.function?.arguments]. *)
Definition call_name (call : ToolCallDelta) : option string :=
  match function call with
  | Some f => name f
  | None => None
  end.

Definition call_arguments (call : ToolCallDelta) : option string :=
  match function call with
  | Some f => arguments f
  | None => None
  end.

(** [typeof call.index === 'number' ? call.index : 0]. *)
Definition call_index (call : ToolCallDelta) : Z :=
  match index call with
  | Some n => n
  | None => 0
  end.

(** The template literal [`tool_call_${index}`]. *)
Definition placeholder_id (i : Z) : string := "tool_call_" ++ Js.toString i.

(** Lines 82 to 90: the three guarded assignments to [existing]. *)
Definition update_accumulator (existing : Accumulator) (call : ToolCallDelta) : Accumulator :=
  let existing :=
    if Js.truthy_opt (id call)
    then {| acc_id := Js.nullish (id call) EmptyString;
            acc_name := acc_name existing;
            acc_arguments := acc_arguments existing |}
    else existing in
  let existing :=
    if Js.truthy_opt (call_name call)
    then {| acc_id := acc_id existing;
            acc_name := call_name call;
            acc_arguments := acc_arguments existing |}
    else existing in
  if Js.truthy_opt (call_arguments call)
  then {| acc_id := acc_id existing;
          acc_name := acc_name existing;
          acc_arguments :=
            acc_arguments existing ++ Js.nullish (call_arguments call) EmptyString |}
  else existing.

(** The body of [for (const call of toolCalls)], lines 75 to 92. *)
Definition absorb_call (m : ToolCallMap) (call : ToolCallDelta) : ToolCallMap :=
  let index := call_index call in
  let existing :=
    match Map_get m index with
    | Some e => e
    | None => {| acc_id := Js.nullish (id call) (placeholder_id index);
                 acc_name := None;
                 acc_arguments := EmptyString |}
    end in
  Map_set m index (update_accumulator existing call).

(** [if (toolCalls) { for (const call of toolCalls) ... }]. *)
Definition absorb_chunk (m : ToolCallMap) (chunk : Chunk) : ToolCallMap :=
  match chunk_tool_calls chunk with
  | Some calls => fold_left absorb_call calls m
  | None => m
  end.

(** What the generator does, as its consumer and its transport see it. *)
Inductive Action : Type :=
| Pull (chunk : Chunk)          (* [for await] receives the next chunk *)
| Drained                       (* [for await] finds the stream closed *)
| Yield (ev : QwenStreamEvent). (* [yield] *)

(** [Array.from(m.entries()).sort((a, b) => a[0] - b[0])]. *)
Definition entry_le (a b : Z * Accumulator) : Prop := a.1 <= b.1.

#[export] Instance entry_le_dec (a b : Z * Accumulator) : Decision (entry_le a b) :=
  Z_le_dec a.1 b.1.

Definition ordered_entries (m : ToolCallMap) : list (Z * Accumulator) :=
  merge_sort entry_le m.

Section WithParser.

(** [JSON.parse]: [None] when it throws. *)
Variable JSON_parse : string -> option JsValue.

(** The body of [for (const [, call] of ordered)], lines 100 to 116. *)
Definition finalize (call : Accumulator) : QwenStreamEvent :=
  let name := Js.nullish (acc_name call) "tool" in
  let input :=
    if Js.length (Js.trim (acc_arguments call)) >? 0 then
      match JSON_parse (acc_arguments call) with
      | Some v => v
      | None => JObject [("_raw", JString (acc_arguments call))]
      end
    else JObject [] in
  tool_call (acc_id call) name input.

(** Lines 97 to 118, after the loop. *)
Definition flush (m : ToolCallMap) : list Action :=
  if Z.of_nat (length m) >? 0
  then map (fun entry => Yield (finalize entry.2)) (ordered_entries m)
  else [].

(** Lines 65 to 118: the [for await] loop over the transport stream,
    then the flush.  The stream is the list of the chunks it delivers
    before it closes. *)
Fixpoint run (stream : list Chunk) (m : ToolCallMap) : list Action :=
  match stream with
  | [] => Drained :: flush m
  | chunk :: rest =>
      Pull chunk ::
      (if Js.truthy_opt (chunk_content chunk)
       then [Yield (text (Js.nullish (chunk_content chunk) EmptyString))]
       else []) ++
      run rest (absorb_chunk m chunk)
  end.

Definition yielded (a : Action) : option QwenStreamEvent :=
  match a with
  | Yield ev => Some ev
  | _ => None
  end.

(** The events a consumer that reads the generator to its end receives. *)
Definition streamChatCompletion (stream : list Chunk) : list QwenStreamEvent :=
  omap yielded (run stream []).

End WithParser.

(** The map at the end of the loop. *)
Definition toolCallsByIndex (stream : list Chunk) : ToolCallMap :=
  fold_left absorb_chunk stream [].

(** *** The merge as the specification words it

    The fragments of a stream in arrival order, those of one index, the
    last value of a field that is present, and the concatenation of the
    argument pieces: what "last writer wins" and "append only" say
    about the fragments of one index, without the map. *)

Definition fragments (stream : list Chunk) : list ToolCallDelta :=
  flat_map (fun chunk => Js.nullish (chunk_tool_calls chunk) []) stream.

Definition fragments_at (i : Z) (stream : list Chunk) : list ToolCallDelta :=
  filter (fun call => call_index call = i) (fragments stream).

Definition present (o : option string) : option string :=
  if Js.truthy_opt o then o else None.

Definition last_present (field : ToolCallDelta -> option string)
    (fs : list ToolCallDelta) : option string :=
  last (omap (fun call => present (field call)) fs).

Definition appended (fs : list ToolCallDelta) : string :=
  fold_right String.append EmptyString (omap (fun call => present (call_arguments call)) fs).

Definition merged (i : Z) (fs : list ToolCallDelta) : option Accumulator :=
  match fs with
  | [] => None
  | first :: _ =>
      Some {| acc_id := Js.nullish (last_present id fs)
                          (Js.nullish (id first) (placeholder_id i));
              acc_name := last_present call_name fs;
              acc_arguments := appended fs |}
  end.

(** The text a chunk carries, when it carries one. *)
Definition arriving_text (chunk : Chunk) : option string :=
  present (chunk_content chunk).




(** What the consumer and the transport see while the stream is read:
    each chunk pulled, followed at once by its text event if it has one. *)
Definition reading (stream : list Chunk) : list Action :=
  flat_map (fun chunk =>
              Pull chunk ::
              match arriving_text chunk with
              | Some s => [Yield (text s)]
              | None => []
              end) stream.

(** *** The stream of the specification's example *)


Definition fragment (i : Z) (args name : option string) : Chunk :=
  {| choices :=
       [ {| delta :=
              Some {| content := None;
                      tool_calls :=
                        Some [ {| index := Some i; id := None;
                                  function := Some {| name := name; arguments := args |} |} ]
                   |} |} ] |}.


(** A single fragment that names a tool and carries the empty string as
    its id. *)
Definition empty_id_stream : list Chunk :=
  [ {| choices :=
         [ {| delta :=
                Some {| content := None;
                        tool_calls :=
                          Some [ {| index := Some 0; id := Some EmptyString;
                                    function := Some {| name := Some "f";
                                                        arguments := None |} |} ]
                     |} |} ] |} ].

(** *** Further vocabulary *)

Definition joined (pieces : list string) : string :=
  fold_right String.append EmptyString pieces.

(** Two arrivals of the same fragments: index 0 and index 1 interleaved,
    one fragment per chunk, and the fragments of index 1 first, all in one
    chunk. *)
Definition call_fragment (i : option Z) (call_id args name : option string) : ToolCallDelta :=
  {| index := i; id := call_id;
     function := Some {| name := name; arguments := args |} |}.

Definition chunk_of (text_content : option string) (calls : option (list ToolCallDelta))
    : Chunk :=
  {| choices := [ {| delta := Some {| content := text_content; tool_calls := calls |} |} ] |}.

Definition interleaved_stream : list Chunk :=
  [ chunk_of (Some "Hi") (Some [call_fragment (Some 1) (Some "b") (Some "{") (Some "g")]);
    chunk_of None (Some [call_fragment None (Some "a") (Some "[1") (Some "f")]);
    chunk_of None (Some [call_fragment (Some 1) None (Some "}") None]);
    chunk_of None (Some [call_fragment (Some 0) None (Some "]") None]) ].

Definition regrouped_stream : list Chunk :=
  [ chunk_of None (Some [call_fragment None (Some "a") (Some "[1") (Some "f");
                         call_fragment (Some 0) None (Some "]") None]);
    chunk_of (Some "Hi") None;
    chunk_of (Some EmptyString)
             (Some [call_fragment (Some 1) (Some "b") (Some "{") (Some "g");
                    call_fragment (Some 1) None (Some "}") None]) ].

End Aggregator.

(** ** [src/auth.ts]: the credential handler *)

Module Auth.

(** *** Data of [types.ts] and of the top of [auth.ts] *)

Record QwenCredentials : Type := {
  accessToken : string;
  refreshToken : string;
  expiresAt : Z;
  resourceUrl : option string;
  tokenType : option string
}.

(** [QwenTokenResponse], which is also the shape of [DeviceTokenSuccess]. *)
Record QwenTokenResponse : Type := {
  access_token : string;
  refresh_token : option string;
  expires_in : Z;
  token_type : string;
  resource_url : option string
}.

Record DeviceAuthorizationData : Type := {
  device_code : string;
  user_code : string;
  verification_uri : string;
  verification_uri_complete : string;
  device_expires_in : Z
}.

(** The JSON object a poll of the token endpoint answers with, through
    the keys the handler reads: [status], [slowDown], [error],
    [error_description], and the token fields when the key
    [access_token] is there. *)
Record PollBody : Type := {
  body_status : option string;
  body_slowDown : bool;
  body_error : option string;
  body_error_description : option string;
  body_token : option QwenTokenResponse
}.

Definition TOKEN_REFRESH_BUFFER : Z := 30 * 1000.

(** The three type guards, lines 51 to 67. *)
Definition isDeviceTokenPending (response : PollBody) : bool :=
  match body_status response with
  | Some st => String.eqb st "pending"
  | None => false
  end.

Definition isDeviceTokenError (response : PollBody) : bool :=
  match body_error response with
  | Some _ => true
  | None => false
  end.

Definition isDeviceTokenSuccess (response : PollBody) : bool :=
  match body_token response with
  | Some _ => true
  | None => false
  end.

(** *** The world around the handler *)

(** What [throw] carries. *)
Inductive Exn : Type :=
| Error (message : string)          (* [new Error(message)], or a rejected [fetch] *)
| SyntaxError                       (* a body that is not JSON *)
| TypeError                         (* a property read on [null] *)
| ErrnoException (code : string).   (* a failed [fs] call *)

(** A text kept in the vault or in the file: the serialisation of a
    credential by [JSON.stringify(c)] or [JSON.stringify(c, null, 2)], or
    any other text. *)
Inductive StoredText : Type :=
| JSON_stringify (c : QwenCredentials)
| JSON_stringify_2 (c : QwenCredentials)
| OtherText (s : string).

(** An HTTP response with body type [B]; [json = None] when the body is
    not JSON. *)
Record Response (B : Type) : Type := {
  ok : bool;
  status : Z;
  statusText : string;
  text : string;
  json : option B
}.
Arguments ok {B}.
Arguments status {B}.
Arguments statusText {B}.
Arguments text {B}.
Arguments json {B}.

(** How a [fetch] settles, and after how many milliseconds. *)
Inductive Settled (B : Type) : Type :=
| Rejects (message : string)
| Responds (r : Response B).
Arguments Rejects {B}.
Arguments Responds {B}.

Definition Reply (B : Type) : Type := (Z * Settled B)%type.

Inductive Request : Type :=
| RefreshRequest (refresh_token : string)            (* grant_type=refresh_token *)
| DevicePoll (device_code code_verifier : string)    (* the device-code grant *)
| DeviceCodeRequest (code_challenge : string).       (* the device-code endpoint *)

(** What the handler does to the world, oldest first. *)
Inductive Event : Type :=
| Fetch (time : Z) (request : Request)
| Sleep (time : Z) (ms : Z)
| Progress (message : string)
| ConsoleError (message : string)
| ShowInformationMessage (message : string)
| ShowErrorMessage (message : string).

(** The handler ([credentials], [secretStorage]), the API client of
    [qwen-client.ts] ([client], [apiKey]) and the world: the clock, the
    vault entry under [SECRET_STORAGE_KEY], the file at
    [CREDENTIALS_PATH], the faults of both stores, the PKCE pair the random
    source and SHA-256 will give, the answer of the device-code endpoint,
    the answers the token endpoint will give to refresh requests, and what
    happened so far. *)
Record State : Type := mkState {
  credentials : option QwenCredentials;
  secretStorage : bool;                 (* a vault was injected *)
  client : option string;               (* the key the OpenAI client was built with *)
  apiKey : option string;
  clock : Z;                            (* [Date.now()] *)
  vault : option StoredText;
  vault_error : option string;          (* every vault call rejects with this *)
  file : option StoredText;
  fs_error : option string;             (* every [fs] call fails with this code *)
  pkce : string * string;               (* the verifier and its challenge *)
  device_authorization : Z * (Exn + DeviceAuthorizationData);
  refresh_replies : list (Reply QwenTokenResponse);
  trace : list Event
}.

Definition set_credentials (c : option QwenCredentials) (s : State) : State :=
  mkState c (secretStorage s) (client s) (apiKey s) (clock s) (vault s) (vault_error s)
          (file s) (fs_error s) (pkce s) (device_authorization s) (refresh_replies s) (trace s).

Definition set_client (k a : option string) (s : State) : State :=
  mkState (credentials s) (secretStorage s) k a (clock s) (vault s) (vault_error s)
          (file s) (fs_error s) (pkce s) (device_authorization s) (refresh_replies s) (trace s).

Definition set_clock (t : Z) (s : State) : State :=
  mkState (credentials s) (secretStorage s) (client s) (apiKey s) t (vault s) (vault_error s)
          (file s) (fs_error s) (pkce s) (device_authorization s) (refresh_replies s) (trace s).

Definition set_vault (v : option StoredText) (s : State) : State :=
  mkState (credentials s) (secretStorage s) (client s) (apiKey s) (clock s) v (vault_error s)
          (file s) (fs_error s) (pkce s) (device_authorization s) (refresh_replies s) (trace s).

Definition set_file (f : option StoredText) (s : State) : State :=
  mkState (credentials s) (secretStorage s) (client s) (apiKey s) (clock s) (vault s)
          (vault_error s) f (fs_error s) (pkce s) (device_authorization s) (refresh_replies s) (trace s).

Definition set_refresh_replies (r : list (Reply QwenTokenResponse)) (s : State) : State :=
  mkState (credentials s) (secretStorage s) (client s) (apiKey s) (clock s) (vault s)
          (vault_error s) (file s) (fs_error s) (pkce s) (device_authorization s) r (trace s).

Definition add_event (e : Event) (s : State) : State :=
  mkState (credentials s) (secretStorage s) (client s) (apiKey s) (clock s) (vault s)
          (vault_error s) (file s) (fs_error s) (pkce s) (device_authorization s) (refresh_replies s)
          (trace s ++ [e]).

(** *** The monad of the handler's methods: state and exceptions *)

Inductive Outcome (A : Type) : Type :=
| Return (a : A)
| Throw (e : Exn).
Arguments Return {A}.
Arguments Throw {A}.

Definition M (A : Type) : Type := State -> Outcome A * State.

Definition ret {A} (a : A) : M A := fun s => (Return a, s).

Definition throw {A} (e : Exn) : M A := fun s => (Throw e, s).

Definition bind {A B} (m : M A) (k : A -> M B) : M B :=
  fun s =>
    match m s with
    | (Return a, s') => k a s'
    | (Throw e, s') => (Throw e, s')
    end.

(** [try { m } catch (error) { handler(error) }]. *)
Definition try_catch {A} (m : M A) (handler : Exn -> M A) : M A :=
  fun s =>
    match m s with
    | (Return a, s') => (Return a, s')
    | (Throw e, s') => handler e s'
    end.

Definition get : M State := fun s => (Return s, s).

Definition modify (f : State -> State) : M unit := fun s => (Return tt, f s).

Notation "x <- m ;; k" := (bind m (fun x => k))
  (at level 100, m at next level, right associativity).
Notation "m ;;; k" := (bind m (fun _ => k))
  (at level 100, right associativity).

Definition Date_now : M Z := s <- get ;; ret (clock s).

Definition console_error (message : string) : M unit :=
  modify (add_event (ConsoleError message)).

(** [error.code], for the test [code !== 'ENOENT']. *)
Definition is_ENOENT (e : Exn) : bool :=
  match e with
  | ErrnoException code => String.eqb code "ENOENT"
  | _ => false
  end.

(** **** The vault: [SecretStorage.store] and [SecretStorage.delete] *)

Definition secretStorage_store (value : StoredText) : M unit :=
  s <- get ;;
  match vault_error s with
  | Some message => throw (Error message)
  | None => modify (set_vault (Some value))
  end.

Definition secretStorage_delete : M unit :=
  s <- get ;;
  match vault_error s with
  | Some message => throw (Error message)
  | None => modify (set_vault None)
  end.

(** **** The file: [fs.mkdir], [fs.writeFile] and [fs.unlink] *)

Definition fs_mkdir : M unit :=
  s <- get ;;
  match fs_error s with
  | Some code => throw (ErrnoException code)
  | None => ret tt
  end.

Definition fs_writeFile (data : StoredText) : M unit :=
  s <- get ;;
  match fs_error s with
  | Some code => throw (ErrnoException code)
  | None => modify (set_file (Some data))
  end.

Definition fs_unlink : M unit :=
  s <- get ;;
  match fs_error s with
  | Some code => throw (ErrnoException code)
  | None =>
      match file s with
      | Some _ => modify (set_file None)
      | None => throw (ErrnoException "ENOENT")
      end
  end.

(** **** The network: [fetch] settles with the given reply after its
    latency *)

Definition fetch {B} (request : Request) (reply : Reply B) : M (Response B) :=
  s <- get ;;
  modify (add_event (Fetch (clock s) request)) ;;;
  modify (set_clock (clock s + reply.1)) ;;;
  match reply.2 with
  | Rejects message => throw (Error message)
  | Responds r => ret r
  end.

(** [response.json()]. *)
Definition response_json {B} (r : Response B) : M B :=
  match json r with
  | Some b => ret b
  | None => throw SyntaxError
  end.

(** *** The methods of [QwenAuthHandler] *)

(** Lines 101 to 115. *)
Definition saveCredentials (credentials : QwenCredentials) : M unit :=
  try_catch
    (s <- get ;;
     (if secretStorage s
      then secretStorage_store (JSON_stringify credentials)
      else (fs_mkdir ;;; fs_writeFile (JSON_stringify_2 credentials))) ;;;
     modify (set_credentials (Some credentials)))
    (fun error =>
       console_error "Failed to save credentials:" ;;;
       throw error).

(** Lines 133 to 172.  The answer to the refresh request is the next of
    [refresh_replies]; with none left the [fetch] rejects. *)
Definition refreshAccessToken : M unit :=
  s <- get ;;
  match credentials s with
  | None => throw (Error "Cannot refresh: no credentials stored")
  | Some current =>
      try_catch
        (let reply :=
           match refresh_replies s with
           | r :: _ => r
           | [] => (0, Rejects "fetch failed")
           end in
         modify (set_refresh_replies (tail (refresh_replies s))) ;;;
         response <- fetch (RefreshRequest (refreshToken current)) reply ;;
         if negb (ok response)
         then throw (Error ("Token refresh failed: " ++ statusText response))
         else
           data <- response_json response ;;
           now <- Date_now ;;
           let expiresAt := now + expires_in data * 1000 in
           let updated :=
             {| accessToken := access_token data;
                refreshToken :=
                  if Js.truthy_opt (refresh_token data)
                  then Js.nullish (refresh_token data) EmptyString
                  else refreshToken current;
                tokenType := Some (token_type data);
                resourceUrl := resource_url data;
                expiresAt := expiresAt |} in
           saveCredentials updated)
        (fun error =>
           console_error "Failed to refresh token:" ;;;
           throw error)
  end.

(** Lines 117 to 131. *)
Definition getValidAccessToken : M string :=
  s <- get ;;
  match credentials s with
  | None => throw (Error "No credentials found. Please authenticate first.")
  | Some c =>
      if negb (Js.truthy (accessToken c)) || (Js.length (Js.trim (accessToken c)) =? 0)
      then throw (Error "Access token is empty. Please authenticate again.")
      else
        now <- Date_now ;;
        (if expiresAt c - now <? TOKEN_REFRESH_BUFFER
         then refreshAccessToken
         else ret tt) ;;;
        s' <- get ;;
        match credentials s' with
        | Some c' => ret (accessToken c')
        | None => throw TypeError
        end
  end.

(** Lines 181 to 194. *)
Definition clearCredentials : M unit :=
  try_catch
    (s <- get ;;
     (if secretStorage s then secretStorage_delete else fs_unlink) ;;;
     modify (set_credentials None))
    (fun error =>
       if negb (is_ENOENT error)
       then console_error "Failed to clear credentials:"
       else ret tt).

(** Lines 196 to 202. *)
Definition isAuthenticated (s : State) : bool :=
  match credentials s with
  | Some c => Js.length (Js.trim (accessToken c)) >? 0
  | None => false
  end.

(** *** The device flow *)

(** A [CancellationToken], by the time at which cancellation is
    requested, if ever. *)
Record CancellationToken : Type := { requestedAt : option Z }.

(** [cancellationToken?.isCancellationRequested] at time [now]. *)
Definition isCancellationRequested (token : option CancellationToken) (now : Z) : bool :=
  match token with
  | Some {| requestedAt := Some t |} => t <=? now
  | _ => false
  end.

(** When a wait of [ms] begun at [now] ends: at the timeout, or as soon as
    the listener on [onCancellationRequested] fires (at once when the
    cancellation was requested before the wait began). *)
Definition wake_time (token : option CancellationToken) (now ms : Z) : Z :=
  match token with
  | Some {| requestedAt := Some t |} => if t <? now + ms then Z.max now t else now + ms
  | _ => now + ms
  end.

(** Lines 371 to 385. *)
Definition sleep (ms : Z) (cancellationToken : option CancellationToken) : M unit :=
  if ms <=? 0 then ret tt
  else
    s <- get ;;
    modify (add_event (Sleep (clock s) ms)) ;;;
    modify (set_clock (wake_time cancellationToken (clock s) ms)).

Definition pending_body (slowDown : bool) : PollBody :=
  {| body_status := Some "pending"; body_slowDown := slowDown; body_error := None;
     body_error_description := None; body_token := None |}.

(** Lines 309 to 347. *)
Definition pollDeviceToken (deviceCode codeVerifier : string) (reply : Reply PollBody)
    : M PollBody :=
  response <- fetch (DevicePoll deviceCode codeVerifier) reply ;;
  if negb (ok response) then
    match json response with
    | None =>
        throw (Error ("Device token poll failed: " ++ Js.toString (status response) ++ " "
                      ++ statusText response ++ ". " ++ text response))
    | Some errorData =>
        if (status response =? 400) &&
           match body_error errorData with
           | Some e => String.eqb e "authorization_pending"
           | None => false
           end
        then ret (pending_body false)
        else if (status response =? 429) &&
                match body_error errorData with
                | Some e => String.eqb e "slow_down"
                | None => false
                end
        then ret (pending_body true)
        else ret errorData
    end
  else response_json response.

(** Line 248: [Math.min(Math.floor(pollIntervalMs * 1.5), 10000)].  On the
    integers of the loop the product by 1.5 is exact in floating point, and
    its floor is the integer quotient of three times the interval by 2. *)
Definition slowed (pollIntervalMs : Z) : Z := Z.min (3 * pollIntervalMs / 2) 10000.

(** The message of line 257. *)
Definition device_login_failed (error : string) (description : option string) : string :=
  "Device login failed: " ++ error ++
  (if Js.truthy_opt description
   then " - " ++ Js.nullish description EmptyString
   else EmptyString).

(** Lines 240 to 276: the [while] loop and the [throw] after it.  [polls]
    are the answers of the token endpoint to the polls to come; with none
    left the [fetch] rejects. *)
Fixpoint poll_loop (deviceCode codeVerifier : string)
    (cancellationToken : option CancellationToken)
    (pollStart timeoutMs pollIntervalMs : Z) (polls : list (Reply PollBody))
    : M QwenCredentials :=
  now <- Date_now ;;
  if now - pollStart <? timeoutMs then
    if isCancellationRequested cancellationToken now
    then throw (Error "Authentication cancelled.")
    else
      match polls with
      | [] =>
          _ <- pollDeviceToken deviceCode codeVerifier (0, Rejects "fetch failed") ;;
          throw (Error "fetch failed")
      | reply :: rest =>
          tokenResponse <- pollDeviceToken deviceCode codeVerifier reply ;;
          if isDeviceTokenPending tokenResponse then
            let pollIntervalMs :=
              if body_slowDown tokenResponse then slowed pollIntervalMs else pollIntervalMs in
            modify (add_event (Progress "Waiting for authorization...")) ;;;
            sleep pollIntervalMs cancellationToken ;;;
            poll_loop deviceCode codeVerifier cancellationToken pollStart timeoutMs
                      pollIntervalMs rest
          else if isDeviceTokenError tokenResponse then
            throw (Error (device_login_failed
                            (Js.nullish (body_error tokenResponse) EmptyString)
                            (body_error_description tokenResponse)))
          else
            match body_token tokenResponse with
            | None => throw (Error "Device login failed: invalid response.")
            | Some token =>
                now' <- Date_now ;;
                ret {| accessToken := access_token token;
                       refreshToken := Js.nullish (refresh_token token) EmptyString;
                       tokenType := Some (token_type token);
                       resourceUrl := resource_url token;
                       expiresAt := now' + expires_in token * 1000 |}
            end
      end
  else throw (Error "Authentication timed out. Please try again.").

(** Lines 349 to 363: the verifier comes from [crypto.randomBytes], the
    challenge is its SHA-256 digest; both are data of the world. *)
Definition generatePkcePair : M (string * string) :=
  s <- get ;; ret (pkce s).

(** Lines 279 to 307, by their outcome: what the device-code endpoint
    answers is a datum of the world. *)
Definition requestDeviceAuthorization (codeChallenge : string) : M DeviceAuthorizationData :=
  s <- get ;;
  modify (add_event (Fetch (clock s) (DeviceCodeRequest codeChallenge))) ;;;
  modify (set_clock (clock s + (device_authorization s).1)) ;;;
  match (device_authorization s).2 with
  | inl e => throw e
  | inr data => ret data
  end.

(** Lines 217 to 277.  The [onAuthUri] callback, which is not awaited,
    is left out; [onProgress] is the [Progress] event. *)
Definition startDeviceFlow (cancellationToken : option CancellationToken)
    (polls : list (Reply PollBody)) : M QwenCredentials :=
  pair <- generatePkcePair ;;
  let codeVerifier := pair.1 in
  let codeChallenge := pair.2 in
  deviceAuth <- requestDeviceAuthorization codeChallenge ;;
  pollStart <- Date_now ;;
  let pollIntervalMs := 2000 in
  let timeoutMs := device_expires_in deviceAuth * 1000 in
  poll_loop (device_code deviceAuth) codeVerifier cancellationToken pollStart timeoutMs
            pollIntervalMs polls.

(** *** The logout command of the extension entry point *)

(** [qwenClient.reset()], lines 167 to 170 of [qwen-client.ts]. *)
Definition reset : M unit := modify (set_client None None).

(** [commandLogout]. *)
Definition commandLogout : M unit :=
  try_catch
    (clearCredentials ;;;
     reset ;;;
     modify (add_event (ShowInformationMessage "Logged out from Qwen.")))
    (fun error =>
       let message :=
         match error with
         | Error message => message
         | SyntaxError => "SyntaxError"
         | TypeError => "TypeError"
         | ErrnoException code => code
         end in
       modify (add_event (ShowErrorMessage ("Logout error: " ++ message)))).

(** *** Vocabulary of the properties *)

(** The waits and the requests recorded in a trace. *)
Definition sleeps (events : list Event) : list Z :=
  omap (fun e => match e with Sleep _ ms => Some ms | _ => None end) events.

Definition fetches (events : list Event) : list (Z * Request) :=
  omap (fun e => match e with Fetch t r => Some (t, r) | _ => None end) events.

(** The answers of the token endpoint that the poller tells apart: HTTP
    400 with [authorization_pending], HTTP 429 with [slow_down], and HTTP
    200 with a token. *)
Definition oauth_error (code : Z) (error : string) : Response PollBody :=
  {| ok := false; status := code; statusText := "error"; text := error;
     json := Some {| body_status := None; body_slowDown := false; body_error := Some error;
                     body_error_description := None; body_token := None |} |}.

Definition authorization_pending (latency : Z) : Reply PollBody :=
  (latency, Responds (oauth_error 400 "authorization_pending")).

Definition slow_down (latency : Z) : Reply PollBody :=
  (latency, Responds (oauth_error 429 "slow_down")).

Definition token_granted (latency : Z) (token : QwenTokenResponse) : Reply PollBody :=
  (latency,
   Responds {| ok := true; status := 200; statusText := "OK"; text := "token";
               json := Some {| body_status := None; body_slowDown := false;
                               body_error := None; body_error_description := None;
                               body_token := Some token |} |}).

(** A pending answer, by its latency and whether it asks to slow down. *)
Definition throttled (signal : Z * bool) : Reply PollBody :=
  if signal.2 then slow_down signal.1 else authorization_pending signal.1.

(** The specification's backoff: from the current interval, a slow-down
    signal gives the floor of 1.5 times the interval, capped at 10000, and
    a plain pending answer leaves it as it is; the list of the waits that
    follow a run of signals. *)
Fixpoint intervals (current : Z) (signals : list bool) : list Z :=
  match signals with
  | [] => []
  | slow :: rest =>
      let next := if slow then Z.min (current * 15 / 10) 10000 else current in
      next :: intervals next rest
  end.

Definition never_cancelled (token : option CancellationToken) : Prop :=
  forall now, isCancellationRequested token now = false.

Definition total (durations : list Z) : Z := fold_right Z.add 0 durations.

Definition total_latency (signals : list (Z * bool)) : Z := total (map fst signals).

(** The credential a successful refresh builds from the stored credential
    [current] and the token response [data] received at time [now]. *)
Definition refreshed (current : QwenCredentials) (data : QwenTokenResponse) (now : Z)
    : QwenCredentials :=
  {| accessToken := access_token data;
     refreshToken :=
       match refresh_token data with
       | Some (String c rest) => String c rest
       | _ => refreshToken current
       end;
     tokenType := Some (token_type data);
     resourceUrl := resource_url data;
     expiresAt := now + expires_in data * 1000 |}.

(** What the store in use holds for a credential. *)
Definition persisted (s : State) (c : QwenCredentials) : Prop :=
  if secretStorage s
  then vault s = Some (JSON_stringify c)
  else file s = Some (JSON_stringify_2 c).

(** The store in use accepts a write. *)
Definition store_healthy (s : State) : Prop :=
  if secretStorage s then vault_error s = None else fs_error s = None.

(** *** States of the examples *)

Definition credential (token : string) (expires : Z) : QwenCredentials :=
  {| accessToken := token; refreshToken := "r0"; expiresAt := expires;
     resourceUrl := None; tokenType := Some "Bearer" |}.

Definition token_response (token : string) (refresh : option string) : QwenTokenResponse :=
  {| access_token := token; refresh_token := refresh; expires_in := 3600;
     token_type := "Bearer"; resource_url := None |}.

Definition device (expires : Z) : DeviceAuthorizationData :=
  {| device_code := "dc"; user_code := "uc"; verification_uri := "u";
     verification_uri_complete := "uc"; device_expires_in := expires |}.

(** A handler at time 1000000 with the given credential, vault setting,
    stored texts, refresh answers and device-flow window (in seconds). *)
Definition state_with (c : option QwenCredentials) (with_vault : bool)
    (in_vault in_file : option StoredText)
    (answers : list (Reply QwenTokenResponse)) (window : Z) : State :=
  {| credentials := c; secretStorage := with_vault; client := None; apiKey := None;
     clock := 1000000; vault := in_vault; vault_error := None;
     file := in_file; fs_error := None;
     pkce := ("verifier", "challenge");
     device_authorization := (0, inr (device window));
     refresh_replies := answers; trace := [] |}.

Definition token_answer (latency : Z) (data : QwenTokenResponse) : Reply QwenTokenResponse :=
  (latency,
   Responds {| ok := true; status := 200; statusText := "OK"; text := "token";
               json := Some data |}).

(** The stored token expires exactly 30000 ms from now, and 29999 ms. *)
Definition boundary_state : State :=
  state_with (Some (credential "tok" 1030000)) true None None
             [token_answer 5 (token_response "new" None)] 600.

Definition stale_state : State :=
  state_with (Some (credential "tok" 1029999)) true None None
             [token_answer 5 (token_response "new" None)] 600.

(** A signed-in handler with a vault, whose credential is in the vault
    and, from an earlier session without one, in the file as well. *)
Definition mirrored_state : State :=
  state_with (Some (credential "tok" 2000000)) true
             (Some (JSON_stringify (credential "tok" 2000000)))
             (Some (JSON_stringify_2 (credential "tok" 2000000))) [] 600.

(** A signed-in handler without a vault whose file is present. *)
Definition file_state : State :=
  state_with (Some (credential "tok" 2000000)) false None
             (Some (JSON_stringify_2 (credential "tok" 2000000))) [] 600.

(** The device-flow runs of the examples: no credential yet, a vault, and
    a device authorization that is valid for [window] seconds. *)
Definition signed_out (window : Z) : State := state_with None true None None [] window.

(** A user who cancels 3500 ms after the polling began. *)
Definition cancel_at_3500 : option CancellationToken :=
  Some {| requestedAt := Some 1003500 |}.

Definition within_bounds (ms : Z) : Prop := 2000 <= ms <= 10000.

(** *** More of the handler *)

(** Lines 204 to 215. *)
Definition getBaseUrl (s : State) : string :=
  let resourceUrl :=
    match credentials s with
    | Some c => resourceUrl c
    | None => None
    end in
  match resourceUrl with
  | None => "https://dashscope.aliyuncs.com/compatible-mode/v1"
  | Some url =>
      if negb (Js.truthy url) || (Js.length (Js.trim url) =? 0)
      then "https://dashscope.aliyuncs.com/compatible-mode/v1"
      else
        let normalized :=
          if Js.startsWith url "http://" || Js.startsWith url "https://"
          then url
          else "https://" ++ url in
        if Js.endsWith normalized "/v1" then normalized else normalized ++ "/v1"
  end.

(** [SecretStorage.get] and [fs.readFile]. *)
Definition secretStorage_get : M (option StoredText) :=
  s <- get ;;
  match vault_error s with
  | Some message => throw (Error message)
  | None => ret (vault s)
  end.

Definition fs_readFile : M StoredText :=
  s <- get ;;
  match fs_error s with
  | Some code => throw (ErrnoException code)
  | None =>
      match file s with
      | Some data => ret data
      | None => throw (ErrnoException "ENOENT")
      end
  end.

(** What [JSON.parse(text) as QwenCredentials] gives: a thrown
    [SyntaxError], a falsy value such as [null], or a credential. *)
Inductive Parsed : Type :=
| ParseThrows
| ParsedFalsy
| ParsedCredentials (c : QwenCredentials).

(** Truthiness of a stored text, for [if (stored)]: a serialised
    credential is never the empty text. *)
Definition stored_truthy (t : StoredText) : bool :=
  match t with
  | OtherText s => Js.truthy s
  | _ => true
  end.

Section WithStoredParser.

(** [JSON.parse] on a text that the handler did not write itself. *)
Variable JSON_parse_text : string -> Parsed.

(** [JSON.parse] gives back the value [JSON.stringify] was given. *)
Definition JSON_parse_stored (t : StoredText) : Parsed :=
  match t with
  | JSON_stringify c => ParsedCredentials c
  | JSON_stringify_2 c => ParsedCredentials c
  | OtherText s => JSON_parse_text s
  end.

(** [this.credentials = JSON.parse(t) as QwenCredentials]. *)
Definition assign_parsed (t : StoredText) : M (option QwenCredentials) :=
  match JSON_parse_stored t with
  | ParseThrows => throw SyntaxError
  | ParsedFalsy => modify (set_credentials None) ;;; ret None
  | ParsedCredentials c => modify (set_credentials (Some c)) ;;; ret (Some c)
  end.

(** Lines 77 to 99.  The inner result is [Some] for the early [return] of
    line 83. *)
Definition loadCredentials : M (option QwenCredentials) :=
  try_catch
    (s <- get ;;
     early <-
       (if secretStorage s
        then
          stored <- secretStorage_get ;;
          match stored with
          | Some t =>
              if stored_truthy t
              then (c <- assign_parsed t ;; ret (Some c))
              else ret None
          | None => ret None
          end
        else ret None) ;;
     match early with
     | Some c => ret c
     | None =>
         data <- fs_readFile ;;
         c <- assign_parsed data ;;
         match c with
         | Some loaded =>
             if secretStorage s
             then secretStorage_store (JSON_stringify loaded)
             else ret tt
         | None => ret tt
         end ;;;
         ret c
     end)
    (fun error =>
       (if negb (is_ENOENT error)
        then console_error "Failed to load credentials:"
        else ret tt) ;;;
       ret None).

End WithStoredParser.

(** A resource URL as the token endpoint gives it, without scheme. *)
Definition portal_credential : QwenCredentials :=
  {| accessToken := "tok"; refreshToken := "r0"; expiresAt := 2000000;
     resourceUrl := Some "portal.qwen.ai"; tokenType := Some "Bearer" |}.

(** A vault whose entry was cut short, beside an intact file. *)
Definition corrupt_vault_state : State :=
  state_with None true (Some (OtherText "{truncated"))
             (Some (JSON_stringify_2 portal_credential)) [] 600.

(** Everything of [s'] but the clock and the trace is as in [s]. *)
Definition only_time_passed (s s' : State) : Prop :=
  credentials s' = credentials s /\ secretStorage s' = secretStorage s /\
  client s' = client s /\ apiKey s' = apiKey s /\
  vault s' = vault s /\ vault_error s' = vault_error s /\
  file s' = file s /\ fs_error s' = fs_error s /\
  pkce s' = pkce s /\ device_authorization s' = device_authorization s /\
  refresh_replies s' = refresh_replies s.

(** An HTTP error answer of the token endpoint with an OAuth error body. *)
Definition oauth_failure (code : Z) (error : string) (description : option string)
    : Response PollBody :=
  {| ok := false; status := code; statusText := "error"; text := error;
     json := Some {| body_status := None; body_slowDown := false; body_error := Some error;
                     body_error_description := description; body_token := None |} |}.

(** The credential the device flow builds from the token response [t]
    received at time [now]. *)
Definition granted_credential (t : QwenTokenResponse) (now : Z) : QwenCredentials :=
  {| accessToken := access_token t;
     refreshToken := match refresh_token t with Some r => r | None => EmptyString end;
     tokenType := Some (token_type t);
     resourceUrl := resource_url t;
     expiresAt := now + expires_in t * 1000 |}.

(** A stale token and a token endpoint that answers 401. *)
Definition unauthorized_state : State :=
  state_with (Some (credential "tok" 1029999)) true None None
             [(5, Responds {| ok := false; status := 401; statusText := "Unauthorized";
                              text := "denied"; json := None |})] 600.

End Auth.

(** ** [src/qwen-client.ts]: the API client around the aggregator *)

Module Client.
Import Auth.

Definition QWEN_API_BASE : string := "https://dashscope.aliyuncs.com/compatible-mode/v1".

(** Line 178: [authHandler.getBaseUrl() || QWEN_API_BASE]. *)
Definition client_baseURL (s : State) : string :=
  if Js.truthy (getBaseUrl s) then getBaseUrl s else QWEN_API_BASE.

(** [this.client !== null], lines 160 to 162. *)
Definition isReady (s : State) : bool :=
  match client s with
  | Some _ => true
  | None => false
  end.

(** Lines 172 to 187.  Of the OpenAI client the state keeps the key it was
    built with; its base URL is [client_baseURL] at that moment. *)
Definition ensureClient : M unit :=
  key <- getValidAccessToken ;;
  s <- get ;;
  if isReady s &&
     match apiKey s with
     | Some k => String.eqb k key
     | None => false
     end
  then ret tt
  else modify (set_client (Some key) (Some key)).

(** Lines 16 to 18. *)
Definition initialize : M unit := ensureClient.

(** Lines 39 to 42: the guard at the head of [streamChatCompletion]. *)
Definition open_client : M unit :=
  ensureClient ;;;
  s <- get ;;
  if negb (isReady s) then throw (Error "Client not initialized") else ret tt.

(** [QwenToolChoice]: the strings none, auto and required, or a named
    function. *)
Inductive QwenToolChoice : Type :=
| choice_none
| choice_auto
| choice_required
| choice_function (name : string).

Section Request.

(** JavaScript numbers that are passed through and never computed with
    (the temperature), and what the request carries along untouched. *)
Variables (number Message Tool : Type).
Variable default_temperature : number.       (* 0.3 *)

(** The parameter of [streamChatCompletion]. *)
Record StreamParams : Type := {
  model : string;
  messages : list Message;
  tools : option (list Tool);
  toolChoice : option QwenToolChoice;
  maxTokens : option Z;
  temperature : option number
}.

(** [ChatCompletionCreateParamsStreaming], by the keys the code sets. *)
Record ChatRequest : Type := {
  request_model : string;
  request_messages : list Message;
  max_tokens : Z;
  request_temperature : number;
  stream : bool;
  request_tools : option (list Tool);
  tool_choice : option QwenToolChoice
}.

(** Lines 44 to 57. *)
Definition build_request (params : StreamParams) : ChatRequest :=
  let with_tools :=
    match tools params with
    | Some (t :: ts) => true
    | _ => false
    end in
  {| request_model := model params;
     request_messages := messages params;
     max_tokens :=
       match maxTokens params with
       | Some n => if n =? 0 then 4096 else n
       | None => 4096
       end;
     request_temperature := Js.nullish (temperature params) default_temperature;
     stream := true;
     request_tools := if with_tools then tools params else None;
     tool_choice := if with_tools then toolChoice params else None |}.

End Request.

Arguments request_model {number Message Tool}.
Arguments request_messages {number Message Tool}.
Arguments max_tokens {number Message Tool}.
Arguments request_temperature {number Message Tool}.
Arguments stream {number Message Tool}.
Arguments request_tools {number Message Tool}.
Arguments tool_choice {number Message Tool}.

End Client.

(** ** [src/extension.ts]: the sign-in command *)

Module Extension.
Import Auth Client.

(** [error instanceof Error ? error.message : String(error)].  The message
    of an error that the engine or the file system raised is the engine's
    own text; the name of the error, or its code, stands for it. *)
Definition error_message (error : Exn) : string :=
  match error with
  | Error message => message
  | SyntaxError => "SyntaxError"
  | TypeError => "TypeError"
  | ErrnoException code => code
  end.

(** [runDeviceFlowLogin]: the body of the progress notification.  The
    [onAuthUri] callback (it opens the browser and shows the user code) is
    not awaited by [startDeviceFlow] and runs beside the flow; what it does
    is not part of the trace. *)
Definition runDeviceFlowLogin (cancellationToken : CancellationToken)
    (polls : list (Reply PollBody)) : M unit :=
  modify (add_event (Progress "Requesting device authorization...")) ;;;
  credentials <- startDeviceFlow (Some cancellationToken) polls ;;
  saveCredentials credentials ;;;
  reset ;;;
  initialize ;;;
  modify (add_event (ShowInformationMessage "Successfully authenticated with Qwen!")).

(** [commandAuthenticate]. *)
Definition commandAuthenticate (cancellationToken : CancellationToken)
    (polls : list (Reply PollBody)) : M unit :=
  try_catch
    (s <- get ;;
     if isAuthenticated s
     then modify (add_event (ShowInformationMessage "Already authenticated with Qwen."))
     else runDeviceFlowLogin cancellationToken polls)
    (fun error =>
       modify (add_event (ShowErrorMessage ("Authentication error: " ++ error_message error)))).

(** A cancellation token that is never cancelled. *)
Definition patient : CancellationToken := {| requestedAt := None |}.

End Extension.

(** ** The chat provider ([src/provider.ts]) and the token estimate of the
    client ([countTokens], [src/qwen-client.ts] lines 125 to 155) *)

Module Provider.
Import Client.

(** [Math.ceil(n / d)] for integers [n] and [d > 0]. *)
Definition Math_ceil_div (n d : Z) : Z := - ((- n) / d).

(** [vscode.LanguageModelChatMessageRole]. *)
Inductive ChatRole : Type :=
| User
| Assistant
| OtherRole.

(** The roles of the messages sent to the API. *)
Inductive QwenRole : Type :=
| role_user
| role_assistant
| role_tool.

(** [vscode.LanguageModelChatToolMode]. *)
Inductive ToolMode : Type :=
| Auto
| Required.

(** A part of a message's [content]: a string, an array of parts (of which
    [countTokens] reads the key [text]), or none. *)
Inductive ContentPart : Type :=
| part_with_text (text : option string)
| part_without_text.

Inductive Content : Type :=
| content_string (s : string)
| content_parts (parts : list ContentPart)
| content_none.

(** [{ name?, arguments? }] and the entries of [tool_calls]. *)
Record FunctionCall : Type := {
  function_name : option string;
  function_arguments : option string
}.

Record ToolCallPayload : Type := {
  payload_id : string;
  payload_function : option FunctionCall
}.

(** [QwenMessage], by the keys the code reads and writes. *)
Record QwenMessage : Type := {
  role : QwenRole;
  content : Content;
  name : option string;
  tool_call_id : option string;
  tool_calls : option (list ToolCallPayload)
}.

(** *** [countTokens] *)

(** Lines 133 to 137. *)
Definition count_part (totalChars : Z) (part : ContentPart) : Z :=
  match part with
  | part_with_text text => totalChars + Js.length (Js.nullish text EmptyString)
  | part_without_text => totalChars
  end.

(** Lines 143 to 150. *)
Definition count_call (totalChars : Z) (call : ToolCallPayload) : Z :=
  let totalChars :=
    match payload_function call with
    | Some f =>
        if Js.truthy_opt (function_name f)
        then totalChars + Js.length (Js.nullish (function_name f) EmptyString)
        else totalChars
    | None => totalChars
    end in
  match payload_function call with
  | Some f =>
      if Js.truthy_opt (function_arguments f)
      then totalChars + Js.length (Js.nullish (function_arguments f) EmptyString)
      else totalChars
  | None => totalChars
  end.

(** The body of the loop of lines 128 to 152. *)
Definition count_message (totalChars : Z) (msg : QwenMessage) : Z :=
  let totalChars :=
    match content msg with
    | content_string s => totalChars + Js.length s
    | content_parts parts => fold_left count_part parts totalChars
    | content_none => totalChars
    end in
  match tool_calls msg with
  | Some calls => fold_left count_call calls totalChars
  | None => totalChars
  end.

Definition totalChars (messages : list QwenMessage) : Z :=
  fold_left count_message messages 0.

Definition countTokens (messages : list QwenMessage) : Z :=
  Math_ceil_div (totalChars messages) 4 + Z.of_nat (List.length messages) * 3.

(** *** Vocabulary of the properties *)

(** A string content that is not empty. *)
Definition nonempty_text (c : Content) : bool :=
  match c with
  | content_string s => Js.truthy s
  | _ => false
  end.

Definition is_string (c : Content) : bool :=
  match c with
  | content_string _ => true
  | _ => false
  end.

Definition absent {A} (o : option A) : bool :=
  match o with
  | Some _ => false
  | None => true
  end.

(** A message the chat API accepts by its shape: a name, when there is
    one, is not empty; a tool message answers a call and carries a string;
    a user message carries a text that is not empty; an assistant message
    carries such a text, or at least one tool call with such a text or no
    content at all; only assistant messages carry tool calls. *)
Definition well_formed (m : QwenMessage) : bool :=
  match name m with
  | Some n => Js.truthy n
  | None => true
  end &&
  match role m with
  | role_tool => negb (absent (tool_call_id m)) && absent (tool_calls m) && is_string (content m)
  | role_user => absent (tool_call_id m) && absent (tool_calls m) && nonempty_text (content m)
  | role_assistant =>
      absent (tool_call_id m) &&
      match tool_calls m with
      | None => nonempty_text (content m)
      | Some calls =>
          (0 <? Z.of_nat (List.length calls)) &&
          (nonempty_text (content m) || negb (is_string (content m)))
      end
  end.

(** The tool results among the messages sent: the call they answer and
    their text. *)
Definition tool_result_sent (m : QwenMessage) : option (string * string) :=
  match role m, tool_call_id m, content m with
  | role_tool, Some id, content_string s => Some (id, s)
  | _, _, _ => None
  end.

Definition tool_results_sent (ms : list QwenMessage) : list (string * string) :=
  omap tool_result_sent ms.

(** The tool calls among the messages sent. *)
Definition tool_calls_sent (ms : list QwenMessage) : list ToolCallPayload :=
  flat_map (fun m => Js.nullish (tool_calls m) []) ms.

(** *** The conversion of messages *)

Section Conversion.

(** What a part carries as [unknown] and as bytes; [safeJson] of a value
    ([JSON.stringify], or [String] when it throws), where [None] is the
    [undefined] that [JSON.stringify] gives for a value without a JSON
    text; the two decodings of [Buffer.toString]. *)
Variables (Value Data : Type).
Variable safeJson : Value -> option string.
Variable empty_object : Value.                      (* {} *)
Variables utf8 base64 : Data -> string.

Inductive ResultEntry : Type :=
| EntryText (value : string)
| EntryTsx (value : Value)
| EntryData (mimeType : string) (data : Data)
| EntryOther (entry : Value).

Record ToolCall : Type := {
  callId : string;
  call_name : string;
  input : option Value
}.

(** The parts of a chat message; [OtherPart] carries [String(part)]. *)
Inductive Part : Type :=
| TextPart (value : string)
| ToolCallPart (call : ToolCall)
| ToolResultPart (resultId : string) (entries : list ResultEntry)
| PromptTsxPart (value : Value)
| DataPart (mimeType : string) (data : Data)
| OtherPart (toString : string).

Record ChatMessage : Type := {
  chat_role : ChatRole;
  chat_content : option (list Part);
  chat_name : option string
}.

(** [buffer += x], where [x] may be [undefined]. *)
Definition append_text (buffer : string) (x : option string) : string :=
  buffer ++ Js.nullish x "undefined".

(** [chunks.join('')]: an [undefined] element is joined as the empty
    string. *)
Definition join (chunks : list (option string)) : string :=
  fold_right (fun chunk joined => Js.nullish chunk EmptyString ++ joined) EmptyString chunks.

(** Lines 226 to 239. *)
Definition renderDataPart (mimeType : string) (data : Data) : string :=
  let mime := if Js.truthy mimeType then mimeType else "application/octet-stream" in
  if Js.startsWith mime "text/" then utf8 data
  else if String.eqb mime "application/json" then utf8 data
  else "[" ++ mime ++ " base64:" ++ base64 data ++ "]".

(** Lines 209 to 224. *)
Definition serializeToolResult (entries : list ResultEntry) : string :=
  join (map (fun entry =>
               match entry with
               | EntryText value => Some value
               | EntryTsx value => safeJson value
               | EntryData mimeType data => Some (renderDataPart mimeType data)
               | EntryOther entry => safeJson entry
               end) entries).

(** Lines 177 to 183. *)
Definition buildTextMessage (role : QwenRole) (text : string) (name : option string)
    : QwenMessage :=
  if Js.truthy_opt name
  then {| role := role; content := content_string text; name := name;
          tool_call_id := None; tool_calls := None |}
  else {| role := role; content := content_string text; name := None;
          tool_call_id := None; tool_calls := None |}.

(** Lines 190 to 197. *)
Definition callPayload (call : ToolCall) : ToolCallPayload :=
  {| payload_id := callId call;
     payload_function :=
       Some {| function_name := Some (call_name call);
               function_arguments := safeJson (Js.nullish (input call) empty_object) |} |}.

(** Lines 185 to 207. *)
Definition buildAssistantToolCallMessage (toolCalls : list ToolCall) (text : string)
    (name : option string) : QwenMessage :=
  {| role := role_assistant;
     content := if Js.length text >? 0 then content_string text else content_none;
     name := if Js.truthy_opt name then name else None;
     tool_call_id := None;
     tool_calls := Some (map callPayload toolCalls) |}.

(** Lines 146 to 150. *)
Definition toolMessage (resultId : string) (entries : list ResultEntry) : QwenMessage :=
  {| role := role_tool; content := content_string (serializeToolResult entries);
     name := None; tool_call_id := Some resultId; tool_calls := None |}.

(** The variables of the loops of [convertMessages]. *)
Record Conversion : Type := {
  converted : list QwenMessage;
  textBuffer : string;
  toolCalls : list ToolCall
}.

(** The body of the inner loop, lines 129 to 165. *)
Definition convert_part (role : QwenRole) (name : option string) (st : Conversion)
    (part : Part) : Conversion :=
  match part with
  | TextPart value =>
      {| converted := converted st; textBuffer := textBuffer st ++ value;
         toolCalls := toolCalls st |}
  | ToolCallPart call =>
      {| converted := converted st; textBuffer := textBuffer st;
         toolCalls := toolCalls st ++ [call] |}
  | ToolResultPart resultId entries =>
      let flushed :=
        if Js.length (textBuffer st) >? 0
        then {| converted := converted st ++ [buildTextMessage role (textBuffer st) name];
                textBuffer := EmptyString; toolCalls := toolCalls st |}
        else st in
      {| converted := converted flushed ++ [toolMessage resultId entries];
         textBuffer := textBuffer flushed; toolCalls := toolCalls flushed |}
  | PromptTsxPart value =>
      {| converted := converted st; textBuffer := append_text (textBuffer st) (safeJson value);
         toolCalls := toolCalls st |}
  | DataPart mimeType data =>
      {| converted := converted st;
         textBuffer := textBuffer st ++ renderDataPart mimeType data;
         toolCalls := toolCalls st |}
  | OtherPart toString =>
      {| converted := converted st; textBuffer := textBuffer st ++ toString;
         toolCalls := toolCalls st |}
  end.

Definition qwen_role (msg : ChatMessage) : QwenRole :=
  match chat_role msg with
  | Assistant => role_assistant
  | _ => role_user
  end.

Definition is_assistant (role : QwenRole) : bool :=
  match role with
  | role_assistant => true
  | _ => false
  end.

(** The body of the outer loop, lines 123 to 172. *)
Definition convert_message (so_far : list QwenMessage) (msg : ChatMessage)
    : list QwenMessage :=
  let role := qwen_role msg in
  let st :=
    fold_left (convert_part role (chat_name msg)) (Js.nullish (chat_content msg) [])
      {| converted := so_far; textBuffer := EmptyString; toolCalls := [] |} in
  if is_assistant role && (0 <? Z.of_nat (List.length (toolCalls st)))
  then converted st ++
       [buildAssistantToolCallMessage (toolCalls st) (textBuffer st) (chat_name msg)]
  else if Js.length (textBuffer st) >? 0
  then converted st ++ [buildTextMessage role (textBuffer st) (chat_name msg)]
  else converted st.

(** Lines 120 to 175. *)
Definition convertMessages (messages : list ChatMessage) : list QwenMessage :=
  fold_left convert_message messages [].

(** Lines 98 to 115.  Neither [convertMessages] nor [countTokens] throws,
    so the [catch] is not entered. *)
Definition provideTokenCount (text : string + ChatMessage) : Z :=
  match text with
  | inl text => Math_ceil_div (Js.length text) 4
  | inr message => countTokens (convertMessages [message])
  end.

(** *** Vocabulary of the properties, on chat messages *)

Definition tool_result_given (part : Part) : option (string * string) :=
  match part with
  | ToolResultPart resultId entries => Some (resultId, serializeToolResult entries)
  | _ => None
  end.

(** The tool results of the chat messages, in order. *)
Definition tool_results_given (messages : list ChatMessage) : list (string * string) :=
  flat_map (fun msg => omap tool_result_given (Js.nullish (chat_content msg) [])) messages.

Definition tool_call_given (part : Part) : option ToolCall :=
  match part with
  | ToolCallPart call => Some call
  | _ => None
  end.

(** The tool calls of the assistant's chat messages, in order. *)
Definition assistant_calls_given (messages : list ChatMessage) : list ToolCall :=
  flat_map (fun msg =>
              match chat_role msg with
              | Assistant => omap tool_call_given (Js.nullish (chat_content msg) [])
              | _ => []
              end) messages.

(** *** The request options *)

Variables (Schema number : Type).
Variable default_schema : Schema.             (* { type: 'object', properties: {} } *)
Variable default_temperature : number.        (* 0.3 *)

Record ChatTool : Type := {
  tool_name : string;
  description : string;
  inputSchema : option Schema
}.

(** [{ type: 'function', function: { name, description, parameters } }]. *)
Record QwenTool : Type := {
  qwen_tool_name : string;
  qwen_tool_description : string;
  parameters : Schema
}.

(** Lines 249 to 267. *)
Definition convertTools (tools : option (list ChatTool)) : option (list QwenTool) :=
  match tools with
  | None => None
  | Some [] => None
  | Some tools =>
      Some (map (fun tool =>
                   {| qwen_tool_name := tool_name tool;
                      qwen_tool_description := description tool;
                      parameters := Js.nullish (inputSchema tool) default_schema |}) tools)
  end.

(** Lines 269 to 278. *)
Definition resolveToolChoice (toolMode : ToolMode) (tools : option (list QwenTool))
    : option QwenToolChoice :=
  match tools with
  | None => None
  | Some [] => None
  | Some _ =>
      Some match toolMode with
           | Required => choice_required
           | Auto => choice_auto
           end
  end.

(** [modelOptions], by the keys the code reads: a key holds [Some] when
    its value is of type number. *)
Record ModelOptions : Type := {
  option_maxOutputTokens : option Z;
  option_maxTokens : option Z;
  option_max_tokens : option Z;
  option_temperature : option number
}.

(** Lines 284 to 291. *)
Definition requested (modelOptions : option ModelOptions) : option Z :=
  match modelOptions with
  | Some o =>
      match option_maxOutputTokens o with
      | Some n => Some n
      | None =>
          match option_maxTokens o with
          | Some n => Some n
          | None => option_max_tokens o
          end
      end
  | None => None
  end.

(** Lines 280 to 298. *)
Definition resolveMaxTokens (maxOutputTokens : Z) (modelOptions : option ModelOptions) : Z :=
  match requested modelOptions with
  | Some requested => Z.min requested maxOutputTokens
  | None => maxOutputTokens
  end.

(** Lines 300 to 302. *)
Definition resolveTemperature (modelOptions : option ModelOptions) : number :=
  match modelOptions with
  | Some o => Js.nullish (option_temperature o) default_temperature
  | None => default_temperature
  end.

(** [vscode.LanguageModelChatInformation] and
    [vscode.ProvideLanguageModelChatResponseOptions], by the keys read. *)
Record ModelInformation : Type := {
  model_id : string;
  maxOutputTokens : Z
}.

Record ResponseOptions : Type := {
  options_tools : option (list ChatTool);
  toolMode : ToolMode;
  modelOptions : option ModelOptions
}.

(** Lines 61 to 74: the parameter that [provideLanguageModelChatResponse]
    hands to [streamChatCompletion]. *)
Definition stream_params (model : ModelInformation) (messages : list ChatMessage)
    (options : ResponseOptions) : StreamParams number QwenMessage QwenTool :=
  let qwenMessages := convertMessages messages in
  let tools := convertTools (options_tools options) in
  let toolChoice := resolveToolChoice (toolMode options) tools in
  let maxTokens := resolveMaxTokens (maxOutputTokens model) (modelOptions options) in
  let temperature := resolveTemperature (modelOptions options) in
  {| Client.model := model_id model;
     Client.messages := qwenMessages;
     Client.tools := tools;
     Client.toolChoice := toolChoice;
     Client.maxTokens := Some maxTokens;
     Client.temperature := Some temperature |}.

(** The request that goes to the API for a chat response: lines 61 to 74
    of the provider, then lines 44 to 57 of the client. *)
Definition chat_request (model : ModelInformation) (messages : list ChatMessage)
    (options : ResponseOptions) : ChatRequest number QwenMessage QwenTool :=
  build_request number QwenMessage QwenTool default_temperature
    (stream_params model messages options).

End Conversion.

Arguments chat_role {Value Data}.
Arguments chat_content {Value Data}.
Arguments chat_name {Value Data}.
Arguments qwen_role {Value Data}.
Arguments converted {Value}.
Arguments textBuffer {Value}.
Arguments toolCalls {Value}.
Arguments callId {Value}.
Arguments call_name {Value}.
Arguments input {Value}.
Arguments TextPart {Value Data}.
Arguments ToolCallPart {Value Data}.
Arguments ToolResultPart {Value Data}.
Arguments PromptTsxPart {Value Data}.
Arguments DataPart {Value Data}.
Arguments OtherPart {Value Data}.
Arguments EntryText {Value Data}.
Arguments EntryTsx {Value Data}.
Arguments EntryData {Value Data}.
Arguments EntryOther {Value Data}.
Arguments tool_call_given {Value Data}.
Arguments assistant_calls_given {Value Data}.
Arguments tool_name {Schema}.
Arguments description {Schema}.
Arguments inputSchema {Schema}.
Arguments qwen_tool_name {Schema}.
Arguments qwen_tool_description {Schema}.
Arguments parameters {Schema}.
Arguments option_maxOutputTokens {number}.
Arguments option_maxTokens {number}.
Arguments option_max_tokens {number}.
Arguments option_temperature {number}.
Arguments requested {number}.
Arguments resolveMaxTokens {number}.
Arguments options_tools {Schema number}.
Arguments toolMode {Schema number}.
Arguments modelOptions {Schema number}.

(** *** Examples *)

(** The entry of [QWEN_MODELS] for qwen3-coder-plus. *)
Definition qwen3_coder_plus : ModelInformation :=
  {| model_id := "qwen3-coder-plus"; maxOutputTokens := 65536 |}.

(** Chat options without tools whose [maxTokens] is 0 and whose
    [max_tokens] is 100; the temperature is kept as its decimal text. *)
Definition zero_budget : ResponseOptions unit string :=
  {| options_tools := None; toolMode := Auto;
     modelOptions := Some {| option_maxOutputTokens := None; option_maxTokens := Some 0;
                             option_max_tokens := Some 100; option_temperature := None |} |}.

End Provider.

(** * Properties *)

Module AggregatorFacts.
Import Aggregator.

Lemma fold_absorb_fragments (stream : list Chunk) (m : ToolCallMap) :
  fold_left absorb_chunk stream m = fold_left absorb_call (fragments stream) m.
Proof.
  revert m. induction stream as [|chunk rest IH]; intros m; [reflexivity|].
  cbn [fold_left]. rewrite IH. unfold fragments. cbn [flat_map].
  rewrite fold_left_app. unfold absorb_chunk.
  destruct (chunk_tool_calls chunk); reflexivity.
Qed.

Lemma Map_get_set (m : ToolCallMap) (k i : Z) (v : Accumulator) :
  Map_get (Map_set m k v) i = if i =? k then Some v else Map_get m i.
Proof.
  induction m as [|[k' v'] m IH]; cbn.
  - reflexivity.
  - destruct (k =? k') eqn:Hk; cbn.
    + apply Z.eqb_eq in Hk. subst k'. destruct (i =? k); reflexivity.
    + rewrite IH. destruct (i =? k') eqn:Hi; [|reflexivity].
      apply Z.eqb_eq in Hi. subst k'.
      destruct (i =? k) eqn:Hik; [|reflexivity].
      apply Z.eqb_eq in Hik. subst k. rewrite Z.eqb_refl in Hk. discriminate.
Qed.

Lemma append_empty_r (s : string) : (s ++ EmptyString)%string = s.
Proof. induction s as [|c s IH]; cbn; [reflexivity | by rewrite IH]. Qed.

Lemma append_assoc (a b c : string) : ((a ++ b) ++ c)%string = (a ++ (b ++ c))%string.
Proof. induction a as [|x a IH]; cbn; [reflexivity | by rewrite IH]. Qed.

Lemma last_present_snoc field fs call :
  last_present field (fs ++ [call])%list =
  match present (field call) with
  | Some x => Some x
  | None => last_present field fs
  end.
Proof.
  unfold last_present. rewrite omap_app. cbn.
  destruct (present (field call)).
  - apply last_snoc.
  - by rewrite app_nil_r.
Qed.

Lemma appended_snoc fs call :
  appended (fs ++ [call])%list =
  (appended fs ++ Js.nullish (present (call_arguments call)) EmptyString)%string.
Proof.
  unfold appended. rewrite omap_app, fold_right_app.
  generalize (omap (fun c => present (call_arguments c)) fs) as pieces.
  induction pieces as [|p pieces IH]; cbn.
  - destruct (present (call_arguments call)); cbn; [apply append_empty_r | reflexivity].
  - cbn in IH. rewrite IH. symmetry. apply append_assoc.
Qed.

Lemma present_truthy (o : option string) :
  present o = if Js.truthy_opt o then Some (Js.nullish o EmptyString) else None.
Proof. unfold present. destruct o as [[|c s]|]; reflexivity. Qed.

(** The accumulator of an index after a run of fragments is the merge of
    the fragments of that index. *)
Lemma accumulate_merged (fs : list ToolCallDelta) (i : Z) :
  Map_get (fold_left absorb_call fs []) i =
  merged i (filter (fun call => call_index call = i) fs).
Proof.
  induction fs as [|call fs IH] using rev_ind; [reflexivity|].
  rewrite fold_left_app, filter_app. cbn [fold_left].
  unfold absorb_call at 1. rewrite Map_get_set.
  destruct (i =? call_index call) eqn:Hi.
  - apply Z.eqb_eq in Hi. subst i. rewrite IH.
    rewrite filter_cons_True by reflexivity. rewrite filter_nil.
    destruct (filter (fun c => call_index c = call_index call) fs) as [|first gs].
    + cbn. unfold update_accumulator, last_present, appended. cbn.
      rewrite !present_truthy.
      destruct (id call) as [[|? ?]|], (call_name call) as [[|? ?]|],
        (call_arguments call) as [[|? ?]|]; cbn; try reflexivity;
        by rewrite append_empty_r.
    + cbn [merged app]. f_equal.
      change (first :: (gs ++ [call])%list) with ((first :: gs) ++ [call])%list.
      rewrite !last_present_snoc, appended_snoc, !present_truthy.
      unfold update_accumulator.
      destruct (id call) as [[|? ?]|], (call_name call) as [[|? ?]|],
        (call_arguments call) as [[|? ?]|]; cbn;
        rewrite ?append_empty_r; reflexivity.
  - apply Z.eqb_neq in Hi.
    rewrite filter_cons_False by congruence.
    rewrite filter_nil, app_nil_r. exact IH.
Qed.

Lemma toolCallsByIndex_merged (stream : list Chunk) (i : Z) :
  Map_get (toolCallsByIndex stream) i = merged i (fragments_at i stream).
Proof.
  unfold toolCallsByIndex, fragments_at.
  rewrite fold_absorb_fragments. apply accumulate_merged.
Qed.

(** *** Keys of the map *)

Lemma Map_get_None (m : ToolCallMap) (k : Z) : Map_get m k = None <-> k ∉ m.*1.
Proof.
  induction m as [|[k' v] m IH]; cbn.
  - split; [intros _; apply not_elem_of_nil | reflexivity].
  - rewrite not_elem_of_cons. destruct (k =? k') eqn:Hk.
    + apply Z.eqb_eq in Hk. split; [discriminate | intros [? _]; contradiction].
    + apply Z.eqb_neq in Hk. rewrite IH. tauto.
Qed.

Lemma Map_get_elem_of (m : ToolCallMap) (k : Z) (v : Accumulator) :
  NoDup m.*1 -> (Map_get m k = Some v <-> (k, v) ∈ m).
Proof.
  induction m as [|[k' v'] m IH]; cbn; intros Hnd.
  - split; [discriminate | intros H; by apply elem_of_nil in H].
  - apply NoDup_cons in Hnd as [Hk' Hnd]. rewrite elem_of_cons.
    destruct (k =? k') eqn:Hk.
    + apply Z.eqb_eq in Hk. subst k'. split.
      * intros [= ->]. by left.
      * intros [[= ->]|Hin]; [reflexivity|].
        exfalso. apply Hk'. apply list_elem_of_fmap. by exists (k, v).
    + apply Z.eqb_neq in Hk. rewrite (IH Hnd). split; [by right|].
      intros [[= -> ->]|Hin]; [contradiction | exact Hin].
Qed.

Lemma Map_set_keys (m : ToolCallMap) (k : Z) (v : Accumulator) :
  (Map_set m k v).*1 = if decide (k ∈ m.*1) then m.*1 else (m.*1 ++ [k])%list.
Proof.
  induction m as [|[k' v'] m IH]; cbn.
  - reflexivity.
  - destruct (k =? k') eqn:Hk; cbn.
    + apply Z.eqb_eq in Hk. subst k'.
      rewrite decide_True by (by left). reflexivity.
    + apply Z.eqb_neq in Hk. rewrite IH.
      destruct (decide (k ∈ m.*1)) as [Hin|Hin].
      * rewrite decide_True by (by right). reflexivity.
      * rewrite decide_False; [reflexivity|].
        rewrite not_elem_of_cons. by split.
Qed.

Lemma Map_set_NoDup (m : ToolCallMap) (k : Z) (v : Accumulator) :
  NoDup m.*1 -> NoDup (Map_set m k v).*1.
Proof.
  intros Hnd. rewrite Map_set_keys. case_decide; [exact Hnd|].
  apply NoDup_app. split_and!; [exact Hnd | | apply NoDup_singleton].
  intros x Hx Hx'. apply list_elem_of_singleton in Hx'. by subst x.
Qed.

Lemma accumulate_NoDup (fs : list ToolCallDelta) (m : ToolCallMap) :
  NoDup m.*1 -> NoDup (fold_left absorb_call fs m).*1.
Proof.
  revert m. induction fs as [|call fs IH]; intros m Hnd; [exact Hnd|].
  cbn [fold_left]. apply IH. unfold absorb_call. by apply Map_set_NoDup.
Qed.

Lemma toolCallsByIndex_NoDup (stream : list Chunk) : NoDup (toolCallsByIndex stream).*1.
Proof.
  unfold toolCallsByIndex. rewrite fold_absorb_fragments.
  apply accumulate_NoDup. cbn. apply NoDup_nil_2.
Qed.

(** *** The sort *)

#[local] Instance entry_le_trans : Transitive entry_le.
Proof. intros a b c. unfold entry_le. lia. Qed.

#[local] Instance entry_le_total : Total entry_le.
Proof. intros a b. unfold entry_le. lia. Qed.

Lemma ordered_entries_perm (m : ToolCallMap) : ordered_entries m ≡ₚ m.
Proof. apply merge_sort_Permutation. Qed.



(** *** The shape of a run *)

Lemma run_shape (parse : string -> option JsValue) (stream : list Chunk) (m : ToolCallMap) :
  run parse stream m =
  (reading stream ++ Drained :: flush parse (fold_left absorb_chunk stream m))%list.
Proof.
  revert m. induction stream as [|chunk rest IH]; intros m; [reflexivity|].
  cbn [run reading flat_map fold_left app]. rewrite IH.
  unfold arriving_text. rewrite present_truthy.
  destruct (Js.truthy_opt (chunk_content chunk)); cbn; reflexivity.
Qed.

Lemma flush_entries (parse : string -> option JsValue) (m : ToolCallMap) :
  flush parse m = map (fun entry => Yield (finalize parse entry.2)) (ordered_entries m).
Proof.
  unfold flush. destruct m as [|e m]; [reflexivity|].
  cbn [length]. destruct (Z.of_nat (S (length m)) >? 0) eqn:H; [reflexivity|].
  rewrite Z.gtb_ltb in H. apply Z.ltb_ge in H. lia.
Qed.

Lemma reading_cons (chunk : Chunk) (rest : list Chunk) :
  reading (chunk :: rest) =
  ([Pull chunk] ++
   match arriving_text chunk with
   | Some s => [Yield (text s)]
   | None => []
   end ++ reading rest)%list.
Proof. reflexivity. Qed.

Lemma events_of_run (parse : string -> option JsValue) (stream : list Chunk) :
  streamChatCompletion parse stream =
  (map text (omap arriving_text stream) ++
   map (fun entry => finalize parse entry.2) (ordered_entries (toolCallsByIndex stream)))%list.
Proof.
  unfold streamChatCompletion, toolCallsByIndex.
  rewrite run_shape, flush_entries, omap_app.
  f_equal.
  - induction stream as [|chunk rest IH]; [reflexivity|].
    rewrite reading_cons, !omap_app, IH.
    cbn. destruct (arriving_text chunk); reflexivity.
  - generalize (ordered_entries (fold_left absorb_chunk stream [])) as l. intros l.
    change (omap yielded (map (fun entry => Yield (finalize parse entry.2)) l) =
            map (fun entry => finalize parse entry.2) l).
    induction l as [|e l IH]; [reflexivity|]. cbn. f_equal. exact IH.
Qed.






(** *** The call id *)

Lemma present_id_all (fs : list ToolCallDelta) :
  (forall call, call ∈ fs -> id call <> Some EmptyString) ->
  omap (fun call => present (id call)) fs = omap id fs.
Proof.
  induction fs as [|call fs IH]; intros Hne; [reflexivity|].
  cbn. rewrite IH by (intros c Hc; apply Hne; by right).
  assert (Hcall : id call <> Some EmptyString) by (apply Hne; by left).
  destruct (id call) as [[|? ?]|]; cbn; [congruence | reflexivity | reflexivity].
Qed.

(** When no fragment carries the empty string as its id, the id of an
    accumulator is the last id a fragment of its index supplied, or the
    placeholder of the index when none supplied one, and it is not
    empty. *)
Lemma callId_rule (stream : list Chunk) (i : Z) (acc : Accumulator) :
  (forall call, call ∈ fragments stream -> id call <> Some EmptyString) ->
  merged i (fragments_at i stream) = Some acc ->
  acc_id acc = Js.nullish (last (omap id (fragments_at i stream))) (placeholder_id i) /\
  acc_id acc <> EmptyString.
Proof.
  intros Hne Hm.
  assert (Hfs : forall call, call ∈ fragments_at i stream -> id call <> Some EmptyString).
  { intros call Hc. apply Hne. unfold fragments_at in Hc.
    by apply list_elem_of_filter in Hc as [_ Hc]. }
  revert Hm Hfs. generalize (fragments_at i stream) as fs. intros fs Hm Hfs.
  destruct fs as [|first fs]; [discriminate|].
  cbn [merged] in Hm. injection Hm as <-. cbn [acc_id].
  unfold last_present. rewrite (present_id_all _ Hfs).
  destruct (last (omap id (first :: fs))) as [x|] eqn:Hlast; cbn [Js.nullish].
  - split; [reflexivity|].
    apply last_Some_elem_of, list_elem_of_omap in Hlast as (call & Hc & Hid).
    intros ->. by apply (Hfs call Hc).
  - apply last_None in Hlast.
    destruct (id first) as [y|] eqn:Hfirst.
    + cbn in Hlast. rewrite Hfirst in Hlast. discriminate.
    + split; [reflexivity | discriminate].
Qed.

(** C5, as amended: an argument buffer that is not blank and that
    [JSON.parse] rejects yields the input {_raw: buffer}; a blank buffer
    is not parsed and yields the empty object; an accumulator without a
    name yields the name tool; and no accumulator is lost: the events of
    a run are the text events followed by one finalized event per entry
    of the map. *)
Theorem C5_fallbacks (parse : string -> option JsValue) (stream : list Chunk) :
  (forall call : Accumulator,
      0 < Js.length (Js.trim (acc_arguments call)) ->
      parse (acc_arguments call) = None ->
      finalize parse call =
        tool_call (acc_id call) (Js.nullish (acc_name call) "tool")
                  (JObject [("_raw", JString (acc_arguments call))])) /\
  (forall call : Accumulator,
      Js.length (Js.trim (acc_arguments call)) = 0 ->
      finalize parse call =
        tool_call (acc_id call) (Js.nullish (acc_name call) "tool") (JObject [])) /\
  (forall call : Accumulator,
      acc_name call = None ->
      exists input, finalize parse call = tool_call (acc_id call) "tool" input) /\
  streamChatCompletion parse stream =
    (map text (omap arriving_text stream) ++
     map (fun entry => finalize parse entry.2)
         (ordered_entries (toolCallsByIndex stream)))%list /\
  ordered_entries (toolCallsByIndex stream) ≡ₚ toolCallsByIndex stream.
Proof.
  split_and!.
  - intros call Hlen Hparse. unfold finalize. rewrite Hparse.
    destruct (Js.length (Js.trim (acc_arguments call)) >? 0) eqn:Hgt; [reflexivity|].
    rewrite Z.gtb_ltb in Hgt. apply Z.ltb_ge in Hgt. lia.
  - intros call Hlen. unfold finalize. rewrite Hlen. reflexivity.
  - intros call Hname. unfold finalize. rewrite Hname. eexists. reflexivity.
  - apply events_of_run.
  - apply ordered_entries_perm.
Qed.

Lemma C5_fallbacks_witness :
  finalize Json.parse
    {| acc_id := "call_1"; acc_name := None; acc_arguments := "{not json" |} =
  tool_call "call_1" "tool" (JObject [("_raw", JString "{not json")]).
Proof.
  apply (proj1 (C5_fallbacks Json.parse [])); vm_compute; reflexivity.
Defined.

(** C5, as stated, fails on a buffer that is empty: [JSON.parse] rejects
    the empty text, and the event of a fragment that only names its tool
    carries the empty object, not the raw string under _raw. *)
Lemma C5_blank_buffer_counterexample :
  Json.parse EmptyString = None /\
  streamChatCompletion Json.parse [fragment 0 None (Some "foo")] =
    [tool_call "tool_call_0" "foo" (JObject [])] /\
  JObject [] <> JObject [("_raw", JString EmptyString)].
Proof.
  split_and!; [vm_compute; reflexivity | vm_compute; reflexivity | discriminate].
Qed.

(** C10: on a stream whose only fragment carries the empty string as its
    id, the event's callId is the empty string, where the claim has
    tool_call_0: line 78 keeps an empty id ([??]) that line 82 treats as
    absent. *)
Theorem C10_empty_id_kept (parse : string -> option JsValue) :
  streamChatCompletion parse empty_id_stream =
    [tool_call EmptyString "f" (JObject [])].
Proof. vm_compute. reflexivity. Qed.

End AggregatorFacts.

Module AuthFacts.
Import Auth.

(** Unfolds the monad so that a method applied to a state computes. *)
Ltac run_monad :=
  unfold bind, try_catch, get, modify, ret, throw, Date_now, console_error,
    response_json in *;
  cbn in *.

(** Equal traces, up to the bracketing of the appends. *)
Ltac trace_eq := rewrite <- ?app_assoc; cbn; reflexivity.

Lemma fetches_app (l1 l2 : list Event) :
  fetches (l1 ++ l2) = (fetches l1 ++ fetches l2)%list.
Proof. apply omap_app. Qed.

Lemma sleeps_app (l1 l2 : list Event) :
  sleeps (l1 ++ l2) = (sleeps l1 ++ sleeps l2)%list.
Proof. apply omap_app. Qed.

(** [saveCredentials] sends nothing and, when it returns, has stored the
    credential in the store in use and in the handler. *)
Lemma saveCredentials_spec (c : QwenCredentials) (s : State) :
  exists events,
    trace (saveCredentials c s).2 = (trace s ++ events)%list /\
    fetches events = [] /\
    sleeps events = [] /\
    clock (saveCredentials c s).2 = clock s /\
    (store_healthy s ->
     (saveCredentials c s).1 = Return tt /\
     credentials (saveCredentials c s).2 = Some c) /\
    ((saveCredentials c s).1 = Return tt ->
     credentials (saveCredentials c s).2 = Some c /\
     persisted (saveCredentials c s).2 c).
Proof.
  unfold saveCredentials, secretStorage_store, fs_mkdir, fs_writeFile, store_healthy, persisted.
  run_monad.
  destruct (secretStorage s) eqn:Hv; cbn.
  - destruct (vault_error s) eqn:He; cbn.
    + exists [ConsoleError "Failed to save credentials:"]. cbn.
      rewrite Hv. split_and!; try reflexivity; [discriminate | discriminate].
    + exists []. cbn. rewrite Hv, app_nil_r. by split_and!.
  - destruct (fs_error s) eqn:He; cbn.
    + exists [ConsoleError "Failed to save credentials:"]. cbn.
      rewrite Hv. split_and!; try reflexivity; [discriminate | discriminate].
    + rewrite He. cbn. exists []. cbn. rewrite Hv, app_nil_r. by split_and!.
Qed.


#[local] Arguments saveCredentials : simpl never.

Lemma refreshToken_kept (o : option string) (x : string) :
  (if Js.truthy_opt o then Js.nullish o EmptyString else x) =
  match o with
  | Some (String c rest) => String c rest
  | _ => x
  end.
Proof. destruct o as [[|c rest]|]; reflexivity. Qed.

(** [refreshAccessToken] sends exactly one request, the refresh request
    with the stored refresh token; it returns only after an OK answer
    with a token body, and then the handler and the store in use hold the
    refreshed credential; it does return when the answer is such and the
    store accepts the write. *)
Lemma refreshAccessToken_spec (s : State) (c : QwenCredentials) :
  credentials s = Some c ->
  exists events,
    trace (refreshAccessToken s).2 =
      (trace s ++ Fetch (clock s) (RefreshRequest (refreshToken c)) :: events)%list /\
    fetches events = [] /\
    ((refreshAccessToken s).1 = Return tt ->
     exists latency response data rest,
       refresh_replies s = (latency, Responds response) :: rest /\
       ok response = true /\ json response = Some data /\
       credentials (refreshAccessToken s).2 = Some (refreshed c data (clock s + latency)) /\
       persisted (refreshAccessToken s).2 (refreshed c data (clock s + latency))) /\
    (forall latency response data rest,
        refresh_replies s = (latency, Responds response) :: rest ->
        ok response = true -> json response = Some data ->
        store_healthy s ->
        (refreshAccessToken s).1 = Return tt /\
        credentials (refreshAccessToken s).2 = Some (refreshed c data (clock s + latency))).
Proof.
  intros Hc. unfold refreshAccessToken, fetch. run_monad. rewrite Hc.
  destruct (refresh_replies s) as [|[latency [message|response]] rest] eqn:Hr; cbn.
  - eexists. split_and!; [trace_eq | reflexivity | discriminate | discriminate].
  - eexists. split_and!; [trace_eq | reflexivity | discriminate | discriminate].
  - destruct (ok response) eqn:Hok; cbn.
    2:{ eexists. split_and!; [trace_eq | reflexivity | discriminate |].
        intros ? ? ? ? [= <- <- <-] Hok'. congruence. }
    destruct (json response) as [data|] eqn:Hjson; cbn.
    2:{ eexists. split_and!; [trace_eq | reflexivity | discriminate |].
        intros ? ? ? ? [= <- <- <-] _ Hjson'. congruence. }
    rewrite refreshToken_kept.
    change {| accessToken := access_token data;
              refreshToken := match refresh_token data with
                              | Some (String c0 rest0) => String c0 rest0
                              | _ => refreshToken c
                              end;
              expiresAt := clock s + latency + expires_in data * 1000;
              resourceUrl := resource_url data;
              tokenType := Some (token_type data) |}
      with (refreshed c data (clock s + latency)).
    match goal with
    | |- context [saveCredentials ?u ?s1] =>
        destruct (saveCredentials_spec u s1) as (evs & Htr & Hf & _ & _ & Hhealthy & Hret);
        destruct (saveCredentials u s1) as [[[]|e] s2] eqn:Hsave
    end; cbn in *.
    + exists evs. split_and!.
      * rewrite Htr. trace_eq.
      * exact Hf.
      * intros _. exists latency, response, data, rest.
        destruct (Hret eq_refl) as [Hcred Hpers]. by split_and!.
      * intros ? ? ? ? [= <- <- <-] _ Hjson' _.
        rewrite Hjson in Hjson'. injection Hjson' as <-.
        split; [reflexivity|]. by destruct (Hret eq_refl).
    + exists (evs ++ [ConsoleError "Failed to refresh token:"])%list. split_and!.
      * rewrite Htr. trace_eq.
      * rewrite fetches_app, Hf. reflexivity.
      * discriminate.
      * intros ? ? ? ? [= <- <- <-] _ Hjson' Hh.
        exfalso. unfold store_healthy in *. cbn in Hhealthy.
        destruct (Hhealthy Hh) as [? _]. discriminate.
Qed.

(** C6: without a stored credential, and with a stored access token that
    is empty or blank, [getValidAccessToken] throws at once, with a
    different message in each case, and leaves the state as it was: no
    request is sent and no answer of the token endpoint is consumed. *)
Theorem C6_fail_fast (s : State) :
  (credentials s = None ->
   getValidAccessToken s =
     (Throw (Error "No credentials found. Please authenticate first."), s)) /\
  (forall c, credentials s = Some c ->
             Js.length (Js.trim (accessToken c)) = 0 ->
             getValidAccessToken s =
               (Throw (Error "Access token is empty. Please authenticate again."), s)) /\
  Error "No credentials found. Please authenticate first." <>
  Error "Access token is empty. Please authenticate again.".
Proof.
  split_and!.
  - intros Hc. unfold getValidAccessToken, bind, get. cbn. rewrite Hc. reflexivity.
  - intros c Hc Hblank. unfold getValidAccessToken, bind, get. cbn. rewrite Hc.
    rewrite Hblank. cbn. rewrite orb_true_r. reflexivity.
  - discriminate.
Qed.

Lemma C6_fail_fast_witness :
  getValidAccessToken (state_with None true None None [] 600) =
    (Throw (Error "No credentials found. Please authenticate first."),
     state_with None true None None [] 600) /\
  getValidAccessToken (state_with (Some (credential "   " 0)) true None None [] 600) =
    (Throw (Error "Access token is empty. Please authenticate again."),
     state_with (Some (credential "   " 0)) true None None [] 600).
Proof.
  split.
  - apply (proj1 (C6_fail_fast _)). reflexivity.
  - apply (proj1 (proj2 (C6_fail_fast _)) (credential "   " 0)); reflexivity.
Defined.

#[local] Arguments refreshAccessToken : simpl never.

(** [getValidAccessToken] on a stored credential whose access token is
    not blank: the test of line 126, then the token of the handler. *)
Lemma getValidAccessToken_unfold (s : State) (c : QwenCredentials) :
  credentials s = Some c ->
  0 < Js.length (Js.trim (accessToken c)) ->
  getValidAccessToken s =
    if expiresAt c - clock s <? 30000
    then match refreshAccessToken s with
         | (Return _, s') =>
             match credentials s' with
             | Some c' => (Return (accessToken c'), s')
             | None => (Throw TypeError, s')
             end
         | (Throw e, s') => (Throw e, s')
         end
    else (Return (accessToken c), s).
Proof.
  intros Hc Hlen. unfold getValidAccessToken. run_monad. rewrite Hc.
  assert (Htruthy : Js.truthy (accessToken c) = true).
  { destruct (accessToken c); [vm_compute in Hlen; discriminate | reflexivity]. }
  rewrite Htruthy. cbn.
  destruct (Js.length (Js.trim (accessToken c)) =? 0) eqn:Hz; [lia|]. cbn.
  change (30 * 1000) with 30000.
  change (expiresAt c - clock s <? TOKEN_REFRESH_BUFFER) with (expiresAt c - clock s <? 30000).
  destruct (expiresAt c - clock s <? 30000); cbn.
  - destruct (refreshAccessToken s) as [[[]|e] s']; [|reflexivity].
    destruct (credentials s'); reflexivity.
  - rewrite Hc. reflexivity.
Qed.

(** C4: on a stored credential with a usable access token,
    [getValidAccessToken] sends the refresh request exactly when
    expiresAt - now < 30000, and sends nothing otherwise; at or above the
    boundary it returns the stored token and leaves the state untouched;
    below it, the token it returns is the one the handler holds after the
    refresh. *)
Theorem C4_refresh_threshold (s : State) (c : QwenCredentials) :
  credentials s = Some c ->
  0 < Js.length (Js.trim (accessToken c)) ->
  fetches (trace (getValidAccessToken s).2) =
    (fetches (trace s) ++
     if expiresAt c - clock s <? 30000
     then [(clock s, RefreshRequest (refreshToken c))]
     else [])%list /\
  (30000 <= expiresAt c - clock s ->
   getValidAccessToken s = (Return (accessToken c), s)) /\
  (expiresAt c - clock s < 30000 ->
   forall token s', getValidAccessToken s = (Return token, s') ->
                    (refreshAccessToken s = (Return tt, s')) /\
                    exists c', credentials s' = Some c' /\ token = accessToken c').
Proof.
  intros Hc Hlen. rewrite (getValidAccessToken_unfold s c Hc Hlen).
  destruct (refreshAccessToken_spec s c Hc) as (events & Htrace & Hfetch & _).
  destruct (expiresAt c - clock s <? 30000) eqn:Hlt.
  - apply Z.ltb_lt in Hlt. split_and!.
    + assert (Hsame : trace (match refreshAccessToken s with
                             | (Return _, s') =>
                                 match credentials s' with
                                 | Some c' => (Return (accessToken c'), s')
                                 | None => (Throw TypeError, s')
                                 end
                             | (Throw e, s') => (Throw e, s')
                             end).2 = trace (refreshAccessToken s).2).
      { destruct (refreshAccessToken s) as [[[]|e] s']; cbn; [|reflexivity].
        destruct (credentials s'); reflexivity. }
      rewrite Hsame, Htrace, fetches_app.
      change (fetches (Fetch (clock s) (RefreshRequest (refreshToken c)) :: events))
        with ((clock s, RefreshRequest (refreshToken c)) :: fetches events).
      rewrite Hfetch. reflexivity.
    + lia.
    + intros _ token s'. destruct (refreshAccessToken s) as [[[]|e] s1]; [|discriminate].
      destruct (credentials s1) as [c'|] eqn:Hc'; [|discriminate].
      intros [= <- <-]. split; [reflexivity|]. by exists c'.
  - apply Z.ltb_ge in Hlt. split_and!.
    + cbn. by rewrite app_nil_r.
    + reflexivity.
    + lia.
Qed.

(** At the boundary, expiresAt - now = 30000, nothing is sent and the
    stored token is returned; one millisecond later the request goes out. *)
Lemma C4_refresh_threshold_witness :
  fetches (trace (getValidAccessToken boundary_state).2) = [] /\
  getValidAccessToken boundary_state = (Return "tok", boundary_state) /\
  fetches (trace (getValidAccessToken stale_state).2) = [(1000000, RefreshRequest "r0")].
Proof.
  split_and!.
  - apply (proj1 (C4_refresh_threshold boundary_state (credential "tok" 1030000)
                    eq_refl eq_refl)).
  - apply (proj1 (proj2 (C4_refresh_threshold boundary_state (credential "tok" 1030000)
                           eq_refl eq_refl))).
    vm_compute. discriminate.
  - apply (proj1 (C4_refresh_threshold stale_state (credential "tok" 1029999)
                    eq_refl eq_refl)).
Defined.

(** C7: when the refresh is due, the token endpoint answers OK with a
    token body and the store in use accepts the write,
    [getValidAccessToken] returns the new access token, and by then the
    handler and the store in use hold the credential built from the
    answer, with the stored refresh token kept when the answer has none or
    an empty one; and whenever [getValidAccessToken] returns after a due
    refresh, the credential it took the token from is in the store. *)
Theorem C7_refresh_persisted (s : State) (c : QwenCredentials) :
  credentials s = Some c ->
  0 < Js.length (Js.trim (accessToken c)) ->
  expiresAt c - clock s < 30000 ->
  (forall latency response data rest,
      refresh_replies s = (latency, Responds response) :: rest ->
      ok response = true -> json response = Some data ->
      store_healthy s ->
      let updated := refreshed c data (clock s + latency) in
      exists s',
        getValidAccessToken s = (Return (access_token data), s') /\
        credentials s' = Some updated /\
        persisted s' updated /\
        accessToken updated = access_token data /\
        expiresAt updated = clock s + latency + expires_in data * 1000 /\
        (refresh_token data = None \/ refresh_token data = Some EmptyString ->
         refreshToken updated = refreshToken c) /\
        (forall r, refresh_token data = Some r -> r <> EmptyString ->
                   refreshToken updated = r)) /\
  (forall token s',
      getValidAccessToken s = (Return token, s') ->
      exists updated,
        credentials s' = Some updated /\ persisted s' updated /\
        token = accessToken updated).
Proof.
  intros Hc Hlen Hdue. rewrite (getValidAccessToken_unfold s c Hc Hlen).
  apply Z.ltb_lt in Hdue. rewrite Hdue.
  destruct (refreshAccessToken_spec s c Hc) as (events & _ & _ & Hret & Hgood).
  split.
  - intros latency response data rest Hr Hok Hjson Hh updated.
    destruct (Hgood latency response data rest Hr Hok Hjson Hh) as [Hout Hcred].
    destruct (Hret Hout) as (l' & r' & d' & rest' & Hr' & _ & Hjson' & _ & Hpers).
    rewrite Hr in Hr'. injection Hr' as <- <- <-.
    rewrite Hjson in Hjson'. injection Hjson' as <-.
    destruct (refreshAccessToken s) as [[[]|e] s1]; cbn in *; [|discriminate].
    exists s1. rewrite Hcred. split_and!; try reflexivity; try assumption.
    + intros [Hnone|Hempty]; unfold updated, refreshed; cbn.
      * by rewrite Hnone.
      * by rewrite Hempty.
    + intros r Hsome Hne. unfold updated, refreshed; cbn. rewrite Hsome.
      destruct r; [contradiction | reflexivity].
  - intros token s'.
    destruct (refreshAccessToken s) as [[[]|e] s1]; cbn in *; [|discriminate].
    destruct (Hret eq_refl) as (l' & r' & d' & rest' & _ & _ & _ & Hcred & Hpers).
    rewrite Hcred. intros [= <- <-]. eexists. by split_and!.
Qed.

Lemma C7_refresh_persisted_witness :
  exists s',
    getValidAccessToken stale_state = (Return "new", s') /\
    credentials s' =
      Some (refreshed (credential "tok" 1029999) (token_response "new" None) 1000005) /\
    persisted s' (refreshed (credential "tok" 1029999) (token_response "new" None) 1000005) /\
    refreshToken (refreshed (credential "tok" 1029999) (token_response "new" None) 1000005)
      = "r0".
Proof.
  destruct
    (proj1 (C7_refresh_persisted stale_state (credential "tok" 1029999)
              eq_refl eq_refl eq_refl)
       5 _ (token_response "new" None) [] eq_refl eq_refl eq_refl eq_refl)
    as (s' & Hget & Hcred & Hpers & _).
  exists s'. split_and!; [exact Hget | exact Hcred | exact Hpers | reflexivity].
Defined.

(** One call of [clearCredentials]: it returns; it removes the record of
    the store in use when that store obeys, and then forgets the
    credential; it never creates a record or a credential. *)
Lemma clearCredentials_spec (s : State) :
  (clearCredentials s).1 = Return tt /\
  secretStorage (clearCredentials s).2 = secretStorage s /\
  vault_error (clearCredentials s).2 = vault_error s /\
  fs_error (clearCredentials s).2 = fs_error s /\
  (secretStorage s = true -> vault_error s = None ->
   vault (clearCredentials s).2 = None /\
   file (clearCredentials s).2 = file s /\
   credentials (clearCredentials s).2 = None) /\
  (secretStorage s = false -> fs_error s = None -> file s <> None ->
   file (clearCredentials s).2 = None /\
   vault (clearCredentials s).2 = vault s /\
   credentials (clearCredentials s).2 = None) /\
  (credentials s = None -> credentials (clearCredentials s).2 = None) /\
  (file s = None -> file (clearCredentials s).2 = None).
Proof.
  unfold clearCredentials, secretStorage_delete, fs_unlink. run_monad.
  destruct (secretStorage s) eqn:Hv; cbn.
  - destruct (vault_error s) eqn:Hve; cbn;
      split_and!; try reflexivity; try assumption; try (intros; assumption);
        try (intros; discriminate);
      try (intros; by split_and!).
  - destruct (fs_error s) as [code|] eqn:Hfe; cbn.
    + destruct (String.eqb code "ENOENT"); cbn;
        split_and!; try reflexivity; try assumption; try (intros; assumption);
        try (intros; discriminate);
        try (intros; by split_and!).
    + destruct (file s) eqn:Hf; cbn;
        split_and!; try reflexivity; try assumption; try (intros; assumption);
        try (intros; discriminate);
        try (intros; congruence); try (intros; by split_and!).
Qed.

Lemma not_authenticated (s : State) : credentials s = None -> isAuthenticated s = false.
Proof. intros H. unfold isAuthenticated. by rewrite H. Qed.

#[local] Arguments clearCredentials : simpl never.

(** C9, as amended: [clearCredentials] never throws, whatever the stores
    hold or answer, so that the logout command always ends with its
    confirmation and never with the error message, also when it is run
    twice or with no record.  It removes the record of the store in use:
    with a vault whose [delete] succeeds, the vault entry is gone, the file
    is as it was and [isAuthenticated] is false; without a vault, when the
    file is there and [unlink] succeeds, the file is gone, the vault is as
    it was and [isAuthenticated] is false; and in both cases a second call
    leaves it so. *)
Theorem C9_logout (s : State) :
  (clearCredentials s).1 = Return tt /\
  (clearCredentials (clearCredentials s).2).1 = Return tt /\
  (commandLogout s).1 = Return tt /\
  last (trace (commandLogout s).2) = Some (ShowInformationMessage "Logged out from Qwen.") /\
  (secretStorage s = true -> vault_error s = None ->
   vault (clearCredentials s).2 = None /\
   file (clearCredentials s).2 = file s /\
   isAuthenticated (clearCredentials s).2 = false /\
   vault (clearCredentials (clearCredentials s).2).2 = None /\
   isAuthenticated (clearCredentials (clearCredentials s).2).2 = false) /\
  (secretStorage s = false -> fs_error s = None -> file s <> None ->
   file (clearCredentials s).2 = None /\
   vault (clearCredentials s).2 = vault s /\
   isAuthenticated (clearCredentials s).2 = false /\
   file (clearCredentials (clearCredentials s).2).2 = None /\
   isAuthenticated (clearCredentials (clearCredentials s).2).2 = false).
Proof.
  destruct (clearCredentials_spec s) as (Hret & Hss & Hve & Hfe & Hvault & Hfile & _ & _).
  destruct (clearCredentials_spec (clearCredentials s).2)
    as (Hret' & _ & _ & _ & Hvault' & _ & Hcred' & Hfile').
  split_and!.
  - exact Hret.
  - exact Hret'.
  - unfold commandLogout, reset. run_monad.
    destruct (clearCredentials s) as [[[]|e] s1]; [reflexivity | discriminate].
  - unfold commandLogout, reset. run_monad.
    destruct (clearCredentials s) as [[[]|e] s1]; [|discriminate].
    cbn. apply last_snoc.
  - intros Hv Hnone. destruct (Hvault Hv Hnone) as (H1 & H2 & H3).
    destruct Hvault' as (H4 & _ & H5); [congruence | congruence |].
    split_and!; auto using not_authenticated.
  - intros Hv Hnone Hsome. destruct (Hfile Hv Hnone Hsome) as (H1 & H2 & H3).
    split_and!; auto using not_authenticated.
Qed.

Lemma C9_logout_witness :
  vault (clearCredentials mirrored_state).2 = None /\
  isAuthenticated (clearCredentials mirrored_state).2 = false /\
  file (clearCredentials file_state).2 = None /\
  isAuthenticated (clearCredentials (clearCredentials file_state).2).2 = false.
Proof.
  destruct (C9_logout mirrored_state) as (_ & _ & _ & _ & Hvault & _).
  destruct (C9_logout file_state) as (_ & _ & _ & _ & _ & Hfile).
  destruct (Hvault eq_refl eq_refl) as (H1 & _ & H2 & _).
  destruct (Hfile eq_refl eq_refl ltac:(discriminate)) as (H3 & _ & _ & _ & H4).
  by split_and!.
Defined.

(** C9, as stated, fails: with a vault configured, a logout leaves the
    credential file where it was. *)
Lemma C9_file_survives_counterexample :
  file mirrored_state = Some (JSON_stringify_2 (credential "tok" 2000000)) /\
  (clearCredentials mirrored_state).1 = Return tt /\
  file (clearCredentials mirrored_state).2 =
    Some (JSON_stringify_2 (credential "tok" 2000000)) /\
  file (clearCredentials mirrored_state).2 <> None.
Proof. split_and!; [reflexivity | reflexivity | reflexivity | discriminate]. Qed.

(** Without a vault and without the file, [unlink] fails with ENOENT
    before line 188 is reached: the handler keeps its credential. *)
Lemma clearCredentials_missing_file (s : State) :
  secretStorage s = false -> fs_error s = None -> file s = None ->
  clearCredentials s = (Return tt, s).
Proof.
  intros Hv Hfe Hf. unfold clearCredentials, fs_unlink. run_monad.
  rewrite Hv, Hfe. cbn. rewrite Hf. reflexivity.
Qed.

(** *** The polling loop *)

#[local] Arguments pollDeviceToken : simpl never.
#[local] Arguments sleep : simpl never.

(** The state after a request sent at the clock of [s] has settled. *)
Lemma pollDeviceToken_throttled (dc cv : string) (signal : Z * bool) (s : State) :
  pollDeviceToken dc cv (throttled signal) s =
    (Return (pending_body signal.2),
     set_clock (clock s + signal.1) (add_event (Fetch (clock s) (DevicePoll dc cv)) s)).
Proof.
  destruct signal as [latency []]; unfold pollDeviceToken, fetch; run_monad; reflexivity.
Qed.

Lemma pollDeviceToken_granted (dc cv : string) (latency : Z) (t : QwenTokenResponse) (s : State) :
  pollDeviceToken dc cv (token_granted latency t) s =
    (Return {| body_status := None; body_slowDown := false; body_error := None;
               body_error_description := None; body_token := Some t |},
     set_clock (clock s + latency) (add_event (Fetch (clock s) (DevicePoll dc cv)) s)).
Proof. unfold pollDeviceToken, fetch; run_monad; reflexivity. Qed.

(** Whatever the answer, a poll adds one request to the trace and nothing
    else. *)
Lemma pollDeviceToken_trace (dc cv : string) (reply : Reply PollBody) (s : State) :
  trace (pollDeviceToken dc cv reply s).2 = (trace s ++ [Fetch (clock s) (DevicePoll dc cv)])%list.
Proof.
  unfold pollDeviceToken, fetch. run_monad.
  destruct reply as [latency [message|response]]; cbn; [reflexivity|].
  destruct (ok response); cbn.
  - destruct (json response); reflexivity.
  - destruct (json response) as [errorData|]; cbn; [|reflexivity].
    destruct (status response =? 400); cbn.
    + destruct (body_error errorData) as [e|]; cbn.
      * destruct (String.eqb e "authorization_pending"); cbn; [reflexivity|].
        destruct (status response =? 429); cbn; [|reflexivity].
        destruct (String.eqb e "slow_down"); reflexivity.
      * destruct (status response =? 429); reflexivity.
    + destruct (status response =? 429); cbn; [|reflexivity].
      destruct (body_error errorData) as [e|]; cbn; [|reflexivity].
      destruct (String.eqb e "slow_down"); reflexivity.
Qed.

Lemma sleep_spec (ms : Z) (token : option CancellationToken) (s : State) :
  0 < ms ->
  sleep ms token s =
    (Return tt, set_clock (wake_time token (clock s) ms) (add_event (Sleep (clock s) ms) s)).
Proof.
  intros Hms. unfold sleep. destruct (ms <=? 0) eqn:H; [lia|]. reflexivity.
Qed.

Lemma wake_time_never (token : option CancellationToken) (now ms : Z) :
  never_cancelled token -> wake_time token now ms = now + ms.
Proof.
  intros Hnever. destruct token as [[[t|]]|]; try reflexivity.
  specialize (Hnever t). cbn in Hnever. lia.
Qed.

Lemma slowed_bounds (interval : Z) :
  2000 <= interval <= 10000 -> 2000 <= slowed interval <= 10000.
Proof.
  intros H. unfold slowed.
  assert (3000 <= 3 * interval / 2) by (apply Z.div_le_lower_bound; lia).
  lia.
Qed.

Lemma slowed_as_specified (interval : Z) :
  slowed interval = Z.min (interval * 15 / 10) 10000.
Proof.
  unfold slowed. f_equal.
  replace (interval * 15) with ((3 * interval) * 5) by lia.
  change 10 with (2 * 5). rewrite Z.div_mul_cancel_r by lia. reflexivity.
Qed.

(** One turn of the loop on a pending answer: the request, the progress
    report, the wait for the next interval, and the loop again. *)
Lemma poll_loop_pending (dc cv : string) (token : option CancellationToken)
    (pollStart timeoutMs interval : Z) (signal : Z * bool) (rest : list (Reply PollBody))
    (s : State) :
  clock s - pollStart < timeoutMs ->
  isCancellationRequested token (clock s) = false ->
  poll_loop dc cv token pollStart timeoutMs interval (throttled signal :: rest) s =
    (sleep (if signal.2 then slowed interval else interval) token ;;;
     poll_loop dc cv token pollStart timeoutMs
               (if signal.2 then slowed interval else interval) rest)
      (add_event (Progress "Waiting for authorization...")
         (set_clock (clock s + signal.1) (add_event (Fetch (clock s) (DevicePoll dc cv)) s))).
Proof.
  intros Hwin Hnc. apply Z.ltb_lt in Hwin.
  cbn [poll_loop]. unfold bind at 1, Date_now, bind at 1, get, ret.
  cbn [clock]. rewrite Hwin, Hnc.
  unfold bind at 1. rewrite pollDeviceToken_throttled.
  cbn [isDeviceTokenPending pending_body body_status body_slowDown].
  change (String.eqb "pending" "pending") with true. cbn iota.
  unfold bind at 1, modify at 1. reflexivity.
Qed.

Lemma poll_loop_granted_now (dc cv : string) (token : option CancellationToken)
    (pollStart timeoutMs interval latency : Z) (t : QwenTokenResponse)
    (rest : list (Reply PollBody)) (s : State) :
  clock s - pollStart < timeoutMs ->
  isCancellationRequested token (clock s) = false ->
  poll_loop dc cv token pollStart timeoutMs interval (token_granted latency t :: rest) s =
    (Return {| accessToken := access_token t;
               refreshToken := Js.nullish (refresh_token t) EmptyString;
               tokenType := Some (token_type t);
               resourceUrl := resource_url t;
               expiresAt := clock s + latency + expires_in t * 1000 |},
     set_clock (clock s + latency) (add_event (Fetch (clock s) (DevicePoll dc cv)) s)).
Proof.
  intros Hwin Hnc. apply Z.ltb_lt in Hwin.
  cbn [poll_loop]. unfold bind at 1, Date_now, bind at 1, get, ret.
  cbn [clock]. rewrite Hwin, Hnc.
  unfold bind at 1. rewrite pollDeviceToken_granted. reflexivity.
Qed.

Lemma total_latency_nonneg (signals : list (Z * bool)) :
  Forall (fun signal => 0 <= signal.1) signals -> 0 <= total_latency signals.
Proof.
  induction 1 as [|x xs Hx _ IH]; cbn; [lia|].
  change (fold_right Z.add 0 (map fst xs)) with (total_latency xs). lia.
Qed.

Lemma total_intervals_nonneg (flags : list bool) :
  forall interval, 0 <= interval -> 0 <= total (intervals interval flags).
Proof.
  induction flags as [|slow flags IH]; intros interval Hi; cbn; [lia|].
  set (next := if slow then Z.min (interval * 15 / 10) 10000 else interval).
  assert (0 <= next).
  { unfold next. destruct slow; [|exact Hi].
    assert (0 <= interval * 15 / 10) by (apply Z.div_pos; lia). lia. }
  specialize (IH next ltac:(assumption)).
  fold (total (intervals next flags)). lia.
Qed.

(** A run of pending answers followed by the token, with no cancellation
    and a window that outlasts the latencies and the waits: the loop
    returns the credential of the token, and its waits are the
    specification's intervals. *)
Lemma poll_loop_granted (dc cv : string) (token : option CancellationToken)
    (pollStart timeoutMs latency : Z) (t : QwenTokenResponse) (signals : list (Z * bool)) :
  never_cancelled token ->
  Forall (fun signal => 0 <= signal.1) signals ->
  forall (interval : Z) (s : State),
    2000 <= interval <= 10000 ->
    clock s - pollStart + total_latency signals + total (intervals interval (map snd signals))
      < timeoutMs ->
    exists c s',
      poll_loop dc cv token pollStart timeoutMs interval
                (map throttled signals ++ [token_granted latency t]) s = (Return c, s') /\
      accessToken c = access_token t /\
      sleeps (trace s') = (sleeps (trace s) ++ intervals interval (map snd signals))%list /\
      map snd (fetches (trace s')) =
        (map snd (fetches (trace s)) ++
         replicate (S (length signals)) (DevicePoll dc cv))%list.
Proof.
  intros Hnever Hnonneg.
  induction Hnonneg as [|[l b] signals Hl Hrest IH]; intros interval s Hint Hwin.
  - cbn in Hwin. cbn [map app].
    rewrite poll_loop_granted_now; [|lia|apply Hnever].
    eexists _, _. split_and!; [reflexivity | reflexivity | |].
    + cbn [trace set_clock add_event]. rewrite sleeps_app. cbn. by rewrite app_nil_r.
    + cbn [trace set_clock add_event]. rewrite fetches_app, map_app. reflexivity.
  - cbn [fst] in Hl.
    set (next := if b then slowed interval else interval).
    assert (Hnext : 2000 <= next <= 10000).
    { unfold next. destruct b; [by apply slowed_bounds | exact Hint]. }
    assert (Hlat : total_latency ((l, b) :: signals) = l + total_latency signals)
      by reflexivity.
    assert (Hwaits : total (intervals interval (map snd ((l, b) :: signals))) =
                     next + total (intervals next (map snd signals))).
    { cbn [map snd intervals]. unfold next.
      destruct b; [rewrite <- slowed_as_specified|]; reflexivity. }
    pose proof (total_latency_nonneg signals Hrest) as Hrest_nonneg.
    pose proof (total_intervals_nonneg (map snd signals) next ltac:(lia)) as Hwaits_nonneg.
    rewrite Hlat, Hwaits in Hwin.
    cbn [map app].
    rewrite poll_loop_pending; [|lia|apply Hnever]. cbn [snd fst]. fold next.
    unfold bind at 1. rewrite sleep_spec by lia.
    rewrite wake_time_never by exact Hnever.
    cbn [clock set_clock add_event].
    match goal with
    | |- context [poll_loop _ _ _ _ _ next _ ?s2] =>
        destruct (IH next s2 Hnext) as (c & s' & Hrun & Hacc & Hsleeps & Hfetches);
        [cbn [clock set_clock add_event]; lia|]
    end.
    exists c, s'. split_and!; [exact Hrun | exact Hacc | |].
    + rewrite Hsleeps. cbn [trace set_clock add_event].
      rewrite !sleeps_app. cbn [sleeps omap list_omap]. cbn [map snd intervals].
      replace (if b then Z.min (interval * 15 / 10) 10000 else interval) with next
        by (unfold next; destruct b; [apply slowed_as_specified | reflexivity]).
      rewrite !app_nil_r, <- app_assoc. reflexivity.
    + rewrite Hfetches. cbn [trace set_clock add_event].
      rewrite !fetches_app, !map_app. cbn. rewrite !app_nil_r, <- app_assoc. reflexivity.
Qed.

(** Whatever the answers and whenever the cancellation, every wait of the
    loop lies between the base interval and the cap. *)
Lemma poll_loop_sleeps_bounded (dc cv : string) (token : option CancellationToken)
    (pollStart timeoutMs : Z) (polls : list (Reply PollBody)) :
  forall (interval : Z) (s : State),
    within_bounds interval ->
    exists events,
      trace (poll_loop dc cv token pollStart timeoutMs interval polls s).2 =
        (trace s ++ events)%list /\
      Forall within_bounds (sleeps events).
Proof.
  induction polls as [|reply rest IH]; intros interval s Hint;
    cbn [poll_loop]; unfold bind at 1, Date_now, bind at 1, get, ret; cbn [clock];
    (destruct (clock s - pollStart <? timeoutMs);
     [|exists []; split; [by rewrite app_nil_r | constructor]]);
    (destruct (isCancellationRequested token (clock s));
     [exists []; split; [by rewrite app_nil_r | constructor]|]);
    unfold bind at 1.
  - pose proof (pollDeviceToken_trace dc cv (0, Rejects "fetch failed") s) as Htr.
    destruct (pollDeviceToken dc cv (0, Rejects "fetch failed") s) as [[body|e] s1];
      cbn in Htr |- *; eexists; (split; [exact Htr | constructor]).
  - pose proof (pollDeviceToken_trace dc cv reply s) as Htr.
    destruct (pollDeviceToken dc cv reply s) as [[body|e] s1]; cbn in Htr.
    2:{ eexists; (split; [exact Htr | constructor]). }
    destruct (isDeviceTokenPending body).
    + set (next := if body_slowDown body then slowed interval else interval).
      assert (Hnext : within_bounds next).
      { unfold next. destruct (body_slowDown body); [by apply slowed_bounds | exact Hint]. }
      unfold bind at 1, modify at 1. unfold bind at 1.
      rewrite sleep_spec by (unfold within_bounds in Hnext; lia).
      match goal with
      | |- context [poll_loop _ _ _ _ _ next rest ?s3] =>
          destruct (IH next s3 Hnext) as (events & Hevents & Hbounded)
      end.
      exists ([Fetch (clock s) (DevicePoll dc cv); Progress "Waiting for authorization...";
               Sleep (clock s1) next] ++ events)%list.
      split.
      * rewrite Hevents. cbn [trace set_clock add_event]. rewrite Htr. trace_eq.
      * rewrite sleeps_app. cbn. constructor; assumption.
    + destruct (isDeviceTokenError body).
      * eexists; (split; [exact Htr | constructor]).
      * destruct (body_token body); eexists; (split; [exact Htr | constructor]).
Qed.

Lemma poll_loop_cancelled (dc cv : string) (cancelled : Z) (pollStart timeoutMs interval : Z)
    (polls : list (Reply PollBody)) (s : State) :
  cancelled <= clock s ->
  poll_loop dc cv (Some {| requestedAt := Some cancelled |}) pollStart timeoutMs interval polls s =
    (Throw (Error (if clock s - pollStart <? timeoutMs
                   then "Authentication cancelled."
                   else "Authentication timed out. Please try again.")), s).
Proof.
  intros Hc. apply Z.leb_le in Hc.
  destruct polls; cbn [poll_loop]; unfold bind at 1, Date_now, bind at 1, get, ret;
    cbn [clock isCancellationRequested]; rewrite Hc;
    destruct (clock s - pollStart <? timeoutMs); reflexivity.
Qed.

Lemma startDeviceFlow_unfold (token : option CancellationToken) (polls : list (Reply PollBody))
    (s : State) (latency : Z) (deviceAuth : DeviceAuthorizationData) :
  device_authorization s = (latency, inr deviceAuth) ->
  startDeviceFlow token polls s =
    poll_loop (device_code deviceAuth) (pkce s).1 token (clock s + latency)
              (device_expires_in deviceAuth * 1000) 2000 polls
              (set_clock (clock s + latency) (add_event (Fetch (clock s) (DeviceCodeRequest (pkce s).2)) s)).
Proof.
  intros Hda. unfold startDeviceFlow, generatePkcePair, requestDeviceAuthorization.
  unfold bind at 1, bind at 1, get, ret.
  unfold bind at 1, bind at 1. unfold bind at 1, modify at 1.
  unfold bind at 1, modify at 1. rewrite Hda. cbn [fst snd].
  unfold bind at 1, Date_now, bind at 1, get, ret. reflexivity.
Qed.

(** C3: in a device flow that is not cancelled and whose window outlasts
    the latencies and the waits, a run of pending answers followed by the
    token makes the loop return the credential of that token after one
    wait per pending answer and one poll more than that; the waits start
    from 2000 ms, a slow-down answer turns the current interval into the
    floor of 1.5 times it, capped at 10000, and a plain pending answer
    leaves it unchanged.  Three plain pending answers then the token give
    exactly three waits, of 2000 ms each.  And for any answers and any
    cancellation, no wait of the flow is longer than 10000 ms (or shorter
    than 2000 ms). *)
Theorem C3_backoff (s : State) (token : option CancellationToken) :
  (forall l0 deviceAuth signals latency t,
      device_authorization s = (l0, inr deviceAuth) ->
      never_cancelled token ->
      Forall (fun signal => 0 <= signal.1) signals ->
      total_latency signals + total (intervals 2000 (map snd signals))
        < device_expires_in deviceAuth * 1000 ->
      exists c s',
        startDeviceFlow token (map throttled signals ++ [token_granted latency t]) s
          = (Return c, s') /\
        accessToken c = access_token t /\
        sleeps (trace s') = (sleeps (trace s) ++ intervals 2000 (map snd signals))%list /\
        map snd (fetches (trace s')) =
          (map snd (fetches (trace s)) ++
           DeviceCodeRequest (pkce s).2 ::
           replicate (S (length signals)) (DevicePoll (device_code deviceAuth) (pkce s).1))%list) /\
  (forall l0 deviceAuth l1 l2 l3 latency t,
      device_authorization s = (l0, inr deviceAuth) ->
      never_cancelled token ->
      0 <= l1 -> 0 <= l2 -> 0 <= l3 ->
      l1 + l2 + l3 + 6000 < device_expires_in deviceAuth * 1000 ->
      exists c s',
        startDeviceFlow token
          [authorization_pending l1; authorization_pending l2; authorization_pending l3;
           token_granted latency t] s = (Return c, s') /\
        accessToken c = access_token t /\
        sleeps (trace s') = (sleeps (trace s) ++ [2000; 2000; 2000])%list) /\
  (forall polls, exists events,
      trace (startDeviceFlow token polls s).2 = (trace s ++ events)%list /\
      Forall (fun ms => 2000 <= ms <= 10000) (sleeps events)) /\
  intervals 2000 [true; false; true; true; true; true; true]
    = [3000; 3000; 4500; 6750; 10000; 10000; 10000].
Proof.
  assert (Hgeneral : forall l0 deviceAuth signals latency t,
      device_authorization s = (l0, inr deviceAuth) ->
      never_cancelled token ->
      Forall (fun signal => 0 <= signal.1) signals ->
      total_latency signals + total (intervals 2000 (map snd signals))
        < device_expires_in deviceAuth * 1000 ->
      exists c s',
        startDeviceFlow token (map throttled signals ++ [token_granted latency t]) s
          = (Return c, s') /\
        accessToken c = access_token t /\
        sleeps (trace s') = (sleeps (trace s) ++ intervals 2000 (map snd signals))%list /\
        map snd (fetches (trace s')) =
          (map snd (fetches (trace s)) ++
           DeviceCodeRequest (pkce s).2 ::
           replicate (S (length signals)) (DevicePoll (device_code deviceAuth) (pkce s).1))%list).
  { intros l0 deviceAuth signals latency t Hda Hnever Hnonneg Hwindow.
    rewrite (startDeviceFlow_unfold _ _ _ _ _ Hda).
    match goal with
    | |- context [poll_loop ?dc ?cv _ ?start ?timeout 2000 _ ?s0] =>
        destruct (poll_loop_granted dc cv token start timeout latency t signals
                    Hnever Hnonneg 2000 s0)
          as (c & s' & Hrun & Hacc & Hsleeps & Hfetches);
        [lia | cbn [clock set_clock add_event]; lia |]
    end.
    exists c, s'. split_and!; [exact Hrun | exact Hacc | |].
    - rewrite Hsleeps. cbn [trace set_clock add_event].
      rewrite sleeps_app. cbn. by rewrite app_nil_r.
    - rewrite Hfetches. cbn [trace set_clock add_event].
      rewrite fetches_app, map_app. cbn [fetches omap list_omap map snd].
      rewrite <- app_assoc. reflexivity. }
  split_and!.
  - exact Hgeneral.
  - intros l0 deviceAuth l1 l2 l3 latency t Hda Hnever H1 H2 H3 Hwindow.
    destruct (Hgeneral l0 deviceAuth [(l1, false); (l2, false); (l3, false)] latency t
                Hda Hnever)
      as (c & s' & Hrun & Hacc & Hsleeps & _).
    + repeat constructor; assumption.
    + cbn. lia.
    + exists c, s'. by split_and!.
  - intros polls.
    destruct (device_authorization s) as [l0 [e|deviceAuth]] eqn:Hda.
    + exists [Fetch (clock s) (DeviceCodeRequest (pkce s).2)]. split; [|constructor].
      unfold startDeviceFlow, generatePkcePair, requestDeviceAuthorization.
      unfold bind at 1, bind at 1, get, ret.
      unfold bind at 1, bind at 1. unfold bind at 1, modify at 1.
      unfold bind at 1, modify at 1. rewrite Hda. reflexivity.
    + rewrite (startDeviceFlow_unfold _ _ _ _ _ Hda).
      match goal with
      | |- context [poll_loop ?dc ?cv _ ?start ?timeout 2000 polls ?s0] =>
          destruct (poll_loop_sleeps_bounded dc cv token start timeout polls 2000 s0)
            as (events & Hevents & Hbounded); [unfold within_bounds; lia|]
      end.
      exists (Fetch (clock s) (DeviceCodeRequest (pkce s).2) :: events). split.
      * rewrite Hevents. cbn [trace set_clock add_event]. trace_eq.
      * exact Hbounded.
  - reflexivity.
Qed.

(** Three pending answers of 120 ms each, then the token, in a window of
    600 s: three waits of 2000 ms and the token. *)
Lemma C3_backoff_witness :
  exists c s',
    startDeviceFlow None
      [authorization_pending 120; authorization_pending 120; authorization_pending 120;
       token_granted 120 (token_response "new" (Some "r1"))] (signed_out 600)
      = (Return c, s') /\
    accessToken c = "new" /\
    sleeps (trace s') = [2000; 2000; 2000].
Proof.
  apply (proj1 (proj2 (C3_backoff (signed_out 600) None))
           0 (device 600) 120 120 120 120 (token_response "new" (Some "r1")));
    [reflexivity | intros now; reflexivity | lia | lia | lia | vm_compute; reflexivity].
Defined.

(** C8, as amended: a cancellation requested while the loop waits ends the
    wait at that instant and ends the loop before any further request; the
    error is the cancellation error when the polling window is still open
    at that instant and the timeout error when it has elapsed; the two
    errors differ.  The loop is entered on a pending or slow-down answer
    that takes [latency] to arrive; the wait that the loop then begins, of
    the interval [next], is the one the cancellation falls into, and the
    answers [rest] that the endpoint holds ready are never asked for. *)
Theorem C8_cancel_during_wait (dc cv : string) (cancelled pollStart timeoutMs interval : Z)
    (latency : Z) (slow : bool) (rest : list (Reply PollBody)) (s : State) :
  2000 <= interval <= 10000 ->
  0 <= latency ->
  clock s - pollStart < timeoutMs ->
  let next := if slow then slowed interval else interval in
  clock s + latency < cancelled <= clock s + latency + next ->
  poll_loop dc cv (Some {| requestedAt := Some cancelled |}) pollStart timeoutMs interval
            (throttled (latency, slow) :: rest) s
  = (Throw (Error (if cancelled - pollStart <? timeoutMs
                   then "Authentication cancelled."
                   else "Authentication timed out. Please try again.")),
     set_clock cancelled
       (add_event (Sleep (clock s + latency) next)
          (add_event (Progress "Waiting for authorization...")
             (set_clock (clock s + latency)
                (add_event (Fetch (clock s) (DevicePoll dc cv)) s))))) /\
  Error "Authentication cancelled." <> Error "Authentication timed out. Please try again.".
Proof.
  intros Hint Hlatency Hopen next Hduring. split; [|discriminate].
  assert (Hnot : isCancellationRequested (Some {| requestedAt := Some cancelled |}) (clock s)
                 = false) by (cbn; lia).
  assert (Hnext : 2000 <= next <= 10000).
  { unfold next. destruct slow; [by apply slowed_bounds | exact Hint]. }
  rewrite poll_loop_pending; [|exact Hopen|exact Hnot]. cbn [fst snd]. fold next.
  unfold bind at 1. rewrite sleep_spec by lia.
  cbn [clock set_clock add_event].
  assert (Hwake : wake_time (Some {| requestedAt := Some cancelled |})
                            (clock s + latency) next = cancelled).
  { cbn. destruct (cancelled <? clock s + latency + next) eqn:Hlt; lia. }
  rewrite Hwake.
  rewrite poll_loop_cancelled by (cbn [clock set_clock add_event]; lia).
  reflexivity.
Qed.

(** The loop is entered 2000 ms into a window of 600 s and gets a pending
    answer at once; the wait of 2000 ms that it begins is cut 1500 ms
    later: the cancellation error, and the token that the endpoint holds
    ready is never asked for. *)
Lemma C8_cancel_during_wait_witness :
  poll_loop "dc" "verifier" cancel_at_3500 1000000 600000 2000
            [authorization_pending 0; token_granted 0 (token_response "new" None)]
            (set_clock 1002000 (signed_out 600))
  = (Throw (Error "Authentication cancelled."),
     set_clock 1003500
       (add_event (Sleep 1002000 2000)
          (add_event (Progress "Waiting for authorization...")
             (set_clock 1002000
                (add_event (Fetch 1002000 (DevicePoll "dc" "verifier"))
                   (set_clock 1002000 (signed_out 600))))))).
Proof.
  apply (proj1 (C8_cancel_during_wait "dc" "verifier" 1003500 1000000 600000 2000 0 false
                  [token_granted 0 (token_response "new" None)]
                  (set_clock 1002000 (signed_out 600))
                  ltac:(lia) ltac:(lia) ltac:(cbn; lia) ltac:(cbn; lia))).
Defined.

(** C8, as stated, fails when the window closes during the wait: with a
    device code valid for 3 s, the wait that begins 2000 ms into the
    polling is cut by the cancellation at 3500 ms, and the flow ends with
    the timeout error, not with the cancellation error. *)
Lemma C8_timeout_wins_counterexample :
  exists s',
    startDeviceFlow cancel_at_3500
      [authorization_pending 0; authorization_pending 0;
       token_granted 0 (token_response "new" None)] (signed_out 3)
    = (Throw (Error "Authentication timed out. Please try again."), s') /\
    clock s' = 1003500 /\
    trace s' =
      [Fetch 1000000 (DeviceCodeRequest "challenge");
       Fetch 1000000 (DevicePoll "dc" "verifier"); Progress "Waiting for authorization...";
       Sleep 1000000 2000;
       Fetch 1002000 (DevicePoll "dc" "verifier"); Progress "Waiting for authorization...";
       Sleep 1002000 2000] /\
    Error "Authentication timed out. Please try again." <> Error "Authentication cancelled.".
Proof.
  eexists. split_and!; [vm_compute; reflexivity | reflexivity | reflexivity | discriminate].
Qed.

End AuthFacts.

(** * Further properties of the stream aggregator *)

Module AggregatorMore.
Import Aggregator AggregatorFacts.

#[local] Instance entry_le_transitive : Transitive entry_le.
Proof. intros a b c. unfold entry_le. lia. Qed.

#[local] Instance entry_le_is_total : Total entry_le.
Proof. intros a b. unfold entry_le. lia. Qed.

Lemma entry_elem_of (stream : list Chunk) (i : Z) (acc : Accumulator) :
  (i, acc) ∈ ordered_entries (toolCallsByIndex stream) <->
  merged i (fragments_at i stream) = Some acc.
Proof.
  rewrite ordered_entries_perm, <- toolCallsByIndex_merged. symmetry.
  apply Map_get_elem_of, toolCallsByIndex_NoDup.
Qed.

Lemma ordered_entries_NoDup (stream : list Chunk) :
  NoDup (ordered_entries (toolCallsByIndex stream)).*1.
Proof. rewrite ordered_entries_perm. apply toolCallsByIndex_NoDup. Qed.

(** The sorted entries are a function of the fragments of each index. *)
Lemma ordered_entries_ext (s1 s2 : list Chunk) :
  (forall i, fragments_at i s1 = fragments_at i s2) ->
  ordered_entries (toolCallsByIndex s1) = ordered_entries (toolCallsByIndex s2).
Proof.
  intros Hsame.
  assert (Hmem : forall e, e ∈ ordered_entries (toolCallsByIndex s1) <->
                           e ∈ ordered_entries (toolCallsByIndex s2)).
  { intros [i acc]. rewrite !entry_elem_of, Hsame. reflexivity. }
  apply (StronglySorted_unique_strong entry_le).
  - intros [i1 a1] [i2 a2] H1 H2 Hle Hge. unfold entry_le in *. cbn in *.
    assert (i1 = i2) by lia. subst i2.
    apply Hmem in H1. apply entry_elem_of in H1, H2. congruence.
  - apply StronglySorted_merge_sort; apply _.
  - apply StronglySorted_merge_sort; apply _.
  - apply NoDup_Permutation.
    + eapply NoDup_fmap_1, ordered_entries_NoDup.
    + eapply NoDup_fmap_1, ordered_entries_NoDup.
    + exact Hmem.
Qed.

(** X1: the events of a run depend on the stream only through the texts
    in arrival order and, for each index, the fragments of that index in
    arrival order: how the fragments are grouped into chunks, and how the
    fragments of different indexes are interleaved, changes nothing. *)
Theorem X1_grouping_irrelevant (parse : string -> option JsValue) (s1 s2 : list Chunk) :
  omap arriving_text s1 = omap arriving_text s2 ->
  (forall i, fragments_at i s1 = fragments_at i s2) ->
  streamChatCompletion parse s1 = streamChatCompletion parse s2.
Proof.
  intros Htexts Hfragments. rewrite !events_of_run, Htexts.
  by rewrite (ordered_entries_ext s1 s2 Hfragments).
Qed.

Lemma X1_grouping_irrelevant_witness :
  streamChatCompletion Json.parse interleaved_stream =
  streamChatCompletion Json.parse regrouped_stream.
Proof.
  apply X1_grouping_irrelevant; [reflexivity|].
  intros i. unfold fragments_at. cbn.
  destruct (decide (1 = i)), (decide (0 = i)); try reflexivity; lia.
Defined.


Lemma tool_call_event_entry (parse : string -> option JsValue) (stream : list Chunk)
    (cid nm : string) (input : JsValue) :
  tool_call cid nm input ∈ streamChatCompletion parse stream ->
  exists i acc,
    merged i (fragments_at i stream) = Some acc /\
    finalize parse acc = tool_call cid nm input.
Proof.
  rewrite events_of_run, elem_of_app. intros [Htext|Hcall].
  - apply list_elem_of_fmap in Htext as (t & Heq & _). discriminate.
  - apply list_elem_of_fmap in Hcall as ([i acc] & Heq & Hin).
    apply entry_elem_of in Hin. by exists i, acc.
Qed.

(** X2: when no fragment carries the empty string as its id, every
    tool-call event has a callId that is not empty: the last id that a
    fragment of the event's index supplied, or tool_call_<index> when none
    supplied one. *)
Theorem X2_call_ids (parse : string -> option JsValue) (stream : list Chunk) :
  (forall call, call ∈ fragments stream -> id call <> Some EmptyString) ->
  forall cid nm input,
    tool_call cid nm input ∈ streamChatCompletion parse stream ->
    cid <> EmptyString /\
    exists i,
      fragments_at i stream <> [] /\
      cid = Js.nullish (last (omap id (fragments_at i stream))) (placeholder_id i).
Proof.
  intros Hids cid nm input Hin.
  apply tool_call_event_entry in Hin as (i & acc & Hmerged & Hfinal).
  destruct (callId_rule stream i acc Hids Hmerged) as [Hid Hne].
  unfold finalize in Hfinal. injection Hfinal as <- _ _.
  split; [exact Hne|]. exists i. split; [|exact Hid].
  intros Hnil. rewrite Hnil in Hmerged. discriminate.
Qed.

Lemma X2_call_ids_witness :
  "b" <> EmptyString /\
  exists i,
    fragments_at i interleaved_stream <> [] /\
    "b" = Js.nullish (last (omap id (fragments_at i interleaved_stream))) (placeholder_id i).
Proof.
  apply (X2_call_ids Json.parse interleaved_stream) with (nm := "g") (input := JObject []).
  - intros call Hin. vm_compute in Hin.
    repeat (apply elem_of_cons in Hin as [->|Hin]; [discriminate|]).
    by apply elem_of_nil in Hin.
  - vm_compute. repeat constructor.
Defined.


End AggregatorMore.

(** * Further properties of the credential handler *)

Module JsFacts.

Lemma trimStart_nonblank (s : string) : Js.nonblank (Js.trimStart s) = Js.nonblank s.
Proof.
  induction s as [|c s IH]; [reflexivity|].
  cbn. destruct (Js.isWhiteSpace c) eqn:Hc; cbn; [exact IH | by rewrite Hc].
Qed.

Lemma reverse_nonblank (s acc : string) :
  Js.nonblank (Js.reverse s acc) = Js.nonblank s || Js.nonblank acc.
Proof.
  revert acc. induction s as [|c s IH]; intros acc; [reflexivity|].
  cbn. rewrite IH. cbn. destruct (Js.isWhiteSpace c), (Js.nonblank s); reflexivity.
Qed.

Lemma trim_nonblank (s : string) : Js.nonblank (Js.trim s) = Js.nonblank s.
Proof.
  unfold Js.trim, Js.trimEnd.
  rewrite reverse_nonblank, trimStart_nonblank, reverse_nonblank, trimStart_nonblank.
  cbn. by rewrite !orb_false_r.
Qed.

Lemma trimStart_blank (s : string) : Js.nonblank s = false -> Js.trimStart s = EmptyString.
Proof.
  induction s as [|c s IH]; [reflexivity|].
  cbn. destruct (Js.isWhiteSpace c); cbn; [exact IH | discriminate].
Qed.

(** [s.trim().length > 0] says that [s] has a character that is not white
    space. *)
Lemma trim_length (s : string) : (Js.length (Js.trim s) >? 0) = Js.nonblank s.
Proof.
  destruct (Js.nonblank s) eqn:Hs.
  - rewrite <- trim_nonblank in Hs.
    destruct (Js.trim s); [discriminate|]. unfold Js.length. cbn [String.length].
    rewrite Z.gtb_ltb. apply Z.ltb_lt. lia.
  - unfold Js.trim. rewrite (trimStart_blank s Hs). reflexivity.
Qed.

Lemma endsWith_app (s suffix : string) : Js.endsWith (s ++ suffix) suffix = true.
Proof.
  induction s as [|c s IH].
  - change (EmptyString ++ suffix)%string with suffix.
    destruct suffix; cbn; by rewrite ?String.eqb_refl, ?Ascii.eqb_refl.
  - change (String c s ++ suffix)%string with (String c (s ++ suffix)).
    cbn [Js.endsWith].
    destruct (String.eqb (String c (s ++ suffix)) suffix); [reflexivity | exact IH].
Qed.

Lemma startsWith_app (s t prefix : string) :
  Js.startsWith s prefix = true -> Js.startsWith (s ++ t) prefix = true.
Proof.
  unfold Js.startsWith. revert s.
  induction prefix as [|p prefix IH]; intros s H;
    [destruct (s ++ t)%string; reflexivity|].
  destruct s as [|c s]; [discriminate|]. cbn in *.
  destruct (ascii_dec p c); [by apply IH | discriminate].
Qed.

End JsFacts.

Module AuthMore.
Import Auth AuthFacts JsFacts.

Lemma getBaseUrl_shape (s : State) :
  Js.endsWith (getBaseUrl s) "/v1" = true /\
  (Js.startsWith (getBaseUrl s) "http://" || Js.startsWith (getBaseUrl s) "https://") = true.
Proof.
  unfold getBaseUrl.
  destruct (match credentials s with Some c => resourceUrl c | None => None end) as [url|];
    [|split; reflexivity].
  destruct (negb (Js.truthy url) || (Js.length (Js.trim url) =? 0)); [split; reflexivity|].
  set (normalized := if Js.startsWith url "http://" || Js.startsWith url "https://"
                     then url else ("https://" ++ url)%string).
  assert (Hscheme : (Js.startsWith normalized "http://" ||
                     Js.startsWith normalized "https://") = true).
  { unfold normalized.
    destruct (Js.startsWith url "http://" || Js.startsWith url "https://") eqn:H;
      [exact H|].
    apply orb_true_intro. right. unfold Js.startsWith. cbn.
    repeat (destruct (ascii_dec _ _) as [_|Hne]; [|by destruct Hne]).
    destruct url; reflexivity. }
  destruct (Js.endsWith normalized "/v1") eqn:Hend; [by split|].
  split; [apply endsWith_app|].
  apply orb_true_iff in Hscheme as [H|H]; apply orb_true_intro;
    [left | right]; by apply startsWith_app.
Qed.

(** X4: whatever the stored credential, the base URL has a scheme, http
    or https, and ends with /v1; without a credential, or with a resource
    URL that is missing, empty or blank, it is the DashScope default. *)
Theorem X4_base_url_shape (s : State) :
  Js.endsWith (getBaseUrl s) "/v1" = true /\
  (Js.startsWith (getBaseUrl s) "http://" || Js.startsWith (getBaseUrl s) "https://") = true /\
  (credentials s = None ->
   getBaseUrl s = "https://dashscope.aliyuncs.com/compatible-mode/v1") /\
  (forall c, credentials s = Some c ->
             (resourceUrl c = None \/
              exists url, resourceUrl c = Some url /\ Js.nonblank url = false) ->
             getBaseUrl s = "https://dashscope.aliyuncs.com/compatible-mode/v1").
Proof.
  destruct (getBaseUrl_shape s) as [Hend Hscheme]. split_and!; [exact Hend | exact Hscheme | |].
  - intros Hc. unfold getBaseUrl. by rewrite Hc.
  - intros c Hc [Hnone|(url & Hurl & Hblank)]; unfold getBaseUrl; rewrite Hc.
    + by rewrite Hnone.
    + rewrite Hurl. rewrite <- trim_length in Hblank.
      rewrite Z.gtb_ltb in Hblank. apply Z.ltb_ge in Hblank.
      assert (Hzero : Js.length (Js.trim url) = 0).
      { unfold Js.length in *. lia. }
      rewrite Hzero. cbn. by rewrite orb_true_r.
Qed.

Lemma X4_base_url_shape_witness :
  getBaseUrl (state_with (Some (credential "tok" 0)) true None None [] 600) =
    "https://dashscope.aliyuncs.com/compatible-mode/v1".
Proof.
  apply (proj2 (proj2 (proj2
           (X4_base_url_shape (state_with (Some (credential "tok" 0)) true None None [] 600))))
           (credential "tok" 0) eq_refl).
  left. reflexivity.
Defined.

Lemma prefix_head (p c : ascii) (ps u : string) :
  String.prefix (String p ps) (String c u) = true -> p = c.
Proof. cbn. destruct (ascii_dec p c); [auto | discriminate]. Qed.

Lemma scheme_nonblank (u : string) :
  (Js.startsWith u "http://" || Js.startsWith u "https://") = true -> Js.nonblank u = true.
Proof.
  unfold Js.startsWith. destruct u as [|c u]; [discriminate|].
  intros H. apply orb_true_iff in H as [H|H]; apply prefix_head in H; subst c; reflexivity.
Qed.

Lemma nonblank_tests (u : string) :
  Js.nonblank u = true ->
  negb (Js.truthy u) || (Js.length (Js.trim u) =? 0) = false.
Proof.
  intros Hu. pose proof (trim_length u) as Hlen. rewrite Hu in Hlen.
  rewrite Z.gtb_ltb in Hlen. apply Z.ltb_lt in Hlen.
  destruct u; [discriminate|]. cbn [Js.truthy negb orb].
  apply Z.eqb_neq. lia.
Qed.

(** X5: normalising is idempotent: a credential whose resource URL is
    already a base URL that [getBaseUrl] produced gets that URL back
    unchanged. *)
Theorem X5_base_url_idempotent (s s' : State) (c' : QwenCredentials) :
  credentials s' = Some c' ->
  resourceUrl c' = Some (getBaseUrl s) ->
  getBaseUrl s' = getBaseUrl s.
Proof.
  intros Hc Hurl. destruct (getBaseUrl_shape s) as [Hend Hscheme].
  remember (getBaseUrl s) as u eqn:Hu. clear Hu.
  unfold getBaseUrl. rewrite Hc, Hurl.
  rewrite (nonblank_tests u (scheme_nonblank u Hscheme)).
  rewrite Hscheme, Hend. reflexivity.
Qed.

Lemma X5_base_url_idempotent_witness :
  getBaseUrl (state_with (Some portal_credential) true None None [] 600) =
    "https://portal.qwen.ai/v1" /\
  getBaseUrl
    (state_with
       (Some {| accessToken := "tok"; refreshToken := "r0"; expiresAt := 2000000;
                resourceUrl := Some "https://portal.qwen.ai/v1";
                tokenType := Some "Bearer" |}) true None None [] 600) =
    getBaseUrl (state_with (Some portal_credential) true None None [] 600).
Proof.
  split; [reflexivity|].
  eapply X5_base_url_idempotent; reflexivity.
Defined.

(** X6: [isAuthenticated] holds exactly when a credential is stored whose
    access token has a character that is not white space; when it does
    not hold, [getValidAccessToken] fails at once, with one of its two
    configuration errors, and changes nothing. *)
Theorem X6_authenticated (s : State) :
  (isAuthenticated s = true <->
   exists c, credentials s = Some c /\ Js.nonblank (accessToken c) = true) /\
  (isAuthenticated s = false ->
   getValidAccessToken s =
     (Throw (Error "No credentials found. Please authenticate first."), s) \/
   getValidAccessToken s =
     (Throw (Error "Access token is empty. Please authenticate again."), s)).
Proof.
  unfold isAuthenticated. split.
  - destruct (credentials s) as [c|] eqn:Hc.
    + rewrite trim_length. split; [intros H; by exists c | intros (c' & [= <-] & H); exact H].
    + split; [discriminate | intros (c' & [=] & _)].
  - destruct (credentials s) as [c|] eqn:Hc.
    + rewrite trim_length. intros Hblank. right.
      unfold getValidAccessToken. run_monad. rewrite Hc.
      pose proof (trim_length (accessToken c)) as Hlen. rewrite Hblank in Hlen.
      rewrite Z.gtb_ltb in Hlen. apply Z.ltb_ge in Hlen.
      assert (Hzero : Js.length (Js.trim (accessToken c)) = 0)
        by (unfold Js.length in *; lia).
      rewrite Hzero. cbn. by rewrite orb_true_r.
    + intros _. left. unfold getValidAccessToken. run_monad. by rewrite Hc.
Qed.

Lemma X6_authenticated_witness :
  getValidAccessToken (state_with (Some (credential "   " 0)) true None None [] 600) =
    (Throw (Error "No credentials found. Please authenticate first."),
     state_with (Some (credential "   " 0)) true None None [] 600) \/
  getValidAccessToken (state_with (Some (credential "   " 0)) true None None [] 600) =
    (Throw (Error "Access token is empty. Please authenticate again."),
     state_with (Some (credential "   " 0)) true None None [] 600).
Proof.
  apply (proj2 (X6_authenticated
                  (state_with (Some (credential "   " 0)) true None None [] 600))).
  reflexivity.
Defined.

(** *** The credential store *)

(** The three outcomes of [saveCredentials]. *)
Lemma saveCredentials_outcomes (c : QwenCredentials) (s : State) :
  (store_healthy s ->
   saveCredentials c s =
     (Return tt,
      set_credentials (Some c)
        (if secretStorage s
         then set_vault (Some (JSON_stringify c)) s
         else set_file (Some (JSON_stringify_2 c)) s))) /\
  (secretStorage s = true ->
   forall message, vault_error s = Some message ->
   saveCredentials c s =
     (Throw (Error message), add_event (ConsoleError "Failed to save credentials:") s)) /\
  (secretStorage s = false ->
   forall code, fs_error s = Some code ->
   saveCredentials c s =
     (Throw (ErrnoException code),
      add_event (ConsoleError "Failed to save credentials:") s)).
Proof.
  unfold store_healthy, saveCredentials, secretStorage_store, fs_mkdir, fs_writeFile.
  run_monad. split_and!.
  - destruct (secretStorage s); cbn; intros Hh; rewrite Hh; cbn; [reflexivity|].
    rewrite Hh. reflexivity.
  - intros Hv message He. rewrite Hv. cbn. rewrite He. reflexivity.
  - intros Hv code He. rewrite Hv. cbn. rewrite He. reflexivity.
Qed.

(** X7: [saveCredentials] writes the store in use and nothing else: with
    a vault that accepts the write, the vault entry and the handler's
    credential change and the file does not; without a vault, the file and
    the credential change and the vault does not.  When the store in use
    refuses, the error is logged and thrown again, and the credential and
    both stores are as before. *)
Theorem X7_save_outcomes (c : QwenCredentials) (s : State) :
  (store_healthy s ->
   saveCredentials c s =
     (Return tt,
      set_credentials (Some c)
        (if secretStorage s
         then set_vault (Some (JSON_stringify c)) s
         else set_file (Some (JSON_stringify_2 c)) s))) /\
  (secretStorage s = true ->
   forall message, vault_error s = Some message ->
   saveCredentials c s =
     (Throw (Error message), add_event (ConsoleError "Failed to save credentials:") s)) /\
  (secretStorage s = false ->
   forall code, fs_error s = Some code ->
   saveCredentials c s =
     (Throw (ErrnoException code),
      add_event (ConsoleError "Failed to save credentials:") s)).
Proof. apply saveCredentials_outcomes. Qed.

Lemma X7_save_outcomes_witness :
  saveCredentials portal_credential file_state =
    (Return tt,
     set_credentials (Some portal_credential)
       (set_file (Some (JSON_stringify_2 portal_credential)) file_state)).
Proof.
  apply (proj1 (X7_save_outcomes portal_credential file_state)). reflexivity.
Defined.

Section Loading.

Variable parse : string -> Parsed.

Lemma saved_state (c : QwenCredentials) (s : State) :
  (saveCredentials c s).1 = Return tt ->
  store_healthy s /\
  (saveCredentials c s).2 =
    set_credentials (Some c)
      (if secretStorage s
       then set_vault (Some (JSON_stringify c)) s
       else set_file (Some (JSON_stringify_2 c)) s).
Proof.
  intros Hret. destruct (saveCredentials_outcomes c s) as (Hok & Hvault & Hfile).
  unfold store_healthy in *.
  destruct (secretStorage s) eqn:Hv.
  - destruct (vault_error s) as [message|] eqn:He.
    + rewrite (Hvault eq_refl message eq_refl) in Hret. discriminate.
    + split; [reflexivity|]. by rewrite (Hok eq_refl).
  - destruct (fs_error s) as [code|] eqn:He.
    + rewrite (Hfile eq_refl code eq_refl) in Hret. discriminate.
    + split; [reflexivity|]. by rewrite (Hok eq_refl).
Qed.

(** X8: what [saveCredentials] stored, [loadCredentials] gives back: after
    a save that returned, a load returns the saved credential and leaves
    the state as the save left it, with or without a vault. *)
Theorem X8_save_then_load (c : QwenCredentials) (s : State) :
  (saveCredentials c s).1 = Return tt ->
  loadCredentials parse (saveCredentials c s).2 =
    (Return (Some c), (saveCredentials c s).2).
Proof.
  intros Hret. destruct (saved_state c s Hret) as [Hh ->].
  unfold store_healthy in Hh.
  destruct (secretStorage s) eqn:Hv;
    unfold loadCredentials, secretStorage_get, fs_readFile, assign_parsed,
      secretStorage_store;
    run_monad; rewrite Hv; cbn; rewrite Hh; reflexivity.
Qed.

(** Loading from the file into an empty vault. *)
Lemma load_mirrors (s : State) (t : StoredText) (c : QwenCredentials) :
  secretStorage s = true -> vault_error s = None -> vault s = None ->
  fs_error s = None -> file s = Some t ->
  JSON_parse_stored parse t = ParsedCredentials c ->
  loadCredentials parse s =
    (Return (Some c), set_vault (Some (JSON_stringify c)) (set_credentials (Some c) s)).
Proof.
  intros Hv Hve Hvault Hfe Hfile Hparse.
  unfold loadCredentials, secretStorage_get, fs_readFile, assign_parsed, secretStorage_store.
  run_monad. rewrite Hv, Hve. cbn. rewrite Hvault. cbn. rewrite Hfe. cbn.
  rewrite Hfile. cbn. rewrite Hparse. cbn. rewrite Hve. reflexivity.
Qed.

(** X9: with nothing stored, [loadCredentials] returns null quietly: the
    file is missing and the vault, if there is one, has no entry (or an
    empty one); nothing is logged and the handler keeps what it had. *)
Theorem X9_load_nothing (s : State) :
  fs_error s = None -> file s = None ->
  (secretStorage s = false \/
   (vault_error s = None /\ (vault s = None \/ vault s = Some (OtherText EmptyString)))) ->
  loadCredentials parse s = (Return None, s).
Proof.
  intros Hfe Hfile Hvault.
  unfold loadCredentials, secretStorage_get, fs_readFile. run_monad.
  destruct Hvault as [Hv|[Hve [Hnone|Hempty]]].
  - rewrite Hv. cbn. rewrite Hfe. cbn. rewrite Hfile. reflexivity.
  - destruct (secretStorage s); cbn; rewrite ?Hve; cbn; rewrite ?Hnone; cbn;
      rewrite Hfe; cbn; rewrite Hfile; reflexivity.
  - destruct (secretStorage s); cbn; rewrite ?Hve; cbn; rewrite ?Hempty; cbn;
      rewrite Hfe; cbn; rewrite Hfile; reflexivity.
Qed.

(** X10: with a vault that has no entry, a credential read from the file
    is copied into the vault: the load returns it, the handler holds it,
    the vault holds its serialisation, and the file stays. *)
Theorem X10_load_mirrors (s : State) (t : StoredText) (c : QwenCredentials) :
  secretStorage s = true -> vault_error s = None -> vault s = None ->
  fs_error s = None -> file s = Some t ->
  JSON_parse_stored parse t = ParsedCredentials c ->
  loadCredentials parse s =
    (Return (Some c), set_vault (Some (JSON_stringify c)) (set_credentials (Some c) s)).
Proof. apply load_mirrors. Qed.

(** X11: a logout does not outlast a credential file: with a vault in
    use, after [clearCredentials] the next [loadCredentials] reads the
    file that the logout left, signs the handler in again and writes the
    vault entry back. *)
Theorem X11_logout_undone_by_file (s : State) (t : StoredText) (c : QwenCredentials) :
  secretStorage s = true -> vault_error s = None ->
  fs_error s = None -> file s = Some t ->
  JSON_parse_stored parse t = ParsedCredentials c ->
  credentials (clearCredentials s).2 = None /\
  vault (clearCredentials s).2 = None /\
  exists s',
    loadCredentials parse (clearCredentials s).2 = (Return (Some c), s') /\
    credentials s' = Some c /\
    vault s' = Some (JSON_stringify c) /\
    file s' = Some t.
Proof.
  intros Hv Hve Hfe Hfile Hparse.
  destruct (clearCredentials_spec s) as (_ & Hss & Hve' & Hfe' & Hcleared & _).
  destruct (Hcleared Hv Hve) as (Hvault1 & Hfile1 & Hcred1).
  split_and!; [exact Hcred1 | exact Hvault1 |].
  eexists. split; [apply (load_mirrors _ t c); congruence|].
  cbn. split_and!; [reflexivity | reflexivity | congruence].
Qed.

(** X12: a vault entry that is not empty decides the load, and the file
    is not read, whatever it holds: an entry that parses gives its
    credential; an entry that does not parse gives null with the error
    logged, and the handler keeps what it had. *)
Theorem X12_vault_entry_decides (s : State) (t : StoredText) :
  secretStorage s = true -> vault_error s = None ->
  vault s = Some t -> stored_truthy t = true ->
  (forall c, JSON_parse_stored parse t = ParsedCredentials c ->
             loadCredentials parse s = (Return (Some c), set_credentials (Some c) s)) /\
  (JSON_parse_stored parse t = ParseThrows ->
   loadCredentials parse s =
     (Return None, add_event (ConsoleError "Failed to load credentials:") s)).
Proof.
  intros Hv Hve Hvault Htruthy.
  unfold loadCredentials, secretStorage_get, assign_parsed. run_monad.
  rewrite Hv, Hve. cbn. rewrite Hvault. cbn. rewrite Htruthy.
  split; [intros c Hparse | intros Hparse]; rewrite Hparse; reflexivity.
Qed.

End Loading.

Lemma X8_save_then_load_witness :
  loadCredentials (fun _ => ParseThrows)
                  (saveCredentials portal_credential file_state).2 =
    (Return (Some portal_credential), (saveCredentials portal_credential file_state).2).
Proof. apply X8_save_then_load. reflexivity. Defined.

Lemma X9_load_nothing_witness :
  loadCredentials (fun _ => ParseThrows) (signed_out 600) = (Return None, signed_out 600).
Proof.
  apply X9_load_nothing; [reflexivity | reflexivity |].
  right. split; [reflexivity | left; reflexivity].
Defined.

Lemma X10_load_mirrors_witness :
  loadCredentials (fun _ => ParseThrows)
    (state_with None true None (Some (JSON_stringify_2 portal_credential)) [] 600) =
    (Return (Some portal_credential),
     set_vault (Some (JSON_stringify portal_credential))
       (set_credentials (Some portal_credential)
          (state_with None true None (Some (JSON_stringify_2 portal_credential)) [] 600))).
Proof.
  apply (X10_load_mirrors (fun _ => ParseThrows) _ (JSON_stringify_2 portal_credential));
    reflexivity.
Defined.

Lemma X11_logout_undone_by_file_witness :
  exists s',
    loadCredentials (fun _ => ParseThrows) (clearCredentials mirrored_state).2 =
      (Return (Some (credential "tok" 2000000)), s') /\
    credentials s' = Some (credential "tok" 2000000) /\
    vault s' = Some (JSON_stringify (credential "tok" 2000000)) /\
    file s' = Some (JSON_stringify_2 (credential "tok" 2000000)).
Proof.
  apply (X11_logout_undone_by_file (fun _ => ParseThrows) mirrored_state
           (JSON_stringify_2 (credential "tok" 2000000)) (credential "tok" 2000000));
    reflexivity.
Defined.

Lemma X12_vault_entry_decides_witness :
  loadCredentials (fun _ => ParseThrows) corrupt_vault_state =
    (Return None,
     add_event (ConsoleError "Failed to load credentials:") corrupt_vault_state).
Proof.
  apply (proj2 (X12_vault_entry_decides (fun _ => ParseThrows) corrupt_vault_state
                  (OtherText "{truncated") eq_refl eq_refl eq_refl eq_refl)).
  reflexivity.
Defined.

(** X13: a logout removes what a save stored: after a
    [saveCredentials] that returned, [clearCredentials] leaves the handler
    signed out and the store in use without a record; the other store is
    as it was before the save. *)
Theorem X13_save_then_clear (c : QwenCredentials) (s : State) :
  (saveCredentials c s).1 = Return tt ->
  credentials (clearCredentials (saveCredentials c s).2).2 = None /\
  isAuthenticated (clearCredentials (saveCredentials c s).2).2 = false /\
  (if secretStorage s
   then vault (clearCredentials (saveCredentials c s).2).2 = None /\
        file (clearCredentials (saveCredentials c s).2).2 = file s
   else file (clearCredentials (saveCredentials c s).2).2 = None /\
        vault (clearCredentials (saveCredentials c s).2).2 = vault s).
Proof.
  intros Hret. destruct (saved_state c s Hret) as [Hh Hstate]. rewrite Hstate.
  unfold store_healthy in Hh.
  match goal with
  | |- context [clearCredentials ?s1] =>
      destruct (clearCredentials_spec s1) as (_ & _ & _ & _ & Hvault & Hfile & _ & _)
  end.
  destruct (secretStorage s) eqn:Hv.
  - destruct Hvault as (H1 & H2 & H3); [exact Hv | exact Hh |].
    split_and!; [exact H3 | by apply not_authenticated | exact H1 | exact H2].
  - destruct Hfile as (H1 & H2 & H3); [exact Hv | exact Hh | discriminate |].
    split_and!; [exact H3 | by apply not_authenticated | exact H1 | exact H2].
Qed.

Lemma X13_save_then_clear_witness :
  credentials (clearCredentials (saveCredentials portal_credential file_state).2).2 = None /\
  isAuthenticated (clearCredentials (saveCredentials portal_credential file_state).2).2
    = false /\
  file (clearCredentials (saveCredentials portal_credential file_state).2).2 = None /\
  vault (clearCredentials (saveCredentials portal_credential file_state).2).2 = None.
Proof.
  exact (X13_save_then_clear portal_credential file_state eq_refl).
Defined.

(** *** Refreshing *)

(** The state after the refresh request has been answered. *)
Lemma refresh_answered (s : State) (c : QwenCredentials) (latency : Z)
    (settled : Settled QwenTokenResponse) (rest : list (Reply QwenTokenResponse)) :
  credentials s = Some c ->
  refresh_replies s = (latency, settled) :: rest ->
  let answered :=
    set_clock (clock s + latency)
      (add_event (Fetch (clock s) (RefreshRequest (refreshToken c)))
         (set_refresh_replies rest s)) in
  (forall message,
      settled = Rejects message ->
      refreshAccessToken s =
        (Throw (Error message),
         add_event (ConsoleError "Failed to refresh token:") answered)) /\
  (forall response,
      settled = Responds response -> ok response = false ->
      refreshAccessToken s =
        (Throw (Error ("Token refresh failed: " ++ statusText response)),
         add_event (ConsoleError "Failed to refresh token:") answered)) /\
  (forall response,
      settled = Responds response -> ok response = true -> json response = None ->
      refreshAccessToken s =
        (Throw SyntaxError, add_event (ConsoleError "Failed to refresh token:") answered)) /\
  (forall response data,
      settled = Responds response -> ok response = true -> json response = Some data ->
      store_healthy s ->
      refreshAccessToken s =
        (Return tt,
         set_credentials (Some (refreshed c data (clock s + latency)))
           (if secretStorage s
            then set_vault (Some (JSON_stringify (refreshed c data (clock s + latency))))
                           answered
            else set_file (Some (JSON_stringify_2 (refreshed c data (clock s + latency))))
                          answered))).
Proof.
  intros Hc Hr answered. unfold refreshAccessToken, fetch. run_monad. rewrite Hc, Hr. cbn.
  split_and!.
  - intros message ->. reflexivity.
  - intros response -> Hok. cbn. rewrite Hok. reflexivity.
  - intros response -> Hok Hjson. cbn. rewrite Hok. cbn. rewrite Hjson. reflexivity.
  - intros response data -> Hok Hjson Hh. cbn. rewrite Hok. cbn. rewrite Hjson. cbn.
    rewrite refreshToken_kept.
    change {| accessToken := access_token data;
              refreshToken := match refresh_token data with
                              | Some (String c0 rest0) => String c0 rest0
                              | _ => refreshToken c
                              end;
              expiresAt := clock s + latency + expires_in data * 1000;
              resourceUrl := resource_url data;
              tokenType := Some (token_type data) |}
      with (refreshed c data (clock s + latency)).
    match goal with
    | |- context [saveCredentials ?u ?s1] =>
        rewrite (proj1 (saveCredentials_outcomes u s1)) by exact Hh
    end.
    reflexivity.
Qed.

(** X14: a refresh that fails leaves the handler as it was: when the
    refresh is due and the request is rejected, or answered with an HTTP
    error, or with a body that is not JSON, [getValidAccessToken] throws
    (the rejection, "Token refresh failed: <status text>", or the syntax
    error), and the stored credential and both stores are unchanged; one
    request was sent and one answer consumed. *)
Theorem X14_refresh_failure (s : State) (c : QwenCredentials) (latency : Z)
    (settled : Settled QwenTokenResponse) (rest : list (Reply QwenTokenResponse)) :
  credentials s = Some c ->
  0 < Js.length (Js.trim (accessToken c)) ->
  expiresAt c - clock s < 30000 ->
  refresh_replies s = (latency, settled) :: rest ->
  match settled with
  | Rejects _ => True
  | Responds response => ok response = false \/ json response = None
  end ->
  exists s',
    getValidAccessToken s =
      (Throw match settled with
             | Rejects message => Error message
             | Responds response =>
                 if ok response then SyntaxError
                 else Error ("Token refresh failed: " ++ statusText response)
             end, s') /\
    credentials s' = Some c /\ vault s' = vault s /\ file s' = file s /\
    refresh_replies s' = rest /\
    fetches (trace s') =
      (fetches (trace s) ++ [(clock s, RefreshRequest (refreshToken c))])%list.
Proof.
  intros Hc Hlen Hdue Hr Hfail.
  rewrite (getValidAccessToken_unfold s c Hc Hlen).
  apply Z.ltb_lt in Hdue. rewrite Hdue.
  destruct (refresh_answered s c latency settled rest Hc Hr)
    as (Hrejects & Herror & Hsyntax & _).
  destruct settled as [message|response].
  - rewrite (Hrejects message eq_refl). eexists. split; [reflexivity|].
    cbn. rewrite !fetches_app. cbn. rewrite app_nil_r. by rewrite Hc.
  - destruct (ok response) eqn:Hok.
    + destruct Hfail as [Hfalse|Hjson]; [discriminate|].
      rewrite (Hsyntax response eq_refl Hok Hjson). eexists. split; [reflexivity|].
      cbn. rewrite !fetches_app. cbn. rewrite app_nil_r. by rewrite Hc.
    + rewrite (Herror response eq_refl Hok). eexists. split; [reflexivity|].
      cbn. rewrite !fetches_app. cbn. rewrite app_nil_r. by rewrite Hc.
Qed.

Lemma X14_refresh_failure_witness :
  exists s',
    getValidAccessToken unauthorized_state =
      (Throw (Error "Token refresh failed: Unauthorized"), s') /\
    credentials s' = Some (credential "tok" 1029999).
Proof.
  destruct
    (X14_refresh_failure unauthorized_state (credential "tok" 1029999) 5
       (Responds {| ok := false; status := 401; statusText := "Unauthorized";
                    text := "denied"; json := None |}) []
       eq_refl eq_refl eq_refl eq_refl (or_introl eq_refl))
    as (s' & Hget & Hcred & _).
  exists s'. by split.
Defined.

(** X15: a refreshed token is not refreshed again while it is fresh: after
    a successful refresh whose token lives at least 30 s, the next call
    returns the same token and changes nothing; when the token lives less
    than 30 s, the next call sends a refresh request again. *)
Theorem X15_refresh_then_call (s : State) (c : QwenCredentials) (latency : Z)
    (response : Response QwenTokenResponse) (data : QwenTokenResponse)
    (rest : list (Reply QwenTokenResponse)) :
  credentials s = Some c ->
  0 < Js.length (Js.trim (accessToken c)) ->
  expiresAt c - clock s < 30000 ->
  refresh_replies s = (latency, Responds response) :: rest ->
  ok response = true -> json response = Some data ->
  store_healthy s ->
  0 < Js.length (Js.trim (access_token data)) ->
  exists s1,
    getValidAccessToken s = (Return (access_token data), s1) /\
    (30000 <= expires_in data * 1000 ->
     getValidAccessToken s1 = (Return (access_token data), s1)) /\
    (expires_in data * 1000 < 30000 ->
     fetches (trace (getValidAccessToken s1).2) =
       (fetches (trace s1) ++
        [(clock s1, RefreshRequest (refreshToken (refreshed c data (clock s + latency))))])%list).
Proof.
  intros Hc Hlen Hdue Hr Hok Hjson Hh Hnew.
  rewrite (getValidAccessToken_unfold s c Hc Hlen).
  apply Z.ltb_lt in Hdue. rewrite Hdue.
  destruct (refresh_answered s c latency (Responds response) rest Hc Hr)
    as (_ & _ & _ & Hgood).
  rewrite (Hgood response data eq_refl Hok Hjson Hh).
  cbn [credentials set_credentials].
  eexists. split; [reflexivity|].
  match goal with
  | |- context [getValidAccessToken ?s1] =>
      assert (Hc1 : credentials s1 = Some (refreshed c data (clock s + latency)))
        by reflexivity;
      assert (Hclock : clock s1 = clock s + latency)
        by (destruct (secretStorage s); reflexivity);
      pose proof (getValidAccessToken_unfold s1 _ Hc1 Hnew) as Hnext;
      destruct (refreshAccessToken_spec s1 _ Hc1) as (events & Htrace & Hfetch & _)
  end.
  rewrite Hclock in Hnext.
  change (expiresAt (refreshed c data (clock s + latency)))
    with (clock s + latency + expires_in data * 1000) in Hnext.
  split.
  - intros Hfresh. rewrite Hnext.
    destruct (clock s + latency + expires_in data * 1000 - (clock s + latency) <? 30000)
      eqn:Hlt; [lia | reflexivity].
  - intros Hshort. rewrite Hnext.
    destruct (clock s + latency + expires_in data * 1000 - (clock s + latency) <? 30000)
      eqn:Hlt; [|lia].
    match goal with
    | |- context [refreshAccessToken ?s1] =>
        assert (Hsame : trace (match refreshAccessToken s1 with
                               | (Return _, s') =>
                                   match credentials s' with
                                   | Some c' => (Return (accessToken c'), s')
                                   | None => (Throw TypeError, s')
                                   end
                               | (Throw e, s') => (Throw e, s')
                               end).2 = trace (refreshAccessToken s1).2);
        [destruct (refreshAccessToken s1) as [[[]|e] s']; cbn; [|reflexivity];
         destruct (credentials s'); reflexivity|]
    end.
    rewrite Hsame, Htrace, fetches_app.
    match goal with
    | |- (fetches _ ++ fetches (Fetch ?t ?r :: events))%list = _ =>
        change (fetches (Fetch t r :: events)) with ((t, r) :: fetches events)
    end.
    rewrite Hfetch, Hclock. reflexivity.
Qed.

Lemma X15_refresh_then_call_witness :
  exists s1,
    getValidAccessToken stale_state = (Return "new", s1) /\
    getValidAccessToken s1 = (Return "new", s1).
Proof.
  destruct
    (X15_refresh_then_call stale_state (credential "tok" 1029999) 5
       {| ok := true; status := 200; statusText := "OK"; text := "token";
          json := Some (token_response "new" None) |}
       (token_response "new" None) []
       eq_refl eq_refl eq_refl eq_refl eq_refl eq_refl eq_refl eq_refl)
    as (s1 & Hfirst & Hfresh & _).
  exists s1. split; [exact Hfirst|]. apply Hfresh. vm_compute. discriminate.
Defined.

(** *** More of the device flow *)

#[local] Arguments pollDeviceToken : simpl never.
#[local] Arguments sleep : simpl never.

Lemma poll_loop_expired (dc cv : string) (token : option CancellationToken)
    (pollStart timeoutMs interval : Z) (polls : list (Reply PollBody)) (s : State) :
  timeoutMs <= clock s - pollStart ->
  poll_loop dc cv token pollStart timeoutMs interval polls s =
    (Throw (Error "Authentication timed out. Please try again."), s).
Proof.
  intros Hover. apply Z.ltb_ge in Hover.
  destruct polls; cbn [poll_loop]; unfold bind at 1, Date_now, bind at 1, get, ret;
    cbn [clock]; rewrite Hover; reflexivity.
Qed.

Lemma poll_loop_times_out (dc cv : string) (token : option CancellationToken)
    (pollStart timeoutMs : Z) (signals : list (Z * bool)) :
  never_cancelled token ->
  Forall (fun signal => 0 <= signal.1) signals ->
  forall (interval : Z) (s : State),
    2000 <= interval <= 10000 ->
    timeoutMs - (clock s - pollStart) <= 2000 * Z.of_nat (length signals) ->
    exists s',
      poll_loop dc cv token pollStart timeoutMs interval (map throttled signals) s =
        (Throw (Error "Authentication timed out. Please try again."), s') /\
      only_time_passed s s'.
Proof.
  intros Hnever Hnonneg.
  induction Hnonneg as [|[l b] signals Hl Hrest IH]; intros interval s Hint Hwin.
  - cbn in Hwin. cbn [map]. rewrite poll_loop_expired by lia.
    exists s. split; [reflexivity | by repeat split].
  - destruct (Z.lt_ge_cases (clock s - pollStart) timeoutMs) as [Hopen|Hclosed].
    2:{ rewrite poll_loop_expired by lia.
        exists s. split; [reflexivity | by repeat split]. }
    cbn [fst] in Hl. cbn [length] in Hwin. rewrite Nat2Z.inj_succ in Hwin.
    cbn [map]. rewrite poll_loop_pending; [|exact Hopen|apply Hnever]. cbn [snd fst].
    set (next := if b then slowed interval else interval).
    assert (Hnext : 2000 <= next <= 10000).
    { unfold next. destruct b; [by apply slowed_bounds | exact Hint]. }
    unfold bind at 1. rewrite sleep_spec by lia.
    rewrite wake_time_never by exact Hnever.
    match goal with
    | |- context [poll_loop _ _ _ _ _ next _ ?s2] =>
        destruct (IH next s2 Hnext) as (s' & Hout & Hframe);
        [cbn [clock set_clock add_event]; lia|]
    end.
    exists s'. split; [exact Hout | exact Hframe].
Qed.

(** X16: a token endpoint that only ever answers pending or slow-down
    makes a flow that is not cancelled end with the timeout error, once
    its answers outlast the window (one answer per 2000 ms of window), and
    the flow leaves the credential and the stores untouched. *)
Theorem X16_pending_until_timeout (s : State) (token : option CancellationToken)
    (l0 : Z) (deviceAuth : DeviceAuthorizationData) (signals : list (Z * bool)) :
  device_authorization s = (l0, inr deviceAuth) ->
  never_cancelled token ->
  Forall (fun signal => 0 <= signal.1) signals ->
  device_expires_in deviceAuth * 1000 <= 2000 * Z.of_nat (length signals) ->
  exists s',
    startDeviceFlow token (map throttled signals) s =
      (Throw (Error "Authentication timed out. Please try again."), s') /\
    only_time_passed s s'.
Proof.
  intros Hda Hnever Hnonneg Hlong.
  rewrite (startDeviceFlow_unfold _ _ _ _ _ Hda).
  match goal with
  | |- context [poll_loop ?dc ?cv _ ?start ?timeout 2000 _ ?s0] =>
      destruct (poll_loop_times_out dc cv token start timeout signals Hnever Hnonneg 2000 s0)
        as (s' & Hout & Hframe); [lia | cbn [clock set_clock add_event]; lia |]
  end.
  exists s'. split; [exact Hout | exact Hframe].
Qed.

Lemma X16_pending_until_timeout_witness :
  exists s',
    startDeviceFlow None
      (map throttled [(100, false); (100, true); (100, false)]) (signed_out 6) =
      (Throw (Error "Authentication timed out. Please try again."), s') /\
    only_time_passed (signed_out 6) s'.
Proof.
  apply (X16_pending_until_timeout (signed_out 6) None 0 (device 6)
           [(100, false); (100, true); (100, false)]);
    [reflexivity | intros now; reflexivity | repeat constructor; cbn; lia | cbn; lia].
Defined.

(** X17: the flow polls nothing when it cannot begin: with a device code
    whose lifetime is zero or negative it ends with the timeout error, and
    with a cancellation requested by the time the device authorization has
    arrived (and a window still open) it ends with the cancellation error;
    in both cases the only request sent is the device-code request. *)
Theorem X17_no_poll (s : State) (polls : list (Reply PollBody))
    (l0 : Z) (deviceAuth : DeviceAuthorizationData) :
  device_authorization s = (l0, inr deviceAuth) ->
  let arrived :=
    set_clock (clock s + l0) (add_event (Fetch (clock s) (DeviceCodeRequest (pkce s).2)) s) in
  (device_expires_in deviceAuth <= 0 ->
   forall token,
     startDeviceFlow token polls s =
       (Throw (Error "Authentication timed out. Please try again."), arrived)) /\
  (0 < device_expires_in deviceAuth ->
   forall cancelled, cancelled <= clock s + l0 ->
     startDeviceFlow (Some {| requestedAt := Some cancelled |}) polls s =
       (Throw (Error "Authentication cancelled."), arrived)).
Proof.
  intros Hda arrived. subst arrived. split.
  - intros Hexpired token. rewrite (startDeviceFlow_unfold _ _ _ _ _ Hda).
    apply poll_loop_expired. cbn [clock set_clock add_event]. lia.
  - intros Hvalid cancelled Hcancelled. rewrite (startDeviceFlow_unfold _ _ _ _ _ Hda).
    rewrite poll_loop_cancelled by (cbn [clock set_clock add_event]; lia).
    cbn [clock set_clock add_event].
    destruct (clock s + l0 - (clock s + l0) <? device_expires_in deviceAuth * 1000) eqn:Hlt;
      [reflexivity | lia].
Qed.

Lemma X17_no_poll_witness :
  startDeviceFlow None [token_granted 0 (token_response "new" None)] (signed_out 0) =
    (Throw (Error "Authentication timed out. Please try again."),
     set_clock 1000000 (add_event (Fetch 1000000 (DeviceCodeRequest "challenge"))
                                  (signed_out 0))).
Proof.
  apply (proj1 (X17_no_poll (signed_out 0) [token_granted 0 (token_response "new" None)]
                  0 (device 0) eq_refl)).
  cbn. lia.
Defined.

(** X18: a cancellation requested while a poll is in flight is honoured
    right after that poll when the answer is pending: the wait that
    follows ends at once and the loop throws the cancellation error (the
    window being still open) without a further request; but when the
    answer is the token, the flow returns the credential all the same. *)
Theorem X18_cancel_during_poll (dc cv : string) (cancelled pollStart timeoutMs interval : Z)
    (latency : Z) (rest : list (Reply PollBody)) (s : State) :
  2000 <= interval <= 10000 ->
  clock s < cancelled <= clock s + latency ->
  clock s + latency - pollStart < timeoutMs ->
  (forall slow : bool,
      let next := if slow then slowed interval else interval in
      poll_loop dc cv (Some {| requestedAt := Some cancelled |}) pollStart timeoutMs interval
                (throttled (latency, slow) :: rest) s =
        (Throw (Error "Authentication cancelled."),
         set_clock (clock s + latency)
           (add_event (Sleep (clock s + latency) next)
              (add_event (Progress "Waiting for authorization...")
                 (set_clock (clock s + latency)
                    (add_event (Fetch (clock s) (DevicePoll dc cv)) s)))))) /\
  (forall t : QwenTokenResponse,
      poll_loop dc cv (Some {| requestedAt := Some cancelled |}) pollStart timeoutMs interval
                (token_granted latency t :: rest) s =
        (Return {| accessToken := access_token t;
                   refreshToken := Js.nullish (refresh_token t) EmptyString;
                   tokenType := Some (token_type t);
                   resourceUrl := resource_url t;
                   expiresAt := clock s + latency + expires_in t * 1000 |},
         set_clock (clock s + latency) (add_event (Fetch (clock s) (DevicePoll dc cv)) s))).
Proof.
  intros Hint Hduring Hopen.
  assert (Hnot : isCancellationRequested (Some {| requestedAt := Some cancelled |}) (clock s)
                 = false) by (cbn; lia).
  split.
  - intros slow next.
    rewrite poll_loop_pending; [|lia|exact Hnot]. cbn [fst snd]. fold next.
    assert (Hnext : 2000 <= next <= 10000).
    { unfold next. destruct slow; [by apply slowed_bounds | exact Hint]. }
    unfold bind at 1. rewrite sleep_spec by lia.
    cbn [clock set_clock add_event].
    assert (Hwake : wake_time (Some {| requestedAt := Some cancelled |})
                              (clock s + latency) next = clock s + latency).
    { cbn. destruct (cancelled <? clock s + latency + next) eqn:Hlt; lia. }
    rewrite Hwake.
    rewrite poll_loop_cancelled by (cbn [clock set_clock add_event]; lia).
    cbn [clock set_clock add_event].
    destruct (clock s + latency - pollStart <? timeoutMs) eqn:Hlt; [reflexivity | lia].
  - intros t. apply poll_loop_granted_now; [lia | exact Hnot].
Qed.

Lemma X18_cancel_during_poll_witness :
  poll_loop "dc" "verifier" cancel_at_3500 1000000 600000 2000
            [authorization_pending 1000; token_granted 0 (token_response "new" None)]
            (set_clock 1003000 (signed_out 600)) =
    (Throw (Error "Authentication cancelled."),
     set_clock 1004000
       (add_event (Sleep 1004000 2000)
          (add_event (Progress "Waiting for authorization...")
             (set_clock 1004000
                (add_event (Fetch 1003000 (DevicePoll "dc" "verifier"))
                           (set_clock 1003000 (signed_out 600))))))).
Proof.
  apply (proj1 (X18_cancel_during_poll "dc" "verifier" 1003500 1000000 600000 2000 1000
                  [token_granted 0 (token_response "new" None)]
                  (set_clock 1003000 (signed_out 600))
                  ltac:(lia) ltac:(cbn; lia) ltac:(cbn; lia)) false).
Defined.

Lemma only_time_passed_refl (s : State) : only_time_passed s s.
Proof. by repeat split. Qed.

Lemma only_time_passed_trans (s1 s2 s3 : State) :
  only_time_passed s1 s2 -> only_time_passed s2 s3 -> only_time_passed s1 s3.
Proof. unfold only_time_passed. intros H12 H23. destruct_and!. split_and!; congruence. Qed.

Lemma pollDeviceToken_state (dc cv : string) (reply : Reply PollBody) (s : State) :
  (pollDeviceToken dc cv reply s).2 =
    set_clock (clock s + reply.1) (add_event (Fetch (clock s) (DevicePoll dc cv)) s).
Proof.
  unfold pollDeviceToken, fetch. run_monad.
  destruct reply as [latency [message|response]]; cbn; [reflexivity|].
  destruct (ok response); cbn.
  - destruct (json response); reflexivity.
  - destruct (json response) as [errorData|]; cbn; [|reflexivity].
    destruct (status response =? 400); cbn.
    + destruct (body_error errorData) as [e|]; cbn.
      * destruct (String.eqb e "authorization_pending"); cbn; [reflexivity|].
        destruct (status response =? 429); cbn; [|reflexivity].
        destruct (String.eqb e "slow_down"); reflexivity.
      * destruct (status response =? 429); reflexivity.
    + destruct (status response =? 429); cbn; [|reflexivity].
      destruct (body_error errorData) as [e|]; cbn; [|reflexivity].
      destruct (String.eqb e "slow_down"); reflexivity.
Qed.

Lemma poll_loop_frame (dc cv : string) (token : option CancellationToken)
    (pollStart timeoutMs : Z) (polls : list (Reply PollBody)) :
  forall (interval : Z) (s : State),
    only_time_passed s (poll_loop dc cv token pollStart timeoutMs interval polls s).2.
Proof.
  induction polls as [|reply rest IH]; intros interval s;
    cbn [poll_loop]; unfold bind at 1, Date_now, bind at 1, get, ret; cbn [clock];
    (destruct (clock s - pollStart <? timeoutMs); [|apply only_time_passed_refl]);
    (destruct (isCancellationRequested token (clock s)); [apply only_time_passed_refl|]);
    unfold bind at 1.
  - pose proof (pollDeviceToken_state dc cv (0, Rejects "fetch failed") s) as Hst.
    destruct (pollDeviceToken dc cv (0, Rejects "fetch failed") s) as [[body|e] s1];
      cbn in Hst |- *; subst s1; by repeat split.
  - pose proof (pollDeviceToken_state dc cv reply s) as Hst.
    destruct (pollDeviceToken dc cv reply s) as [[body|e] s1]; cbn [snd] in Hst.
    2:{ cbn. subst s1. by repeat split. }
    assert (Hs1 : only_time_passed s s1) by (subst s1; by repeat split).
    destruct (isDeviceTokenPending body).
    + unfold bind at 1, modify at 1. unfold bind at 1.
      set (next := if body_slowDown body then slowed interval else interval).
      unfold sleep. destruct (next <=? 0).
      * unfold ret at 1.
        eapply only_time_passed_trans; [|apply IH].
        eapply only_time_passed_trans; [exact Hs1 | by repeat split].
      * unfold bind at 1, get at 1. unfold bind at 1, modify at 1. unfold modify at 1.
        eapply only_time_passed_trans; [|apply IH].
        eapply only_time_passed_trans; [exact Hs1 | by repeat split].
    + destruct (isDeviceTokenError body); [exact Hs1|].
      destruct (body_token body); exact Hs1.
Qed.

Lemma poll_flow_frame (s : State) (token : option CancellationToken)
    (polls : list (Reply PollBody)) :
  only_time_passed s (startDeviceFlow token polls s).2.
Proof.
  destruct (device_authorization s) as [l0 [e|deviceAuth]] eqn:Hda.
  - unfold startDeviceFlow, generatePkcePair, requestDeviceAuthorization.
    unfold bind at 1, bind at 1, get, ret.
    unfold bind at 1, bind at 1. unfold bind at 1, modify at 1.
    unfold bind at 1, modify at 1. rewrite Hda. cbn. by repeat split.
  - rewrite (startDeviceFlow_unfold _ _ _ _ _ Hda).
    eapply only_time_passed_trans; [|apply poll_loop_frame]. by repeat split.
Qed.

(** A cancellation that is not requested by some time was not requested
    before, and a wait that ends before it is not cut. *)
Lemma not_requested_before (token : option CancellationToken) (earlier later : Z) :
  earlier <= later ->
  isCancellationRequested token later = false ->
  isCancellationRequested token earlier = false.
Proof.
  intros Hle. destruct token as [[[t|]]|]; cbn; [|reflexivity|reflexivity].
  intros Hlater. apply Z.leb_gt in Hlater. apply Z.leb_gt. lia.
Qed.

Lemma wake_time_not_requested (token : option CancellationToken) (now ms : Z) :
  isCancellationRequested token (now + ms) = false -> wake_time token now ms = now + ms.
Proof.
  destruct token as [[[t|]]|]; cbn; [|reflexivity|reflexivity].
  intros Hlater. apply Z.leb_gt in Hlater.
  destruct (t <? now + ms) eqn:Hlt; [lia | reflexivity].
Qed.

(** A run of pending and slow-down answers that fits into the window, with
    no cancellation by its end, brings the loop to the answers that follow:
    one request and one wait per answer, the waits being the intervals of
    the backoff. *)
Lemma poll_loop_throttled (dc cv : string) (token : option CancellationToken)
    (pollStart timeoutMs : Z) (tail : list (Reply PollBody)) (signals : list (Z * bool)) :
  Forall (fun signal => 0 <= signal.1) signals ->
  forall (interval : Z) (s : State),
    2000 <= interval <= 10000 ->
    clock s - pollStart + total_latency signals + total (intervals interval (map snd signals))
      < timeoutMs ->
    isCancellationRequested token
      (clock s + total_latency signals + total (intervals interval (map snd signals))) = false ->
    exists (interval' : Z) (s1 : State) (events : list Event),
      poll_loop dc cv token pollStart timeoutMs interval (map throttled signals ++ tail) s =
        poll_loop dc cv token pollStart timeoutMs interval' tail s1 /\
      clock s1 =
        clock s + total_latency signals + total (intervals interval (map snd signals)) /\
      trace s1 = (trace s ++ events)%list /\
      sleeps events = intervals interval (map snd signals) /\
      List.length (fetches events) = List.length signals /\
      only_time_passed s s1.
Proof.
  intros Hnonneg.
  induction Hnonneg as [|[l b] signals Hl Hrest IH]; intros interval s Hint Hwin Hnot.
  - exists interval, s, []. cbn. rewrite app_nil_r.
    split_and!; try reflexivity; [lia | apply only_time_passed_refl].
  - cbn [fst] in Hl.
    set (next := if b then slowed interval else interval).
    assert (Hnext : 2000 <= next <= 10000).
    { unfold next. destruct b; [by apply slowed_bounds | exact Hint]. }
    assert (Hlat : total_latency ((l, b) :: signals) = l + total_latency signals)
      by reflexivity.
    assert (Hflags : intervals interval (map snd ((l, b) :: signals)) =
                     next :: intervals next (map snd signals)).
    { cbn [map snd intervals]. unfold next.
      destruct b; [rewrite <- slowed_as_specified|]; reflexivity. }
    assert (Hwaits : total (intervals interval (map snd ((l, b) :: signals))) =
                     next + total (intervals next (map snd signals)))
      by (rewrite Hflags; reflexivity).
    pose proof (total_latency_nonneg signals Hrest) as Hrest_nonneg.
    pose proof (total_intervals_nonneg (map snd signals) next ltac:(lia)) as Hwaits_nonneg.
    rewrite Hlat, Hwaits in Hwin, Hnot. rewrite Hlat, Hwaits, Hflags.
    cbn [map app].
    rewrite poll_loop_pending;
      [|lia|eapply not_requested_before; [|exact Hnot]; lia].
    cbn [snd fst]. fold next.
    unfold bind at 1. rewrite sleep_spec by lia.
    cbn [clock set_clock add_event].
    rewrite wake_time_not_requested
      by (eapply not_requested_before; [|exact Hnot]; lia).
    match goal with
    | |- context [poll_loop _ _ _ _ _ next _ ?s2] =>
        destruct (IH next s2 Hnext) as (interval' & s1 & events & Hrun & Hclock & Htrace &
                                        Hsleeps & Hfetches & Hframe);
        [cbn [clock set_clock add_event]; lia
        |cbn [clock set_clock add_event];
         replace (clock s + l + next + total_latency signals +
                  total (intervals next (map snd signals)))
           with (clock s + (l + total_latency signals) +
                 (next + total (intervals next (map snd signals)))) by lia;
         exact Hnot
        |]
    end.
    cbn [clock set_clock add_event trace] in Hclock, Htrace.
    exists interval', s1,
      ([Fetch (clock s) (DevicePoll dc cv); Progress "Waiting for authorization...";
        Sleep (clock s + l) next] ++ events)%list.
    split_and!.
    + exact Hrun.
    + rewrite Hclock. lia.
    + rewrite Htrace. rewrite <- !app_assoc. reflexivity.
    + rewrite sleeps_app, Hsleeps. reflexivity.
    + rewrite fetches_app, length_app, Hfetches. reflexivity.
    + eapply only_time_passed_trans; [|exact Hframe]. by repeat split.
Qed.

(** An OAuth error that is no throttling signal ends the loop at the poll
    it answers. *)
Lemma poll_loop_hard_error_now (dc cv : string) (token : option CancellationToken)
    (pollStart timeoutMs interval latency code : Z) (error : string)
    (description : option string) (rest : list (Reply PollBody)) (s : State) :
  clock s - pollStart < timeoutMs ->
  isCancellationRequested token (clock s) = false ->
  ~ (code = 400 /\ error = "authorization_pending") ->
  ~ (code = 429 /\ error = "slow_down") ->
  poll_loop dc cv token pollStart timeoutMs interval
            ((latency, Responds (oauth_failure code error description)) :: rest) s =
    (Throw (Error (device_login_failed error description)),
     set_clock (clock s + latency) (add_event (Fetch (clock s) (DevicePoll dc cv)) s)).
Proof.
  intros Hwin Hnot Hpending Hslow. apply Z.ltb_lt in Hwin.
  cbn [poll_loop]. unfold bind at 1, Date_now, bind at 1, get, ret.
  cbn [clock]. rewrite Hwin, Hnot. unfold bind at 1.
  assert (Hp : (code =? 400) && String.eqb error "authorization_pending" = false).
  { destruct (Z.eqb_spec code 400), (String.eqb_spec error "authorization_pending");
      try reflexivity. tauto. }
  assert (Hs : (code =? 429) && String.eqb error "slow_down" = false).
  { destruct (Z.eqb_spec code 429), (String.eqb_spec error "slow_down");
      try reflexivity. tauto. }
  unfold pollDeviceToken, fetch, oauth_failure. run_monad.
  rewrite Hp. cbn. rewrite Hs. cbn. reflexivity.
Qed.

(** X19: an OAuth error other than the two throttling signals ends the
    flow at the first poll that meets it, however many pending and
    slow-down answers came before: when these fit into the window and no
    cancellation is requested by the time the poll is sent, an HTTP error
    whose body names an error that is not authorization_pending under
    status 400 nor slow_down under status 429 makes [startDeviceFlow]
    throw "Device login failed: <error>", with the description appended
    after " - " when there is one.  The flow has then sent the device-code
    request and one poll per answer, has waited the backoff intervals of
    the earlier answers, and its last action is the poll that met the
    error: no wait follows it and the answers left are never asked for. *)
Theorem X19_hard_error (s : State) (token : option CancellationToken)
    (l0 : Z) (deviceAuth : DeviceAuthorizationData) (signals : list (Z * bool))
    (latency code : Z) (error : string) (description : option string)
    (rest : list (Reply PollBody)) :
  device_authorization s = (l0, inr deviceAuth) ->
  Forall (fun signal => 0 <= signal.1) signals ->
  let waited := total_latency signals + total (intervals 2000 (map snd signals)) in
  waited < device_expires_in deviceAuth * 1000 ->
  isCancellationRequested token (clock s + l0 + waited) = false ->
  ~ (code = 400 /\ error = "authorization_pending") ->
  ~ (code = 429 /\ error = "slow_down") ->
  exists (s' : State) (events : list Event),
    startDeviceFlow token
      (map throttled signals ++
       (latency, Responds (oauth_failure code error description)) :: rest) s =
      (Throw (Error (device_login_failed error description)), s') /\
    clock s' = clock s + l0 + waited + latency /\
    trace s' = (trace s ++ events)%list /\
    sleeps events = intervals 2000 (map snd signals) /\
    List.length (fetches events) = S (S (List.length signals)) /\
    last events =
      Some (Fetch (clock s + l0 + waited) (DevicePoll (device_code deviceAuth) (pkce s).1)) /\
    only_time_passed s s'.
Proof.
  intros Hda Hnonneg waited Hwin Hnot Hpending Hslow.
  rewrite (startDeviceFlow_unfold _ _ _ _ _ Hda).
  match goal with
  | |- context [poll_loop ?dc ?cv _ ?start ?timeout 2000 (_ ++ ?tail) ?s0] =>
      destruct (poll_loop_throttled dc cv token start timeout tail signals Hnonneg 2000 s0)
        as (interval' & s1 & events & Hrun & Hclock & Htrace & Hsleeps & Hfetches & Hframe);
      [lia
      |cbn [clock set_clock add_event]; fold waited; lia
      |cbn [clock set_clock add_event];
       replace (clock s + l0 + total_latency signals +
                total (intervals 2000 (map snd signals)))
         with (clock s + l0 + waited) by (unfold waited; lia);
       exact Hnot
      |]
  end.
  cbn [clock set_clock add_event trace pkce] in Hclock, Htrace.
  assert (Hnow : clock s1 = clock s + l0 + waited) by (rewrite Hclock; unfold waited; lia).
  rewrite Hrun.
  rewrite poll_loop_hard_error_now;
    [|rewrite Hnow; lia|rewrite Hnow; exact Hnot|exact Hpending|exact Hslow].
  eexists. exists ([Fetch (clock s) (DeviceCodeRequest (pkce s).2)] ++ events ++
                   [Fetch (clock s1) (DevicePoll (device_code deviceAuth) (pkce s).1)])%list.
  split; [reflexivity|].
  cbn [clock set_clock add_event trace].
  split_and!.
  - rewrite Hnow. reflexivity.
  - rewrite Htrace. rewrite <- !app_assoc. reflexivity.
  - rewrite !sleeps_app, Hsleeps. cbn. by rewrite app_nil_r.
  - rewrite !fetches_app, !length_app, Hfetches. cbn. lia.
  - rewrite app_assoc, last_snoc, Hnow. reflexivity.
  - eapply only_time_passed_trans; [|eapply only_time_passed_trans; [exact Hframe|]];
      by repeat split.
Qed.

(** A slow-down and a pending answer, then HTTP 401 with the error
    authorization_pending, which under that status is no throttling
    signal: the flow throws after the third poll, having waited 3000 ms
    twice, and the token that the endpoint holds ready is never asked
    for. *)
Lemma X19_hard_error_witness :
  exists (s' : State) (events : list Event),
    startDeviceFlow None
      [slow_down 100; authorization_pending 100;
       (50, Responds (oauth_failure 401 "authorization_pending" (Some "expired")));
       token_granted 0 (token_response "new" None)]
      (signed_out 600) =
      (Throw (Error "Device login failed: authorization_pending - expired"), s') /\
    trace s' = (trace (signed_out 600) ++ events)%list /\
    sleeps events = [3000; 3000] /\
    List.length (fetches events) = 4%nat.
Proof.
  destruct (X19_hard_error (signed_out 600) None 0 (device 600) [(100, true); (100, false)]
              50 401 "authorization_pending" (Some "expired")
              [token_granted 0 (token_response "new" None)])
    as (s' & events & Hrun & _ & Htrace & Hsleeps & Hfetches & _);
    [reflexivity | repeat constructor; cbn; lia | cbn; lia | reflexivity
    | intros [H _]; discriminate | intros [H _]; discriminate |].
  exists s', events. split_and!; [exact Hrun | exact Htrace | exact Hsleeps | exact Hfetches].
Defined.

(** X20: the device flow stores nothing: whatever the answers and the
    cancellation, and whether it returns a credential or throws,
    [startDeviceFlow] changes only the clock and the trace; the handler's
    credential, the API client, the vault and the file are as before:
    persisting the credential is left to the caller. *)
Theorem X20_flow_stores_nothing (s : State) (token : option CancellationToken)
    (polls : list (Reply PollBody)) :
  only_time_passed s (startDeviceFlow token polls s).2.
Proof. apply poll_flow_frame. Qed.

End AuthMore.

(** * Properties of the API client and of the sign-in command *)

Module ClientFacts.
Import Auth AuthFacts JsFacts AuthMore Client Extension.

#[local] Arguments pollDeviceToken : simpl never.
#[local] Arguments sleep : simpl never.

(** When [getValidAccessToken] returns, the token is the one of the
    credential the handler then holds. *)
Lemma getValidAccessToken_returns (s s' : State) (token : string) :
  getValidAccessToken s = (Return token, s') ->
  exists c', credentials s' = Some c' /\ token = accessToken c'.
Proof.
  unfold getValidAccessToken. run_monad.
  destruct (credentials s) as [c|] eqn:Hc; [|discriminate].
  destruct (negb (Js.truthy (accessToken c)) || (Js.length (Js.trim (accessToken c)) =? 0));
    [discriminate|].
  cbn.
  destruct (expiresAt c - clock s <? TOKEN_REFRESH_BUFFER).
  - destruct (refreshAccessToken s) as [[[]|e] s1]; [|discriminate].
    destruct (credentials s1) as [c1|] eqn:Hc1; [|discriminate].
    intros [= <- <-]. by exists c1.
  - cbn. rewrite Hc. intros [= <- <-]. by exists c.
Qed.

(** A refresh does not touch the API client. *)
Lemma refresh_keeps_client (s : State) :
  client (refreshAccessToken s).2 = client s /\ apiKey (refreshAccessToken s).2 = apiKey s.
Proof.
  unfold refreshAccessToken, fetch, saveCredentials, secretStorage_store, fs_mkdir,
    fs_writeFile.
  run_monad.
  destruct (credentials s) as [c|]; [|by split].
  destruct (refresh_replies s) as [|[latency [message|response]] rest]; cbn;
    [by split | by split |].
  destruct (ok response); cbn; [|by split].
  destruct (json response) as [data|]; cbn; [|by split].
  destruct (secretStorage s); cbn.
  - destruct (vault_error s); cbn; by split.
  - destruct (fs_error s) eqn:Hfe; cbn; [by split|]. rewrite Hfe. cbn. by split.
Qed.

Lemma ensureClient_unfold (s : State) :
  ensureClient s =
    match getValidAccessToken s with
    | (Return key, s1) =>
        (Return tt,
         if isReady s1 &&
            match apiKey s1 with
            | Some k => String.eqb k key
            | None => false
            end
         then s1
         else set_client (Some key) (Some key) s1)
    | (Throw e, s1) => (Throw e, s1)
    end.
Proof.
  unfold ensureClient. unfold bind at 1.
  destruct (getValidAccessToken s) as [[key|e] s1]; [|reflexivity].
  unfold bind, get.
  destruct (isReady s1 && match apiKey s1 with
                          | Some k => String.eqb k key
                          | None => false
                          end); reflexivity.
Qed.

(** [getValidAccessToken] does not touch the API client. *)
Lemma getValidAccessToken_keeps_client (s : State) :
  client (getValidAccessToken s).2 = client s /\
  apiKey (getValidAccessToken s).2 = apiKey s.
Proof.
  unfold getValidAccessToken. run_monad.
  destruct (credentials s) as [c|] eqn:Hc; [|by split].
  destruct (negb (Js.truthy (accessToken c)) || (Js.length (Js.trim (accessToken c)) =? 0));
    [by split|].
  cbn. destruct (expiresAt c - clock s <? TOKEN_REFRESH_BUFFER).
  - pose proof (refresh_keeps_client s) as Hkeep.
    destruct (refreshAccessToken s) as [[[]|e1] s2]; cbn in *; [|exact Hkeep].
    destruct (credentials s2); exact Hkeep.
  - cbn. rewrite Hc. by split.
Qed.

(** X21: when [ensureClient] returns, the client is ready and the key it
    records is the access token of the credential the handler holds at
    that moment, also after a refresh; when it throws, the error is the
    one of [getValidAccessToken] and the client is as it was. *)
Theorem X21_client_follows_token (s : State) :
  (forall s', ensureClient s = (Return tt, s') ->
              isReady s' = true /\
              exists c', credentials s' = Some c' /\ apiKey s' = Some (accessToken c')) /\
  (forall e s', ensureClient s = (Throw e, s') ->
                getValidAccessToken s = (Throw e, s') /\
                client s' = client s /\ apiKey s' = apiKey s).
Proof.
  rewrite ensureClient_unfold.
  pose proof (getValidAccessToken_keeps_client s) as [Hclient Hkey].
  destruct (getValidAccessToken s) as [[key|e] s1] eqn:Hget.
  - split; [|discriminate].
    intros s'. apply getValidAccessToken_returns in Hget as (c' & Hc' & ->).
    destruct (isReady s1) eqn:Hready; cbn [andb].
    + destruct (apiKey s1) as [k|] eqn:Hk.
      * destruct (String.eqb_spec k (accessToken c')) as [->|_].
        -- intros [= <-]. split; [exact Hready|]. by exists c'.
        -- intros [= <-]. split; [reflexivity|]. by exists c'.
      * intros [= <-]. split; [reflexivity|]. by exists c'.
    + intros [= <-]. split; [reflexivity|]. by exists c'.
  - split; [discriminate|]. intros e' s' [= <- <-]. by split_and!.
Qed.

Lemma X21_client_follows_token_witness :
  isReady (ensureClient stale_state).2 = true /\
  exists c', credentials (ensureClient stale_state).2 = Some c' /\
             apiKey (ensureClient stale_state).2 = Some (accessToken c').
Proof.
  apply (proj1 (X21_client_follows_token stale_state)). reflexivity.
Defined.

(** X22: after a logout that removed the record, the next request fails
    at once: the client is not ready, and [ensureClient] throws "No
    credentials found" without sending anything, leaving the state as the
    logout left it. *)
Theorem X22_logout_then_request (s : State) :
  (secretStorage s = true /\ vault_error s = None) \/
  (secretStorage s = false /\ fs_error s = None /\ file s <> None) ->
  isReady (commandLogout s).2 = false /\
  isAuthenticated (commandLogout s).2 = false /\
  ensureClient (commandLogout s).2 =
    (Throw (Error "No credentials found. Please authenticate first."), (commandLogout s).2).
Proof.
  intros Hstore.
  destruct (clearCredentials_spec s) as (Hret & _ & _ & _ & Hvault & Hfile & _ & _).
  assert (Hcleared : credentials (clearCredentials s).2 = None).
  { destruct Hstore as [[Hv He]|(Hv & He & Hf)].
    - by destruct (Hvault Hv He) as (_ & _ & ?).
    - by destruct (Hfile Hv He Hf) as (_ & _ & ?). }
  assert (Hlogout :
            commandLogout s =
              (Return tt,
               add_event (ShowInformationMessage "Logged out from Qwen.")
                 (set_client None None (clearCredentials s).2))).
  { unfold commandLogout, reset. unfold try_catch, bind at 1.
    destruct (clearCredentials s) as [[[]|e] s1]; [reflexivity | discriminate]. }
  rewrite Hlogout. cbn [snd].
  split_and!.
  - reflexivity.
  - apply not_authenticated. exact Hcleared.
  - rewrite ensureClient_unfold. unfold getValidAccessToken. unfold bind at 1, get.
    cbn [credentials add_event set_client]. rewrite Hcleared. reflexivity.
Qed.

Lemma X22_logout_then_request_witness :
  ensureClient (commandLogout mirrored_state).2 =
    (Throw (Error "No credentials found. Please authenticate first."),
     (commandLogout mirrored_state).2).
Proof.
  apply (X22_logout_then_request mirrored_state). left. by split.
Defined.

(** *** Signing in *)

Lemma poll_loop_grants (dc cv : string) (token : option CancellationToken)
    (pollStart timeoutMs latency : Z) (t : QwenTokenResponse) (signals : list (Z * bool)) :
  never_cancelled token ->
  Forall (fun signal => 0 <= signal.1) signals ->
  forall (interval : Z) (s : State),
    2000 <= interval <= 10000 ->
    clock s - pollStart + total_latency signals + total (intervals interval (map snd signals))
      < timeoutMs ->
    exists s',
      poll_loop dc cv token pollStart timeoutMs interval
                (map throttled signals ++ [token_granted latency t]) s
        = (Return (granted_credential t (clock s')), s') /\
      only_time_passed s s'.
Proof.
  intros Hnever Hnonneg.
  induction Hnonneg as [|[l b] signals Hl Hrest IH]; intros interval s Hint Hwin.
  - cbn in Hwin. cbn [map app].
    rewrite poll_loop_granted_now; [|lia|apply Hnever].
    exists (set_clock (clock s + latency) (add_event (Fetch (clock s) (DevicePoll dc cv)) s)).
    split; [reflexivity | by repeat split].
  - cbn [fst] in Hl.
    set (next := if b then slowed interval else interval).
    assert (Hnext : 2000 <= next <= 10000).
    { unfold next. destruct b; [by apply slowed_bounds | exact Hint]. }
    assert (Hlat : total_latency ((l, b) :: signals) = l + total_latency signals)
      by reflexivity.
    assert (Hwaits : total (intervals interval (map snd ((l, b) :: signals))) =
                     next + total (intervals next (map snd signals))).
    { cbn [map snd intervals]. unfold next.
      destruct b; [rewrite <- slowed_as_specified|]; reflexivity. }
    pose proof (total_latency_nonneg signals Hrest) as Hrest_nonneg.
    pose proof (total_intervals_nonneg (map snd signals) next ltac:(lia)) as Hwaits_nonneg.
    rewrite Hlat, Hwaits in Hwin.
    cbn [map app].
    rewrite poll_loop_pending; [|lia|apply Hnever]. cbn [snd fst]. fold next.
    unfold bind at 1. rewrite sleep_spec by lia.
    rewrite wake_time_never by exact Hnever.
    cbn [clock set_clock add_event].
    match goal with
    | |- context [poll_loop _ _ _ _ _ next _ ?s2] =>
        destruct (IH next s2 Hnext) as (s' & Hrun & Hframe);
        [cbn [clock set_clock add_event]; lia|]
    end.
    exists s'. split; [exact Hrun | exact Hframe].
Qed.

(** X23: a sign-in that succeeds ends signed in and ready: starting signed
    out, with pending answers and then a token whose access token is not
    blank and lives at least 30 s, no cancellation, a window that outlasts
    the polling and a store that accepts the write, [commandAuthenticate]
    returns with the credential of the token in the handler and in the
    store in use, the API client built with the new access token, and the
    success message as the last thing the command does; no refresh request
    is sent. *)
Theorem X23_sign_in (s : State) (l0 latency : Z) (deviceAuth : DeviceAuthorizationData)
    (signals : list (Z * bool)) (t : QwenTokenResponse) :
  isAuthenticated s = false ->
  device_authorization s = (l0, inr deviceAuth) ->
  Forall (fun signal => 0 <= signal.1) signals ->
  total_latency signals + total (intervals 2000 (map snd signals))
    < device_expires_in deviceAuth * 1000 ->
  store_healthy s ->
  0 < Js.length (Js.trim (access_token t)) ->
  30000 <= expires_in t * 1000 ->
  exists s',
    commandAuthenticate patient (map throttled signals ++ [token_granted latency t]) s
      = (Return tt, s') /\
    credentials s' = Some (granted_credential t (clock s')) /\
    persisted s' (granted_credential t (clock s')) /\
    apiKey s' = Some (access_token t) /\
    isReady s' = true /\
    isAuthenticated s' = true /\
    refresh_replies s' = refresh_replies s /\
    last (trace s') = Some (ShowInformationMessage "Successfully authenticated with Qwen!").
Proof.
  intros Hout Hda Hnonneg Hwindow Hhealthy Htoken Hfresh.
  unfold commandAuthenticate, try_catch. unfold bind at 1, get at 1.
  rewrite Hout. unfold runDeviceFlowLogin.
  unfold bind at 1, modify at 1. unfold bind at 1.
  set (s0 := add_event (Progress "Requesting device authorization...") s).
  assert (Hda0 : device_authorization s0 = (l0, inr deviceAuth)) by exact Hda.
  rewrite (startDeviceFlow_unfold _ _ _ _ _ Hda0).
  match goal with
  | |- context [poll_loop ?dc ?cv ?tok ?start ?timeout 2000 _ ?s00] =>
      destruct (poll_loop_grants dc cv tok start timeout latency t signals
                  ltac:(intros now; reflexivity) Hnonneg 2000 s00)
        as (s1 & Hrun & Hframe); [lia | cbn [clock set_clock add_event]; lia |]
  end.
  rewrite Hrun.
  unfold only_time_passed in Hframe. cbn in Hframe.
  destruct Hframe as (Hcred1 & Hss1 & Hcl1 & Hak1 & Hv1 & Hve1 & Hf1 & Hfe1 & _ & _ & Hrr1).
  set (c := granted_credential t (clock s1)).
  assert (Hh1 : store_healthy s1).
  { unfold store_healthy in *. rewrite Hss1, Hve1, Hfe1. exact Hhealthy. }
  unfold bind at 1. rewrite (proj1 (saveCredentials_outcomes c s1) Hh1).
  unfold bind at 1, reset, modify at 1. unfold bind at 1, initialize.
  rewrite ensureClient_unfold.
  match goal with
  | |- context [getValidAccessToken ?s3] =>
      assert (Hc3 : credentials s3 = Some c) by reflexivity;
      assert (Hclock3 : clock s3 = clock s1) by (destruct (secretStorage s1); reflexivity);
      rewrite (getValidAccessToken_unfold s3 c Hc3 Htoken)
  end.
  rewrite Hclock3.
  change (expiresAt c) with (clock s1 + expires_in t * 1000).
  destruct (clock s1 + expires_in t * 1000 - clock s1 <? 30000) eqn:Hlt; [lia|].
  cbn [isReady client set_client andb].
  unfold modify. eexists. split; [reflexivity|].
  cbn [credentials apiKey client trace refresh_replies clock add_event set_client
       set_credentials isReady].
  split_and!.
  - f_equal. unfold c. f_equal. destruct (secretStorage s1); reflexivity.
  - unfold persisted. cbn. destruct (secretStorage s1) eqn:Hs; cbn; rewrite Hs; cbn;
      unfold c; do 3 f_equal.
  - reflexivity.
  - reflexivity.
  - unfold isAuthenticated. cbn. rewrite Z.gtb_ltb. apply Z.ltb_lt. exact Htoken.
  - destruct (secretStorage s1); cbn; exact Hrr1.
  - apply last_snoc.
Qed.

Lemma X23_sign_in_witness :
  exists s',
    commandAuthenticate patient
      (map throttled [(100, false); (100, true)] ++
       [token_granted 100 (token_response "new" (Some "r1"))]) (signed_out 600)
      = (Return tt, s') /\
    apiKey s' = Some "new" /\
    isAuthenticated s' = true.
Proof.
  destruct (X23_sign_in (signed_out 600) 0 100 (device 600) [(100, false); (100, true)]
              (token_response "new" (Some "r1")))
    as (s' & Hrun & _ & _ & Hkey & _ & Hauth & _);
    [reflexivity | reflexivity | repeat constructor; cbn; lia | cbn; lia | reflexivity
    | reflexivity | cbn; lia |].
  exists s'. by split_and!.
Defined.

(** X24: the sign-in command never throws and stores nothing unless the
    flow succeeds: when the handler is already authenticated it only shows
    "Already authenticated with Qwen." and sends nothing; when the device
    flow throws (cancellation, timeout, an OAuth error, a network failure)
    it shows "Authentication error: <message>" and leaves the credential,
    the client and both stores as they were. *)
Theorem X24_sign_in_failure (s : State) (token : CancellationToken)
    (polls : list (Reply PollBody)) :
  (isAuthenticated s = true ->
   commandAuthenticate token polls s =
     (Return tt, add_event (ShowInformationMessage "Already authenticated with Qwen.") s)) /\
  (isAuthenticated s = false ->
   forall e s1,
     startDeviceFlow (Some token) polls
       (add_event (Progress "Requesting device authorization...") s) = (Throw e, s1) ->
     commandAuthenticate token polls s =
       (Return tt,
        add_event (ShowErrorMessage ("Authentication error: " ++ error_message e)) s1) /\
     only_time_passed s s1).
Proof.
  split.
  - intros Hauth. unfold commandAuthenticate, try_catch. unfold bind at 1, get at 1.
    rewrite Hauth. reflexivity.
  - intros Hout e s1 Hflow. unfold commandAuthenticate, try_catch.
    unfold bind at 1, get at 1. rewrite Hout. unfold runDeviceFlowLogin.
    unfold bind at 1, modify at 1. unfold bind at 1. rewrite Hflow.
    split; [reflexivity|].
    pose proof (poll_flow_frame (add_event (Progress "Requesting device authorization...") s)
                  (Some token) polls) as Hframe.
    rewrite Hflow in Hframe. exact Hframe.
Qed.

Lemma X24_sign_in_failure_witness :
  exists s',
    commandAuthenticate {| requestedAt := Some 0 |} [] (signed_out 600) = (Return tt, s') /\
    last (trace s') =
      Some (ShowErrorMessage "Authentication error: Authentication cancelled.") /\
    credentials s' = None.
Proof.
  edestruct (proj2 (X24_sign_in_failure (signed_out 600) {| requestedAt := Some 0 |} [])
               eq_refl) as [Hrun Hframe]; [vm_compute; reflexivity|].
  eexists. split; [exact Hrun|]. split; reflexivity.
Defined.

End ClientFacts.

Module ProviderFacts.
Import Client Provider.

(** *** The token estimate *)

Lemma length_nonneg (s : string) : 0 <= Js.length s.
Proof. unfold Js.length. lia. Qed.

Lemma count_part_shift (parts : list ContentPart) (t : Z) :
  fold_left count_part parts t = t + fold_left count_part parts 0 /\
  0 <= fold_left count_part parts 0.
Proof.
  revert t. induction parts as [|part parts IH]; intros t; cbn [fold_left].
  - lia.
  - destruct (IH (count_part t part)) as [-> _].
    destruct (IH (count_part 0 part)) as [-> Hpos].
    destruct part as [text|]; cbn [count_part];
      [pose proof (length_nonneg (Js.nullish text EmptyString))|]; lia.
Qed.

Lemma count_call_step (t : Z) (call : ToolCallPayload) :
  count_call t call = t + count_call 0 call /\ 0 <= count_call 0 call.
Proof.
  unfold count_call. destruct (payload_function call) as [f|]; [|lia].
  pose proof (length_nonneg (Js.nullish (function_name f) EmptyString)).
  pose proof (length_nonneg (Js.nullish (function_arguments f) EmptyString)).
  destruct (Js.truthy_opt (function_name f)), (Js.truthy_opt (function_arguments f)); lia.
Qed.

Lemma count_call_shift (calls : list ToolCallPayload) (t : Z) :
  fold_left count_call calls t = t + fold_left count_call calls 0 /\
  0 <= fold_left count_call calls 0.
Proof.
  revert t. induction calls as [|call calls IH]; intros t; cbn [fold_left].
  - lia.
  - destruct (IH (count_call t call)) as [-> _].
    destruct (IH (count_call 0 call)) as [-> Hpos].
    destruct (count_call_step t call) as [-> ?]. lia.
Qed.

Lemma count_message_step (t : Z) (msg : QwenMessage) :
  count_message t msg = t + count_message 0 msg /\ 0 <= count_message 0 msg.
Proof.
  unfold count_message.
  assert (Hcontent :
    forall t, match content msg with
              | content_string s => t + Js.length s
              | content_parts parts => fold_left count_part parts t
              | content_none => t
              end = t + match content msg with
                        | content_string s => 0 + Js.length s
                        | content_parts parts => fold_left count_part parts 0
                        | content_none => 0
                        end /\
              0 <= match content msg with
                   | content_string s => 0 + Js.length s
                   | content_parts parts => fold_left count_part parts 0
                   | content_none => 0
                   end).
  { intros t'. destruct (content msg) as [s|parts|].
    - pose proof (length_nonneg s). lia.
    - destruct (count_part_shift parts t') as [-> ?]. lia.
    - lia. }
  destruct (Hcontent t) as [-> Hpos].
  destruct (tool_calls msg) as [calls|]; [|lia].
  match goal with
  | |- context [fold_left count_call calls (t + ?c)] =>
      destruct (count_call_shift calls (t + c)) as [-> ?];
      destruct (count_call_shift calls c) as [-> ?]
  end.
  lia.
Qed.

Lemma totalChars_shift (messages : list QwenMessage) (t : Z) :
  fold_left count_message messages t = t + totalChars messages /\
  0 <= totalChars messages.
Proof.
  unfold totalChars. revert t.
  induction messages as [|msg messages IH]; intros t; cbn [fold_left].
  - lia.
  - destruct (IH (count_message t msg)) as [-> _].
    destruct (IH (count_message 0 msg)) as [-> Hpos].
    destruct (count_message_step t msg) as [-> ?]. lia.
Qed.

Lemma totalChars_app (a b : list QwenMessage) :
  totalChars (a ++ b) = totalChars a + totalChars b.
Proof.
  unfold totalChars at 1. rewrite fold_left_app.
  destruct (totalChars_shift b (fold_left count_message a 0)) as [-> _].
  reflexivity.
Qed.

(** X30: the token estimate of [countTokens] splits over a conversation up
    to one token: counting two lists of messages apart gives the count of
    the whole list or one more, and every message costs at least 3. *)
Theorem X30_count_splits (a b : list QwenMessage) :
  countTokens (a ++ b) <= countTokens a + countTokens b <= countTokens (a ++ b) + 1 /\
  3 * Z.of_nat (List.length a) <= countTokens a.
Proof.
  unfold countTokens, Math_ceil_div. rewrite totalChars_app, length_app.
  destruct (totalChars_shift a 0) as [_ Ha].
  destruct (totalChars_shift b 0) as [_ Hb].
  revert Ha Hb. generalize (totalChars a) (totalChars b). intros x y Hx Hy.
  Z.div_mod_to_equations. lia.
Qed.

Section Conversion.

Variables (Value Data : Type).
Variable safeJson : Value -> option string.
Variable empty_object : Value.
Variables utf8 base64 : Data -> string.
Variables (Schema number : Type).
Variable default_schema : Schema.
Variable default_temperature : number.

#[local] Abbreviation Part := (Part Value Data).
#[local] Abbreviation ChatMessage := (ChatMessage Value Data).
#[local] Abbreviation ToolCall := (ToolCall Value).
#[local] Abbreviation Conversion := (Conversion Value).
#[local] Abbreviation convert_part := (convert_part Value Data safeJson utf8 base64).
#[local] Abbreviation convert_message := (convert_message Value Data safeJson empty_object utf8 base64).
#[local] Abbreviation convertMessages := (convertMessages Value Data safeJson empty_object utf8 base64).
#[local] Abbreviation buildTextMessage := Provider.buildTextMessage.
#[local] Abbreviation buildAssistantToolCallMessage :=
  (buildAssistantToolCallMessage Value safeJson empty_object).
#[local] Abbreviation toolMessage := (toolMessage Value Data safeJson utf8 base64).
#[local] Abbreviation callPayload := (callPayload Value safeJson empty_object).
#[local] Abbreviation tool_results_given := (tool_results_given Value Data safeJson utf8 base64).
#[local] Abbreviation tool_result_given := (tool_result_given Value Data safeJson utf8 base64).
#[local] Abbreviation chat_request :=
  (chat_request Value Data safeJson empty_object utf8 base64 Schema number default_schema
     default_temperature).

Lemma length_truthy (s : string) : (Js.length s >? 0) = Js.truthy s.
Proof. destruct s; reflexivity. Qed.

Lemma qwen_role_cases (msg : ChatMessage) :
  qwen_role msg = role_user \/ qwen_role msg = role_assistant.
Proof. unfold qwen_role. destruct (chat_role msg); auto. Qed.

(** **** Every message sent is well formed *)

Lemma buildTextMessage_well_formed (role : QwenRole) (text : string) (name : option string) :
  role <> role_tool -> Js.truthy text = true ->
  well_formed (buildTextMessage role text name) = true.
Proof.
  intros Hrole Htext. unfold buildTextMessage, well_formed.
  destruct name as [[|c n]|]; cbn; rewrite Htext; by destruct role.
Qed.

Lemma convert_part_well_formed (role : QwenRole) (name : option string)
    (parts : list Part) (st : Conversion) :
  role <> role_tool ->
  Forall (fun m => well_formed m = true) (converted st) ->
  Forall (fun m => well_formed m = true)
    (converted (fold_left (convert_part role name) parts st)).
Proof.
  intros Hrole. revert st. induction parts as [|part parts IH]; intros st Hst; [exact Hst|].
  cbn [fold_left]. apply IH.
  destruct part; cbn [Provider.convert_part converted]; try exact Hst.
  apply Forall_app. split; [|by repeat constructor].
  destruct (Js.length (textBuffer st) >? 0) eqn:Hbuf; [|exact Hst].
  cbn [converted]. apply Forall_app. split; [exact Hst|].
  repeat constructor. apply buildTextMessage_well_formed; [exact Hrole|].
  by rewrite <- length_truthy.
Qed.

Lemma convert_message_well_formed (so_far : list QwenMessage) (msg : ChatMessage) :
  Forall (fun m => well_formed m = true) so_far ->
  Forall (fun m => well_formed m = true) (convert_message so_far msg).
Proof.
  intros Hso. unfold Provider.convert_message.
  assert (Hrole : qwen_role msg <> role_tool)
    by (destruct (qwen_role_cases msg) as [-> | ->]; discriminate).
  match goal with
  | |- context [fold_left ?f ?parts ?st0] =>
      pose proof (convert_part_well_formed (qwen_role msg) (chat_name msg)
                    parts st0 Hrole Hso) as Hparts;
      set (st := fold_left f parts st0) in *
  end.
  destruct (is_assistant (qwen_role msg) &&
            (0 <? Z.of_nat (List.length (toolCalls st)))) eqn:Hcalls.
  - apply Forall_app. split; [exact Hparts|]. repeat constructor.
    apply andb_prop in Hcalls as [_ Hcalls].
    unfold well_formed, Provider.buildAssistantToolCallMessage.
    cbn [role name tool_call_id tool_calls content absent andb].
    rewrite length_map, Hcalls, length_truthy.
    destruct (chat_name msg) as [[|c n]|]; cbn;
      by destruct (textBuffer st).
  - destruct (Js.length (textBuffer st) >? 0) eqn:Hbuf; [|exact Hparts].
    apply Forall_app. split; [exact Hparts|]. repeat constructor.
    apply buildTextMessage_well_formed; [exact Hrole|]. by rewrite <- length_truthy.
Qed.

Lemma convertMessages_well_formed (messages : list ChatMessage) :
  Forall (fun m => well_formed m = true) (convertMessages messages).
Proof.
  unfold Provider.convertMessages.
  assert (Hnil : Forall (fun m => well_formed m = true) (@nil QwenMessage)) by constructor.
  revert Hnil. generalize (@nil QwenMessage).
  induction messages as [|msg messages IH]; intros so_far Hso; [exact Hso|].
  cbn [fold_left]. apply IH. by apply convert_message_well_formed.
Qed.

(** X27: every message [convertMessages] builds is well formed: no text
    message is empty, a name is never the empty string, tool calls appear
    only on assistant messages and then there is at least one, and an
    assistant message with tool calls has a text that is not empty or no
    content. *)
Theorem X27_messages_well_formed (messages : list ChatMessage) :
  forallb well_formed (convertMessages messages) = true.
Proof.
  apply forallb_forall. intros m Hin.
  pose proof (convertMessages_well_formed messages) as H.
  rewrite Forall_forall in H. apply H. by apply list_elem_of_In.
Qed.

(** **** Tool results and tool calls *)

Lemma text_message_no_result (role : QwenRole) (text : string) (name : option string) :
  role <> role_tool ->
  tool_result_sent (buildTextMessage role text name) = None /\
  tool_calls (buildTextMessage role text name) = None.
Proof.
  intros Hrole. unfold Provider.buildTextMessage, tool_result_sent.
  destruct (Js.truthy_opt name); cbn; by destruct role.
Qed.

Lemma tool_results_sent_app (a b : list QwenMessage) :
  tool_results_sent (a ++ b) = (tool_results_sent a ++ tool_results_sent b)%list.
Proof. apply omap_app. Qed.

Lemma tool_calls_sent_app (a b : list QwenMessage) :
  tool_calls_sent (a ++ b) = (tool_calls_sent a ++ tool_calls_sent b)%list.
Proof. apply flat_map_app. Qed.

Lemma tool_result_given_cons (part : Part) (parts : list Part) :
  omap tool_result_given (part :: parts) =
    match tool_result_given part with
    | Some r => r :: omap tool_result_given parts
    | None => omap tool_result_given parts
    end.
Proof. reflexivity. Qed.

Lemma tool_call_given_cons (part : Part) (parts : list Part) :
  omap tool_call_given (part :: parts) =
    match tool_call_given part with
    | Some r => r :: omap tool_call_given parts
    | None => omap tool_call_given parts
    end.
Proof. reflexivity. Qed.

(** What the inner loop does to the three variables. *)
Lemma convert_parts (role : QwenRole) (name : option string) (parts : list Part)
    (st : Conversion) :
  role <> role_tool ->
  let st' := fold_left (convert_part role name) parts st in
  tool_results_sent (converted st') =
    (tool_results_sent (converted st) ++ omap tool_result_given parts)%list /\
  tool_calls_sent (converted st') = tool_calls_sent (converted st) /\
  toolCalls st' = (toolCalls st ++ omap tool_call_given parts)%list.
Proof.
  intros Hrole. revert st. induction parts as [|part parts IH]; intros st.
  - cbn. by rewrite !app_nil_r.
  - cbn [fold_left]. destruct (IH (convert_part role name st part)) as (Hr & Hc & Ht).
    cbv zeta. rewrite Hr, Hc, Ht. clear IH Hr Hc Ht.
    rewrite tool_result_given_cons, tool_call_given_cons.
    destruct part as [value|call|resultId entries|value|mimeType data|str];
      cbn [Provider.convert_part Provider.tool_result_given tool_call_given
           converted textBuffer toolCalls];
      try (split_and!; reflexivity).
    + split_and!; try reflexivity. by rewrite <- app_assoc.
    + destruct (text_message_no_result role (textBuffer st) name Hrole) as [Hnone Hcalls].
      rewrite tool_results_sent_app, tool_calls_sent_app.
      destruct (Js.length (textBuffer st) >? 0);
        cbn [converted toolCalls];
        rewrite ?tool_results_sent_app, ?tool_calls_sent_app;
        unfold tool_results_sent, tool_calls_sent;
        cbn [omap list_omap flat_map]; rewrite ?Hnone, ?Hcalls; cbn;
        rewrite <- ?app_assoc, ?app_nil_r; split_and!; reflexivity.
Qed.

Lemma convert_message_results (so_far : list QwenMessage) (msg : ChatMessage) :
  tool_results_sent (convert_message so_far msg) =
    (tool_results_sent so_far ++
     omap tool_result_given (Js.nullish (chat_content msg) []))%list /\
  tool_calls_sent (convert_message so_far msg) =
    (tool_calls_sent so_far ++
     map callPayload
       match chat_role msg with
       | Assistant => omap tool_call_given (Js.nullish (chat_content msg) [])
       | _ => []
       end)%list.
Proof.
  unfold Provider.convert_message.
  assert (Hrole : qwen_role msg <> role_tool)
    by (destruct (qwen_role_cases msg) as [-> | ->]; discriminate).
  match goal with
  | |- context [fold_left ?f ?parts ?st0] =>
      destruct (convert_parts (qwen_role msg) (chat_name msg) parts st0 Hrole)
        as (Hr & Hc & Ht);
      cbv zeta in Hr, Hc, Ht;
      set (st := fold_left f parts st0) in *
  end.
  cbn [converted toolCalls app] in Hr, Hc, Ht.
  destruct (text_message_no_result (qwen_role msg) (textBuffer st) (chat_name msg) Hrole)
    as [Hnone Hcalls].
  assert (Hassistant : is_assistant (qwen_role msg) =
                       match chat_role msg with Assistant => true | _ => false end)
    by (unfold qwen_role; by destruct (chat_role msg)).
  rewrite Hassistant.
  destruct (chat_role msg) eqn:Hcr; cbn [andb].
  1,3: destruct (Js.length (textBuffer st) >? 0);
       rewrite ?tool_results_sent_app, ?tool_calls_sent_app, Hr, Hc;
       unfold tool_results_sent, tool_calls_sent;
       cbn [omap list_omap flat_map map]; rewrite ?Hnone, ?Hcalls; cbn;
       rewrite ?app_nil_r; split; reflexivity.
  destruct (toolCalls st) as [|call calls] eqn:Hcalls'; rewrite <- Ht.
  - change (0 <? Z.of_nat (List.length (@nil ToolCall))) with false. cbv iota.
    destruct (Js.length (textBuffer st) >? 0);
      rewrite ?tool_results_sent_app, ?tool_calls_sent_app, Hr, Hc;
      unfold tool_results_sent, tool_calls_sent;
      cbn [omap list_omap flat_map map]; rewrite ?Hnone, ?Hcalls; cbn;
      rewrite ?app_nil_r; split; reflexivity.
  - replace (0 <? Z.of_nat (List.length (call :: calls))) with true
      by (symmetry; apply Z.ltb_lt; cbn [List.length]; lia).
    rewrite tool_results_sent_app, tool_calls_sent_app, Hr, Hc.
    unfold tool_results_sent, tool_calls_sent.
    cbn. rewrite ?app_nil_r. split; reflexivity.
Qed.

Lemma convert_messages_results (messages : list ChatMessage) (so_far : list QwenMessage) :
  tool_results_sent (fold_left convert_message messages so_far) =
    (tool_results_sent so_far ++ tool_results_given messages)%list /\
  tool_calls_sent (fold_left convert_message messages so_far) =
    (tool_calls_sent so_far ++ map callPayload (assistant_calls_given messages))%list.
Proof.
  revert so_far. induction messages as [|msg messages IH]; intros so_far.
  - cbn. by rewrite !app_nil_r.
  - cbn [fold_left]. destruct (IH (convert_message so_far msg)) as [-> ->].
    destruct (convert_message_results so_far msg) as [-> ->].
    unfold Provider.tool_results_given, assistant_calls_given.
    cbn [flat_map]. rewrite map_app, <- !app_assoc. split; reflexivity.
Qed.

(** X28: every tool result of the chat messages is sent, once and in the
    order given, as a message of role tool that names the call it answers
    and carries the serialised entries, whatever the role of the chat
    message that held it; no other tool message is sent. *)
Theorem X28_tool_results_kept (messages : list ChatMessage) :
  tool_results_sent (convertMessages messages) = tool_results_given messages.
Proof. apply (convert_messages_results messages []). Qed.

(** X29: the tool calls sent are those of the assistant's chat messages,
    in the order given; a tool call held by a message of any other role
    is dropped. *)
Theorem X29_tool_calls_of_assistant (messages : list ChatMessage) :
  tool_calls_sent (convertMessages messages) =
    map callPayload (assistant_calls_given messages).
Proof. apply (convert_messages_results messages []). Qed.

(** **** The request *)

#[local] Abbreviation ModelInformation := Provider.ModelInformation.
#[local] Abbreviation ResponseOptions := (Provider.ResponseOptions Schema number).

(** X25: the [max_tokens] sent for a model whose output limit is at least
    4096 is never 0 and never above that limit: it is the first numeric
    option among maxOutputTokens, maxTokens and max_tokens capped by the
    limit, 4096 when that option is 0, and the limit when there is none. *)
Theorem X25_max_tokens_sent (model : ModelInformation) (messages : list ChatMessage)
    (options : ResponseOptions) :
  4096 <= maxOutputTokens model ->
  let sent := max_tokens (chat_request model messages options) in
  sent <> 0 /\ sent <= maxOutputTokens model /\
  match requested (modelOptions options) with
  | Some n => sent = if n =? 0 then 4096 else Z.min n (maxOutputTokens model)
  | None => sent = maxOutputTokens model
  end.
Proof.
  intros Hlimit. unfold Provider.chat_request, build_request, stream_params.
  cbn [max_tokens maxTokens]. unfold resolveMaxTokens.
  destruct (requested (modelOptions options)) as [n|].
  - destruct (Z.min n (maxOutputTokens model) =? 0) eqn:Hmin;
      destruct (n =? 0) eqn:Hn; lia.
  - destruct (maxOutputTokens model =? 0) eqn:Hzero; lia.
Qed.

(** X26: the request carries tools exactly when the chat options list at
    least one tool, and then always a tool choice: the tools keep their
    names and order, and the choice is required in tool mode Required and
    auto otherwise.  Without tools neither key is sent. *)
Theorem X26_tools_sent (model : ModelInformation) (messages : list ChatMessage)
    (options : ResponseOptions) :
  let request := chat_request model messages options in
  match options_tools options with
  | Some (tool :: rest) =>
      option_map (map qwen_tool_name) (request_tools request) =
        Some (map tool_name (tool :: rest)) /\
      tool_choice request =
        Some match toolMode options with
             | Required => choice_required
             | Auto => choice_auto
             end
  | _ => request_tools request = None /\ tool_choice request = None
  end.
Proof.
  unfold Provider.chat_request, build_request, stream_params.
  cbn [request_tools tool_choice tools toolChoice].
  destruct (options_tools options) as [[|tool rest]|]; cbn; try by split.
  split; [|reflexivity]. f_equal. f_equal. by rewrite map_map.
Qed.

End Conversion.

Lemma X25_max_tokens_sent_witness :
  max_tokens
    (chat_request unit unit (fun _ => None) tt (fun _ => EmptyString) (fun _ => EmptyString)
       unit string tt "0.3" qwen3_coder_plus [] zero_budget) = 4096.
Proof.
  destruct (X25_max_tokens_sent unit unit (fun _ => None) tt (fun _ => EmptyString)
              (fun _ => EmptyString) unit string tt "0.3" qwen3_coder_plus [] zero_budget)
    as (_ & _ & Hsent); [cbn; lia|].
  exact Hsent.
Defined.

End ProviderFacts.
